(** * GoTrue: MFA challenges, PKCE flow states, session assurance levels
    and the extensibility-hook dispatcher

  A shallow embedding of the Go sources

    - [models/sessions.go]              (modules [SessionModel], [SessionStore])
    - [internal/models/flow_state.go]   (modules [FlowStateModel], [FlowStateParse])
    - [internal/hooks/auth_hooks.go]    (module [Hooks])
    - [internal/api/hooks.go]           (modules [HookDispatch], [HTTPHookInvoke])
    - [api/mfa.go], [api/admin.go]      (modules [MFA], [MFAEnroll])
    - [api/phone.go]                    (module [Phone])
    - [api/sms_provider]                (module [TwilioVerify])

  and of the library functions they call: [crypto/sha256],
  [encoding/base64], [crypto/subtle] and the readers of [io].

  Go strings are byte strings and are modelled by [string]; a byte slice
  is a [list Z] with every element in [0, 256).  An instant ([time.Time])
  and a [time.Duration] are integers counting nanoseconds, without the
  bounds of the Go types; [time.Now()] is an effect and is passed to the
  function that reads the clock.  A nil error is [None].  Database tables
  are finite maps from the primary key to the row, and what the database,
  the network and the other collaborators answer during a call is a record
  the function takes as an argument. *)

From Stdlib Require Import ZArith List String Ascii Bool Lia.
From stdpp Require Import gmap strings list fin_maps.
Import ListNotations.

Local Open Scope string_scope.
Local Open Scope Z_scope.

(** ** Time *)

Module GoTime.

Definition Time := Z.
Definition Duration := Z.

Definition Nanosecond : Duration := 1.
Definition Second : Duration := 1000000000.

(** [t.Add(d)] *)
Definition Add (t : Time) (d : Duration) : Time := t + d.

(** [t.After(u)]: whether [t] is strictly later than [u]. *)
Definition After (t u : Time) : bool := u <? t.

(** [t.Unix()]: whole seconds since the epoch. *)
Definition Unix (t : Time) : Z := t / Second.

End GoTime.

(** ** Errors returned by the API layer *)

Module Http.

Definition StatusOK : Z := 200.
Definition StatusAccepted : Z := 202.
Definition StatusNoContent : Z := 204.
Definition StatusBadRequest : Z := 400.
Definition StatusUnauthorized : Z := 401.
Definition StatusForbidden : Z := 403.
Definition StatusNotFound : Z := 404.
Definition StatusUnprocessableEntity : Z := 422.
Definition StatusTooManyRequests : Z := 429.
Definition StatusInternalServerError : Z := 500.
Definition StatusServiceUnavailable : Z := 503.
Definition StatusGatewayTimeout : Z := 504.

(** A Go [error] value.  [HTTPError] is the API's own error struct
    ([HTTPStatus], [ErrorCode], [Message] and the wrapped internal
    error); [PlainError] is an [errors.New]/[fmt.Errorf] value or an
    error produced by a library (database driver, JSON decoder, ...);
    [NotFoundError] stands for the model layer's not-found error types
    ([ChallengeNotFoundError], [FlowStateNotFoundError], ...), the ones
    [models.IsNotFoundError] recognises. *)
#[warnings="-register-all"]
Inductive error : Type :=
| PlainError (msg : string)
| NotFoundError (msg : string)
| HTTPError (HTTPStatus : Z) (ErrorCode : string) (Message : string)
            (InternalError : option error).

Definition WithInternalError (e inner : error) : error :=
  match e with
  | HTTPError st c m _ => HTTPError st c m (Some inner)
  | PlainError m => PlainError m
  | NotFoundError m => NotFoundError m
  end.

Definition IsNotFoundError (e : error) : bool :=
  match e with
  | NotFoundError _ => true
  | _ => false
  end.

Definition status_of (e : error) : option Z :=
  match e with
  | HTTPError st _ _ _ => Some st
  | PlainError _ | NotFoundError _ => None
  end.

Definition message_of (e : error) : string :=
  match e with
  | HTTPError _ _ m _ => m
  | PlainError m | NotFoundError m => m
  end.

(** Modelled from the spec: the constructors of [api/errors.go] are not
    part of the sources at hand; each builds an [HTTPError] with the
    status its name says (section 7 of the specification). *)
Definition httpError (st : Z) (code msg : string) : error :=
  HTTPError st code msg None.
Definition badRequestError (msg : string) : error :=
  httpError StatusBadRequest EmptyString msg.
Definition unauthorizedError (msg : string) : error :=
  httpError StatusUnauthorized EmptyString msg.
Definition forbiddenError (msg : string) : error :=
  httpError StatusForbidden EmptyString msg.
Definition notFoundError (msg : string) : error :=
  httpError StatusNotFound EmptyString msg.
Definition unprocessableEntityError (msg : string) : error :=
  httpError StatusUnprocessableEntity EmptyString msg.
Definition internalServerError (msg : string) : error :=
  httpError StatusInternalServerError EmptyString msg.
Definition badRequestErrorC (code msg : string) : error :=
  httpError StatusBadRequest code msg.
Definition gatewayTimeoutError (code msg : string) : error :=
  httpError StatusGatewayTimeout code msg.

Definition ErrorHookTimeout : string := "hook_timeout".
Definition ErrorCodeValidationFailed : string := "validation_failed".
Definition ErrorCodeNoAuthorization : string := "no_authorization".

Definition is_status (st : Z) (e : error) : Prop := status_of e = Some st.

End Http.

(** ** Sessions and assurance levels ([models/sessions.go]) *)

Module SessionModel.

Inductive AuthenticatorAssuranceLevel := AAL1 | AAL2 | AAL3.

Definition AAL_String (aal : AuthenticatorAssuranceLevel) : string :=
  match aal with
  | AAL1 => "aal1"
  | AAL2 => "aal2"
  | AAL3 => "aal3"
  end.

Record AMREntry := mkAMREntry { Method : string; Timestamp : Z }.

(** The fields of [AMRClaim] that [CalculateAALAndAMR] reads. *)
Record AMRClaim := mkAMRClaim {
  AuthenticationMethod : string;
  ClaimUpdatedAt : GoTime.Time
}.

(** Modelled from the spec: [TOTPSignIn.String()] is declared next to
    [AMRClaim], outside the sources at hand; the method name of a TOTP
    sign-in. *)
Definition TOTPSignIn_String : string := "totp".

Definition UUID := string.

Record Session := mkSession {
  ID : UUID;
  UserID : UUID;
  FactorID : option UUID;
  AMRClaims : list AMRClaim;
  AAL : string
}.

(** One iteration of the [for _, claim := range s.AMRClaims] loop. *)
Definition aal_amr_step (acc : string * list AMREntry) (claim : AMRClaim)
  : string * list AMREntry :=
  let aal := if String.eqb (AuthenticationMethod claim) TOTPSignIn_String
             then AAL_String AAL2 else fst acc in
  (aal, (snd acc ++ [mkAMREntry (AuthenticationMethod claim)
                                (GoTime.Unix (ClaimUpdatedAt claim))])%list).

Definition CalculateAALAndAMR (s : Session) : string * list AMREntry :=
  fold_left aal_amr_step (AMRClaims s) (AAL_String AAL1, []).

Definition is_totp (c : AMRClaim) : Prop :=
  AuthenticationMethod c = TOTPSignIn_String.

Definition entry_of (c : AMRClaim) : AMREntry :=
  mkAMREntry (AuthenticationMethod c) (GoTime.Unix (ClaimUpdatedAt c)).

(** [InvalidateSessionsWithAALLessThan]: the [DELETE ... WHERE user_id = ?
    AND aal < ?] statement on the sessions table; the comparison is the
    one of the [aal] column, on the level names. *)
Definition aal_lt (a b : string) : bool :=
  match String.compare a b with Lt => true | _ => false end.

Definition InvalidateSessionsWithAALLessThan
    (sessions : gmap UUID Session) (userID : UUID) (level : string)
  : gmap UUID Session :=
  filter (fun kv => ¬ (UserID (snd kv) = userID
                       ∧ aal_lt (AAL (snd kv)) level = true)) sessions.

End SessionModel.

(** ** Bytes and strings *)

Module Bytes.

(** A Go [[]byte] is a list of integers, each in [0, 256). *)
Definition is_byte (b : Z) : Prop := 0 <= b < 256.
Definition is_bytes (l : list Z) : Prop := Forall is_byte l.

(** [[]byte(s)] and [string(b)]. *)
Definition of_string (s : string) : list Z :=
  map (fun c => Z.of_N (N_of_ascii c)) (list_ascii_of_string s).

Definition to_string (l : list Z) : string :=
  string_of_list_ascii (map (fun b => ascii_of_N (Z.to_N b)) l).

(** All lists of length [n] over the alphabet [al]. *)
Fixpoint all_lists {A} (al : list A) (n : nat) : list (list A) :=
  match n with
  | O => [[]]
  | S k => flat_map (fun a => map (cons a) (all_lists al k)) al
  end.

End Bytes.

(** ** [crypto/sha256], [encoding/base64] and [crypto/subtle]

    The three library functions [VerifyPKCE] calls, written out after
    FIPS 180-4, RFC 4648 section 5 and the Go implementation of
    [ConstantTimeCompare]. *)

Module Sha256.

Definition w32 (x : Z) : Z := x mod 2 ^ 32.
Definition add32 (a b : Z) : Z := w32 (a + b).
Definition rotr (n x : Z) : Z :=
  Z.lor (Z.shiftr x n) (w32 (Z.shiftl x (32 - n))).
Definition not32 (x : Z) : Z := Z.lxor x 0xffffffff.

Definition Ch (x y z : Z) : Z := Z.lxor (Z.land x y) (Z.land (not32 x) z).
Definition Maj (x y z : Z) : Z :=
  Z.lxor (Z.lxor (Z.land x y) (Z.land x z)) (Z.land y z).
Definition bsig0 (x : Z) : Z := Z.lxor (Z.lxor (rotr 2 x) (rotr 13 x)) (rotr 22 x).
Definition bsig1 (x : Z) : Z := Z.lxor (Z.lxor (rotr 6 x) (rotr 11 x)) (rotr 25 x).
Definition ssig0 (x : Z) : Z := Z.lxor (Z.lxor (rotr 7 x) (rotr 18 x)) (Z.shiftr x 3).
Definition ssig1 (x : Z) : Z := Z.lxor (Z.lxor (rotr 17 x) (rotr 19 x)) (Z.shiftr x 10).

(** The largest [r] in [lo, hi) with [r ^ k <= n], by bisection. *)
Fixpoint root_bisect (fuel : nat) (k n lo hi : Z) : Z :=
  match fuel with
  | O => lo
  | S fuel' =>
      if hi - lo <=? 1 then lo
      else
        let mid := (lo + hi) / 2 in
        if mid ^ k <=? n then root_bisect fuel' k n mid hi
        else root_bisect fuel' k n lo mid
  end.

(** The first 32 bits of the fractional part of the [k]-th root of [p]. *)
Definition frac_root (k p : Z) : Z :=
  root_bisect 64 k (p * 2 ^ (32 * k)) 0 (2 ^ 40) mod 2 ^ 32.

Definition is_prime (p : Z) : bool :=
  forallb (fun d => negb (p mod d =? 0)) (seqZ 2 (p - 2)).

Definition first_primes (n : nat) : list Z :=
  firstn n (filter (fun p => is_prime p = true) (seqZ 2 400)).

(** The round constants: cube roots of the first sixty-four primes. *)
Definition K : list Z := Eval vm_compute in map (frac_root 3) (first_primes 64).

(** The eight working variables [a .. h]. *)
Definition state : Type := Z * Z * Z * Z * Z * Z * Z * Z.

(** The initial hash value: square roots of the first eight primes. *)
Definition init_words : list Z := Eval vm_compute in map (frac_root 2) (first_primes 8).

Definition init : state :=
  match init_words with
  | [a; b; c; d; e; f; g; h] => (a, b, c, d, e, f, g, h)
  | _ => (0, 0, 0, 0, 0, 0, 0, 0)
  end.

Definition round (s : state) (kw : Z * Z) : state :=
  let '(a, b, c, d, e, f, g, h) := s in
  let t1 := add32 (add32 (add32 (add32 h (bsig1 e)) (Ch e f g)) (fst kw)) (snd kw) in
  let t2 := add32 (bsig0 a) (Maj a b c) in
  (add32 t1 t2, a, b, c, add32 d t1, e, f, g).

Definition add_state (s t : state) : state :=
  let '(a, b, c, d, e, f, g, h) := s in
  let '(a', b', c', d', e', f', g', h') := t in
  (add32 a a', add32 b b', add32 c c', add32 d d',
   add32 e e', add32 f f', add32 g g', add32 h h').

(** Big-endian 32-bit words of a block. *)
Fixpoint words_of_bytes (l : list Z) : list Z :=
  match l with
  | a :: b :: c :: d :: rest =>
      (a * 2 ^ 24 + b * 2 ^ 16 + c * 2 ^ 8 + d) :: words_of_bytes rest
  | _ => []
  end.

(** The message schedule, most recent word first. *)
Fixpoint schedule (n : nat) (w : list Z) : list Z :=
  match n with
  | O => w
  | S k =>
      let wt := add32 (add32 (add32 (ssig1 (nth 1 w 0)) (nth 6 w 0))
                             (ssig0 (nth 14 w 0))) (nth 15 w 0) in
      schedule k (wt :: w)
  end.

Definition compress (h : state) (block : list Z) : state :=
  let w := rev (schedule 48 (rev (words_of_bytes block))) in
  add_state h (fold_left round (combine K w) h).

Fixpoint process (fuel : nat) (h : state) (l : list Z) : state :=
  match fuel with
  | O => h
  | S k =>
      match l with
      | [] => h
      | _ => process k (compress h (firstn 64 l)) (skipn 64 l)
      end
  end.

Definition word_bytes (w : Z) : list Z :=
  [ (w / 2 ^ 24) mod 256; (w / 2 ^ 16) mod 256; (w / 2 ^ 8) mod 256; w mod 256 ].

Definition pad (msg : list Z) : list Z :=
  let len := Z.of_nat (length msg) in
  let bits := (8 * len) mod 2 ^ 64 in
  (msg ++ [0x80] ++ repeat 0 (Z.to_nat ((55 - len) mod 64))
       ++ word_bytes (bits / 2 ^ 32) ++ word_bytes (bits mod 2 ^ 32))%list.

Definition bytes_of_state (s : state) : list Z :=
  let '(a, b, c, d, e, f, g, h) := s in
  (word_bytes a ++ word_bytes b ++ word_bytes c ++ word_bytes d ++
   word_bytes e ++ word_bytes f ++ word_bytes g ++ word_bytes h)%list.

(** [sha256.Sum256]: the result type is [[32]byte]. *)
Definition Sum256 (msg : list Z) : list Z :=
  let p := pad msg in
  bytes_of_state (process (length p) init p).

End Sha256.

Module Base64.

(** The alphabet of [base64.URLEncoding]. *)
Definition encodeURL : string :=
  "ABCDEFGHIJKLMNOPQRSTUVWXYZabcdefghijklmnopqrstuvwxyz0123456789-_".

Definition alphabet : list ascii := list_ascii_of_string encodeURL.

Definition char_of (s : Z) : ascii := nth (Z.to_nat s) alphabet "A"%char.

(** Position of a character in the alphabet ([64] when it is not there). *)
Fixpoint index_from (i : Z) (al : list ascii) (c : ascii) : Z :=
  match al with
  | [] => i
  | x :: r => if Ascii.eqb x c then i else index_from (i + 1) r c
  end.

Definition index_of (c : ascii) : Z := index_from 0 alphabet c.

(** Six-bit groups of the input, without padding ([RawURLEncoding]). *)
Fixpoint sextets (l : list Z) : list Z :=
  match l with
  | a :: b :: c :: rest =>
      a / 4 :: (a mod 4) * 16 + b / 16 :: (b mod 16) * 4 + c / 64 :: c mod 64
        :: sextets rest
  | [a; b] => [a / 4; (a mod 4) * 16 + b / 16; (b mod 16) * 4]
  | [a] => [a / 4; (a mod 4) * 16]
  | [] => []
  end.

(** The inverse regrouping, used to show that the encoding loses nothing. *)
Fixpoint unsextets (l : list Z) : list Z :=
  match l with
  | s0 :: s1 :: s2 :: s3 :: rest =>
      s0 * 4 + s1 / 16 :: (s1 mod 16) * 16 + s2 / 4 :: (s2 mod 4) * 64 + s3
        :: unsextets rest
  | [s0; s1; s2] => [s0 * 4 + s1 / 16; (s1 mod 16) * 16 + s2 / 4]
  | [s0; s1] => [s0 * 4 + s1 / 16]
  | _ => []
  end.

(** [base64.RawURLEncoding.EncodeToString] *)
Definition RawURLEncoding_EncodeToString (src : list Z) : string :=
  string_of_list_ascii (map char_of (sextets src)).

End Base64.

Module Subtle.

(** [subtle.ConstantTimeCompare]: 1 when the two slices are equal, 0
    otherwise; the differences of all positions are or-ed together. *)
Fixpoint or_xor (v : Z) (x y : list Z) : Z :=
  match x, y with
  | a :: x', b :: y' => or_xor (Z.lor v (Z.lxor a b)) x' y'
  | _, _ => v
  end.

Definition ConstantTimeByteEq (x y : Z) : Z := if x =? y then 1 else 0.

Definition ConstantTimeCompare (x y : list Z) : Z :=
  if negb (Nat.eqb (length x) (length y)) then 0
  else ConstantTimeByteEq (or_xor 0 x y) 0.

End Subtle.

(** ** PKCE flow states ([internal/models/flow_state.go]) *)

Module FlowStateModel.

Definition InvalidCodeChallengeError : string :=
  "code challenge does not match previously saved code verifier".
Definition InvalidCodeMethodError : string :=
  "code challenge method not supported".

Definition UUID := string.

Record FlowState := mkFlowState {
  ID : UUID;
  UserID : option UUID;
  AuthCode : string;
  AuthenticationMethod : string;
  CodeChallenge : string;
  CodeChallengeMethod : string;
  ProviderType : string;
  ProviderAccessToken : string;
  ProviderRefreshToken : string;
  CreatedAt : GoTime.Time;
  UpdatedAt : GoTime.Time
}.

Inductive CodeChallengeMethodT := SHA256 | Plain.

Definition CodeChallengeMethod_String (m : CodeChallengeMethodT) : string :=
  match m with
  | SHA256 => "s256"
  | Plain => "plain"
  end.

Inductive FlowType := PKCEFlow | ImplicitFlow.

Definition FlowType_String (t : FlowType) : string :=
  match t with
  | PKCEFlow => "pkce"
  | ImplicitFlow => "implicit"
  end.

(** [VerifyPKCE]: [None] is the nil error. *)
Definition VerifyPKCE (f : FlowState) (codeVerifier : string) : option Http.error :=
  if String.eqb (CodeChallengeMethod f) (CodeChallengeMethod_String SHA256) then
    let hashedCodeVerifier := Sha256.Sum256 (Bytes.of_string codeVerifier) in
    let encodedCodeVerifier := Base64.RawURLEncoding_EncodeToString hashedCodeVerifier in
    if negb (Subtle.ConstantTimeCompare (Bytes.of_string (CodeChallenge f))
                                        (Bytes.of_string encodedCodeVerifier) =? 1)
    then Some (Http.PlainError InvalidCodeChallengeError)
    else None
  else if String.eqb (CodeChallengeMethod f) (CodeChallengeMethod_String Plain) then
    if negb (Subtle.ConstantTimeCompare (Bytes.of_string (CodeChallenge f))
                                        (Bytes.of_string codeVerifier) =? 1)
    then Some (Http.PlainError InvalidCodeChallengeError)
    else None
  else Some (Http.PlainError InvalidCodeMethodError).

(** [IsExpired]: [f.CreatedAt.After(time.Now().Add(expiryDuration))]. *)
Definition IsExpired (f : FlowState) (now : GoTime.Time)
    (expiryDuration : GoTime.Duration) : bool :=
  GoTime.After (CreatedAt f) (GoTime.Add now expiryDuration).

(** The flow state [NewFlowState] builds from the two identifiers it
    draws; the timestamps are left at [zero], the zero [time.Time]. *)
Definition NewFlowState (id authCode : UUID) (providerType codeChallenge : string)
    (codeChallengeMethod : CodeChallengeMethodT) (authenticationMethod : string)
    (zero : GoTime.Time) : FlowState :=
  {| ID := id; UserID := None; AuthCode := authCode;
     AuthenticationMethod := authenticationMethod;
     CodeChallenge := codeChallenge;
     CodeChallengeMethod := CodeChallengeMethod_String codeChallengeMethod;
     ProviderType := providerType;
     ProviderAccessToken := EmptyString; ProviderRefreshToken := EmptyString;
     CreatedAt := zero; UpdatedAt := zero |}.

End FlowStateModel.

(** ** Hook outputs ([internal/hooks/auth_hooks.go]) *)

Module Hooks.

(** In milliseconds. *)
Definition DefaultTimeout : Z := 2000.

Record AuthHookError := mkAuthHookError {
  HTTPCode : Z;
  Message : string
}.

Definition AuthHookError_Error (a : AuthHookError) : string := Message a.

Record MFAVerificationAttemptInput := mkMFAInput {
  mf_UserID : string;
  mf_FactorID : string;
  mf_Valid : bool
}.

Record MFAVerificationAttemptOutput := mkMFAOutput {
  mf_Decision : string;
  mf_Message : string;
  mf_HookError : AuthHookError
}.

Record PasswordVerificationAttemptInput := mkPasswordInput {
  p_UserID : string;
  p_Valid : bool
}.

Record PasswordVerificationAttemptOutput := mkPasswordOutput {
  p_Decision : string;
  p_Message : string;
  p_ShouldLogoutUser : bool;
  p_HookError : AuthHookError
}.

(** The claim set is a JSON object; its values are kept as raw JSON text. *)
Definition ClaimSet := gmap string string.

Record CustomAccessTokenInput := mkCATInput {
  ca_UserID : string;
  ca_InputClaims : option ClaimSet
}.

Record CustomAccessTokenOutput := mkCATOutput {
  ca_Claims : ClaimSet;
  ca_HookError : AuthHookError
}.

(** The [HookOutput] interface. *)
Class HookOutput (T : Type) := {
  IsError : T -> bool;
  Error : T -> string
}.

(** [s != ""] *)
Definition nonempty (s : string) : bool :=
  match s with
  | EmptyString => false
  | String _ _ => true
  end.

#[global] Instance MFAVerificationAttemptOutput_HookOutput
  : HookOutput MFAVerificationAttemptOutput :=
  {| IsError := fun mf => nonempty (Message (mf_HookError mf));
     Error := fun mf => Message (mf_HookError mf) |}.

#[global] Instance PasswordVerificationAttemptOutput_HookOutput
  : HookOutput PasswordVerificationAttemptOutput :=
  {| IsError := fun p => nonempty (Message (p_HookError p));
     Error := fun p => Message (p_HookError p) |}.

#[global] Instance CustomAccessTokenOutput_HookOutput
  : HookOutput CustomAccessTokenOutput :=
  {| IsError := fun ca => nonempty (Message (ca_HookError ca));
     Error := fun ca => Message (ca_HookError ca) |}.

End Hooks.

(** ** [io.Reader], [io.LimitedReader] and [io.ReadAll] *)

Module IO.

(** The error a [Read] reports: [io.EOF] or a failure of the transport. *)
Inductive read_error :=
| EOF
| ReadFailed (e : Http.error).

(** A reader over a byte stream.  [pending] is what is still to be
    delivered and [at_end] what [Read] reports once nothing is left.  The
    contract of [io.Reader] lets an implementation report the end either
    together with the last bytes or on the next call ("a Reader returning a
    non-zero number of bytes at the end of the input stream may return
    either err == EOF or err == nil"); [end_with_data] says which.  The
    body of an HTTP/1 response with a Content-Length reports the end with
    the last bytes. *)
Record Reader := mkReader {
  pending : list Z;
  end_with_data : bool;
  at_end : read_error
}.

(** [r.Read(p)] with [len(p) = n]: the bytes stored in [p], the error and
    the reader afterwards. *)
Definition Read (r : Reader) (n : nat) : list Z * option read_error * Reader :=
  match n, pending r with
  | O, _ => ([], None, r)
  | _, [] => ([], Some (at_end r), r)
  | _, _ =>
      let r' := mkReader (skipn n (pending r)) (end_with_data r) (at_end r) in
      match skipn n (pending r) with
      | [] => (firstn n (pending r),
               if end_with_data r then Some (at_end r) else None, r')
      | _ => (firstn n (pending r), None, r')
      end
  end.

Record LimitedReader := mkLimitedReader {
  R : Reader;
  N : Z
}.

Definition LimitedReader_Read (l : LimitedReader) (n : nat)
  : list Z * option read_error * LimitedReader :=
  if N l <=? 0 then ([], Some EOF, l)
  else
    let n' := if N l <? Z.of_nat n then Z.to_nat (N l) else n in
    let '(chunk, err, r') := Read (R l) n' in
    (chunk, err, mkLimitedReader r' (N l - Z.of_nat (length chunk))).

(** Capacity of the buffer after [append(b, 0)] on a full buffer. *)
Definition grow (cap : nat) : nat := (cap + (cap + 768) / 4)%nat.

(** The loop of [io.ReadAll]; [b] is the buffer and [cap] its capacity.
    [None] when the fuel runs out. *)
Fixpoint ReadAll_loop (fuel : nat) (l : LimitedReader) (b : list Z) (cap : nat)
  : option (list Z * option Http.error * LimitedReader) :=
  match fuel with
  | O => None
  | S fuel' =>
      let '(chunk, err, l') := LimitedReader_Read l (cap - length b) in
      let b' := (b ++ chunk)%list in
      match err with
      | Some EOF => Some (b', None, l')
      | Some (ReadFailed e) => Some (b', Some e, l')
      | None =>
          ReadAll_loop fuel' l' b'
            (if Nat.eqb (length b') cap then grow cap else cap)
      end
  end.

(** Every iteration but the last one delivers at least one byte. *)
Definition ReadAll (l : LimitedReader)
  : option (list Z * option Http.error * LimitedReader) :=
  ReadAll_loop (S (S (length (pending (R l))))) l [] 512.

End IO.

(** ** The hook dispatcher ([internal/api/hooks.go]) *)

Module HookDispatch.

Import Http Hooks.

Definition DefaultHTTPHookTimeout : GoTime.Duration := 5 * GoTime.Second.
Definition DefaultHTTPHookRetries : Z := 3.
Definition HTTPHookBackoffDuration : GoTime.Duration := 2 * GoTime.Second.

(** *** HTTP variant *)

Record Response := mkResponse {
  StatusCode : Z;
  (** [rsp.Header.Get("retry-after")], empty when the header is absent *)
  RetryAfter : string;
  (** [rsp.Body], [None] for a nil body *)
  Body : option IO.Reader
}.

Definition limit : Z := 20 * 1024.

(** [readBodyWithLimit]: the body ([None] is a nil slice) and the error.
    The outer [option] is [None] only when [io.ReadAll] runs out of fuel. *)
Definition readBodyWithLimit (body : IO.Reader)
  : option (option (list Z) * option Http.error) :=
  match IO.ReadAll (IO.mkLimitedReader body limit) with
  | None => None
  | Some (_, Some err, _) => Some (None, Some err)
  | Some (b, None, limitedReader) =>
      if IO.N limitedReader <=? 0 then
        match IO.Read (IO.R limitedReader) 1 with
        | (_, None, _) => Some (None, Some (PlainError "payload too large"))
        | (_, Some _, _) => Some (Some b, None)
        end
      else Some (Some b, None)
  end.

(** What [client.Do] returns. *)
Inductive DoResult :=
| DoError (err : Http.error) (netTimeout : bool) (gotConn : bool)
| DoResponse (rsp : Response).

(** What the environment answers during one iteration of the retry loop. *)
Record Attempt := mkAttempt {
  (** [time.Since(start)] at the head of the iteration *)
  sinceStart : GoTime.Duration;
  (** [crypto.GenerateSignatures] *)
  signatures : Http.error + list string;
  (** the error of [http.NewRequest] *)
  newRequestErr : option Http.error;
  doResult : DoResult
}.

Inductive Event :=
| Posted (attempt : Z)
| Slept (d : GoTime.Duration).

Record HookRun := mkHookRun {
  hr_body : option (list Z);
  hr_err : option Http.error;
  hr_trace : list Event
}.

Inductive Step :=
| Continue (trace : list Event)
| Done (body : option (list Z)) (err : option Http.error) (trace : list Event)
| Stuck.

(** The body of the [for] loop of [runHTTPHook], at index [i]. *)
Definition attempt_step (i : Z) (a : Attempt) : Step :=
  if (i + 1) * DefaultHTTPHookTimeout <? sinceStart a then
    Done (Some []) (Some (gatewayTimeoutError ErrorHookTimeout
                            "failed to reach hook within timeout")) []
  else
    match signatures a with
    | inl err => Done None (Some err) []
    | inr _ =>
        match newRequestErr a with
        | Some err =>
            Done None (Some (WithInternalError
                               (internalServerError "Failed to make request object") err)) []
        | None =>
            match doResult a with
            | DoError err netTimeout gotConn =>
                if netTimeout then
                  Continue [Posted i; Slept HTTPHookBackoffDuration]
                else if negb gotConn && (i <? DefaultHTTPHookRetries - 1) then
                  Continue [Posted i; Slept HTTPHookBackoffDuration]
                else if i =? DefaultHTTPHookRetries - 1 then
                  Done None (Some (gatewayTimeoutError ErrorHookTimeout
                                     "Failed to reach hook within allotted interval"))
                       [Posted i]
                else
                  Done None (Some (WithInternalError
                     (internalServerError
                        "Failed to trigger auth hook, error making HTTP request") err))
                       [Posted i]
            | DoResponse rsp =>
                if (StatusCode rsp =? StatusOK) || (StatusCode rsp =? StatusNoContent)
                   || (StatusCode rsp =? StatusAccepted) then
                  match Body rsp with
                  | None => Done None None [Posted i]
                  | Some body =>
                      match readBodyWithLimit body with
                      | None => Stuck
                      | Some (_, Some err) => Done None (Some err) [Posted i]
                      | Some (b, None) => Done b None [Posted i]
                      end
                  end
                else if (StatusCode rsp =? StatusTooManyRequests)
                        || (StatusCode rsp =? StatusServiceUnavailable) then
                  if nonempty (RetryAfter rsp) then Continue [Posted i]
                  else Done (Some []) (Some (internalServerError
                                               "Service currently unavailable")) [Posted i]
                else if StatusCode rsp =? StatusBadRequest then
                  Done None (Some (badRequestErrorC ErrorCodeValidationFailed
                                     "Invalid payload sent to hook")) [Posted i]
                else if StatusCode rsp =? StatusUnauthorized then
                  Done (Some []) (Some (httpError StatusUnauthorized ErrorCodeNoAuthorization
                                          "Hook requires authorizaition token")) [Posted i]
                else
                  Done (Some []) (Some (internalServerError "Error executing Hook")) [Posted i]
            end
        end
    end.

(** [for i := 0; i < DefaultHTTPHookRetries; i++], with [remaining] the
    number of iterations still allowed. *)
Fixpoint retry_loop (remaining : nat) (i : Z) (env : Z -> Attempt)
    (trace : list Event) : option HookRun :=
  match remaining with
  | O => Some (mkHookRun None (Some (internalServerError "error executing hook")) trace)
  | S remaining' =>
      match attempt_step i (env i) with
      | Continue t => retry_loop remaining' (i + 1) env (trace ++ t)%list
      | Done body err t => Some (mkHookRun body err (trace ++ t)%list)
      | Stuck => None
      end
  end.

(** [runHTTPHook]; [inputPayload] is the result of [json.Marshal(input)]. *)
Definition runHTTPHook (inputPayload : Http.error + list Z) (env : Z -> Attempt)
  : option HookRun :=
  match inputPayload with
  | inl err => Some (mkHookRun None (Some err) [])
  | inr _ => retry_loop (Z.to_nat DefaultHTTPHookRetries) 0 env []
  end.

Definition posts (t : list Event) : list Z :=
  flat_map (fun e => match e with Posted i => [i] | Slept _ => [] end) t.

(** *** Postgres variant *)

(** A Go call either panics or returns. *)
Inductive outcome (A : Type) :=
| Panic (msg : string)
| Return (a : A).
Arguments Panic {A} msg.
Arguments Return {A} a.

(** What the database answers to the three statements of [invokeHookFunc],
    and to the commit of the transaction [runPostgresHook] opens itself
    when it is given none. *)
Record PgEnv := mkPgEnv {
  setTimeoutErr : option Http.error;
  selectResult : string -> list Z -> Http.error + list Z;
  resetTimeoutErr : option Http.error;
  commitErr : option Http.error
}.

Definition invokeHookFunc (env : PgEnv) (name : string) (request : list Z)
  : Http.error + list Z :=
  match setTimeoutErr env with
  | Some terr => inl terr
  | None =>
      match selectResult env name request with
      | inl terr => inl terr
      | inr response =>
          match resetTimeoutErr env with
          | Some terr => inl terr
          | None => inr response
          end
      end
  end.

(** [runPostgresHook]. [request] is the result of [json.Marshal(input)],
    [hasTx] says whether [tx] is non-nil, [unmarshal] is [json.Unmarshal]
    into the output and gives the error and the output afterwards. *)
Definition runPostgresHook {T : Type}
    (unmarshal : list Z -> T -> option Http.error * T)
    (env : PgEnv) (hasTx : bool) (name : string)
    (request : Http.error + list Z) (output : T)
  : outcome (option (list Z) * option Http.error * T) :=
  match request with
  | inl err => Panic (message_of err)
  | inr req =>
      let ran :=
        match invokeHookFunc env name req with
        | inl err => inl err
        | inr response =>
            if hasTx then inr response
            else match commitErr env with
                 | Some err => inl err
                 | None => inr response
                 end
        end in
      match ran with
      | inl err => Return (None, Some err, output)
      | inr response =>
          let '(err, output') := unmarshal response output in
          Return (Some response, err, output')
      end
  end.

(** The dynamic type of the [input] and [output] arguments. *)
Inductive HookInput :=
| InMFAVerificationAttempt (i : MFAVerificationAttemptInput)
| InPasswordVerificationAttempt (i : PasswordVerificationAttemptInput)
| InCustomAccessToken (i : CustomAccessTokenInput)
| InOther (typeName : string).

Inductive HookOutputRef :=
| OutMFAVerificationAttempt (o : MFAVerificationAttemptOutput)
| OutPasswordVerificationAttempt (o : PasswordVerificationAttemptOutput)
| OutCustomAccessToken (o : CustomAccessTokenOutput)
| OutOther (typeName : string).

(** [config.Hook.*.HookName] *)
Record HookConfig := mkHookConfig {
  MFAVerificationAttempt_HookName : string;
  PasswordVerificationAttempt_HookName : string;
  CustomAccessToken_HookName : string
}.

(** The JSON codec and the claim validator, which live outside the
    sources at hand. *)
Record Codec := mkCodec {
  marshal : HookInput -> Http.error + list Z;
  unmarshalMFA : list Z -> MFAVerificationAttemptOutput
                 -> option Http.error * MFAVerificationAttemptOutput;
  unmarshalPassword : list Z -> PasswordVerificationAttemptOutput
                      -> option Http.error * PasswordVerificationAttemptOutput;
  unmarshalCAT : list Z -> CustomAccessTokenOutput
                 -> option Http.error * CustomAccessTokenOutput;
  validateTokenClaims : ClaimSet -> option Http.error
}.

(** [httpCode := HookError.HTTPCode; if httpCode == 0 { httpCode = 500 }] *)
Definition httpCodeOf (h : AuthHookError) : Z :=
  if HTTPCode h =? 0 then StatusInternalServerError else HTTPCode h.

(** [(&HTTPError{HTTPStatus: httpCode, Message: HookError.Message})
    .WithInternalError(&HookError)] *)
Definition hookRejection (h : AuthHookError) : Http.error :=
  WithInternalError (HTTPError (httpCodeOf h) EmptyString (Message h) None)
                    (PlainError (AuthHookError_Error h)).

(** [invokePostgresHook]: the returned error and the output afterwards. *)
Definition invokePostgresHook (codec : Codec) (config : HookConfig) (env : PgEnv)
    (hasConn : bool) (input : HookInput) (output : HookOutputRef)
  : outcome (option Http.error * HookOutputRef) :=
  match input with
  | InMFAVerificationAttempt _ =>
      match output with
      | OutMFAVerificationAttempt hookOutput =>
          match runPostgresHook (unmarshalMFA codec) env hasConn
                  (MFAVerificationAttempt_HookName config) (marshal codec input)
                  hookOutput with
          | Panic msg => Panic msg
          | Return (_, Some err, out) =>
              Return (Some (WithInternalError
                              (internalServerError "Error invoking MFA verification hook.")
                              err),
                      OutMFAVerificationAttempt out)
          | Return (_, None, out) =>
              if IsError out
              then Return (Some (hookRejection (mf_HookError out)),
                           OutMFAVerificationAttempt out)
              else Return (None, OutMFAVerificationAttempt out)
          end
      | _ => Panic "output should be *hooks.MFAVerificationAttemptOutput"
      end
  | InPasswordVerificationAttempt _ =>
      match output with
      | OutPasswordVerificationAttempt hookOutput =>
          match runPostgresHook (unmarshalPassword codec) env hasConn
                  (PasswordVerificationAttempt_HookName config) (marshal codec input)
                  hookOutput with
          | Panic msg => Panic msg
          | Return (_, Some err, out) =>
              Return (Some (WithInternalError
                              (internalServerError
                                 "Error invoking password verification hook.") err),
                      OutPasswordVerificationAttempt out)
          | Return (_, None, out) =>
              if IsError out
              then Return (Some (hookRejection (p_HookError out)),
                           OutPasswordVerificationAttempt out)
              else Return (None, OutPasswordVerificationAttempt out)
          end
      | _ => Panic "output should be *hooks.PasswordVerificationAttemptOutput"
      end
  | InCustomAccessToken _ =>
      match output with
      | OutCustomAccessToken hookOutput =>
          match runPostgresHook (unmarshalCAT codec) env hasConn
                  (CustomAccessToken_HookName config) (marshal codec input)
                  hookOutput with
          | Panic msg => Panic msg
          | Return (_, Some err, out) =>
              Return (Some (WithInternalError
                              (internalServerError "Error invoking access token hook.")
                              err),
                      OutCustomAccessToken out)
          | Return (_, None, out) =>
              if IsError out
              then Return (Some (hookRejection (ca_HookError out)),
                           OutCustomAccessToken out)
              else
                match validateTokenClaims codec (ca_Claims out) with
                | Some err =>
                    Return (Some (HTTPError (httpCodeOf (ca_HookError out)) EmptyString
                                            (message_of err) None),
                            OutCustomAccessToken out)
                | None => Return (None, OutCustomAccessToken out)
                end
          end
      | _ => Panic "output should be *hooks.CustomAccessTokenOutput"
      end
  | InOther _ => Panic "unknown Postgres hook input type"
  end.

End HookDispatch.

(** ** The MFA endpoints ([api/mfa.go]) *)

Module MFA.

Import Http.

Definition UUID := string.

(** Modelled from the spec: the factor states of [models/factor.go]
    (status is one of unverified and verified). *)
Definition FactorVerifiedState : string := "verified".
Definition FactorUnverifiedState : string := "unverified".

Record Factor := mkFactor {
  f_ID : UUID;
  f_UserID : UUID;
  f_FriendlyName : string;
  f_FactorType : string;
  f_Status : string;
  f_TOTPSecret : string
}.

Record Challenge := mkChallenge {
  c_ID : UUID;
  c_FactorID : UUID;
  c_CreatedAt : GoTime.Time;
  (** nil until the challenge is verified *)
  c_VerifiedAt : option GoTime.Time
}.

Record AuditLogEntry := mkAuditLogEntry {
  al_Actor : UUID;
  al_Action : string;
  al_Traits : list (string * string)
}.

(** The tables the two endpoints touch. *)
Record DB := mkDB {
  challenges : gmap UUID Challenge;
  factors : gmap UUID Factor;
  sessions : gmap UUID SessionModel.Session;
  audit_log : list AuditLogEntry
}.

Record VerifyFactorParams := mkVerifyFactorParams {
  vp_ChallengeID : UUID;
  vp_Code : string
}.

Record UnenrollFactorParams := mkUnenrollFactorParams {
  up_Code : string
}.

(** What the environment answers during one request: the clock, the
    configuration, the TOTP check and the failures of the storage layer
    ([None]: the statement succeeds). *)
Record Env := mkEnv {
  now : GoTime.Time;
  (** [time.Duration(config.MFA.ChallengeExpiryDuration)] *)
  ChallengeExpiryDuration : Z;
  (** [totp.Validate(passcode, secret)] at the time of the request *)
  totpValidate : string -> string -> bool;
  findChallengeErr : option Http.error;
  destroyChallengeErr : option Http.error;
  auditLogErr : option Http.error;
  verifyChallengeErr : option Http.error;
  updateStatusErr : option Http.error;
  (** [a.issueRefreshToken]: the tables afterwards, or the error *)
  issueRefreshToken : DB -> UUID -> UUID -> Http.error + DB;
  setCookieTokensErr : option Http.error;
  invalidateSessionsErr : option Http.error;
  destroyFactorErr : option Http.error;
  sendJSONErr : option Http.error
}.

(** Two's-complement wrap-around of an [int64] result. *)
Definition int64 (x : Z) : Z := (x + 2 ^ 63) mod 2 ^ 64 - 2 ^ 63.

(** [time.Second * time.Duration(config.MFA.ChallengeExpiryDuration)] *)
Definition expiryDuration (env : Env) : GoTime.Duration :=
  int64 (GoTime.Second * ChallengeExpiryDuration env).

(** [a.db.Transaction(fn)]: the changes of [fn] are kept when it returns
    nil and dropped when it returns an error. *)
Definition Transaction (db : DB) (fn : DB -> DB * option Http.error)
  : DB * option Http.error :=
  match fn db with
  | (db', None) => (db', None)
  | (_, Some err) => (db, Some err)
  end.

(** Modelled from the spec: [models.FindChallengeByChallengeID], which is
    outside the sources at hand: a lookup by identifier that tells a miss
    (a not-found error) from a failure of the storage layer. *)
Definition FindChallengeByChallengeID (env : Env) (db : DB) (id : UUID)
  : Http.error + Challenge :=
  match findChallengeErr env with
  | Some err => inl err
  | None =>
      match challenges db !! id with
      | Some c => inr c
      | None => inl (NotFoundError "Challenge not found")
      end
  end.

(** [tx.Destroy(challenge)] *)
Definition DestroyChallenge (env : Env) (db : DB) (c : Challenge)
  : DB * option Http.error :=
  match destroyChallengeErr env with
  | Some terr => (db, Some terr)
  | None => (mkDB (delete (c_ID c) (challenges db)) (factors db) (sessions db)
                  (audit_log db), None)
  end.

(** Modelled from the spec: [models.NewAuditLogEntry] appends one entry to
    the audit log, in the transaction it is given. *)
Definition NewAuditLogEntry (env : Env) (db : DB) (actor : UUID) (action : string)
    (traits : list (string * string)) : DB * option Http.error :=
  match auditLogErr env with
  | Some err => (db, Some err)
  | None => (mkDB (challenges db) (factors db) (sessions db)
                  (audit_log db ++ [mkAuditLogEntry actor action traits])%list, None)
  end.

(** Modelled from the spec: [challenge.Verify(tx)] sets verified-at to the
    current time and stores the row. *)
Definition Challenge_Verify (env : Env) (db : DB) (c : Challenge)
  : DB * option Http.error :=
  match verifyChallengeErr env with
  | Some err => (db, Some err)
  | None =>
      (mkDB (<[c_ID c := mkChallenge (c_ID c) (c_FactorID c) (c_CreatedAt c)
                                      (Some (now env))]> (challenges db))
            (factors db) (sessions db) (audit_log db), None)
  end.

(** Modelled from the spec: [factor.UpdateStatus(tx, state)] sets the
    status and stores the row. *)
Definition Factor_UpdateStatus (env : Env) (db : DB) (f : Factor) (state : string)
  : DB * option Http.error :=
  match updateStatusErr env with
  | Some err => (db, Some err)
  | None =>
      (mkDB (challenges db)
            (<[f_ID f := mkFactor (f_ID f) (f_UserID f) (f_FriendlyName f)
                                  (f_FactorType f) state (f_TOTPSecret f)]> (factors db))
            (sessions db) (audit_log db), None)
  end.

(** [models.InvalidateSessionsWithAALLessThan(tx, user.ID, level)] *)
Definition InvalidateSessionsWithAALLessThan (env : Env) (db : DB) (userID : UUID)
    (level : string) : DB * option Http.error :=
  match invalidateSessionsErr env with
  | Some err => (db, Some err)
  | None =>
      (mkDB (challenges db) (factors db)
            (SessionModel.InvalidateSessionsWithAALLessThan (sessions db) userID level)
            (audit_log db), None)
  end.

(** [tx.Destroy(factor)]; the challenges of the factor go with it. *)
Definition DestroyFactor (env : Env) (db : DB) (f : Factor)
  : DB * option Http.error :=
  match destroyFactorErr env with
  | Some err => (db, Some err)
  | None =>
      (mkDB (filter (fun kv => c_FactorID (snd kv) ≠ f_ID f) (challenges db))
            (delete (f_ID f) (factors db)) (sessions db) (audit_log db), None)
  end.

(** Modelled from the spec: [models.InvalidateOtherFactorAssociatedSessions]
    deletes the sessions of the user that are tied to the factor, the
    acting session apart. *)
Definition InvalidateOtherFactorAssociatedSessions (env : Env) (db : DB)
    (currentSessionID userID factorID : UUID) : DB * option Http.error :=
  match invalidateSessionsErr env with
  | Some err => (db, Some err)
  | None =>
      (mkDB (challenges db) (factors db)
            (filter (fun kv => ¬ (SessionModel.UserID (snd kv) = userID
                                  ∧ SessionModel.FactorID (snd kv) = Some factorID
                                  ∧ fst kv ≠ currentSessionID)) (sessions db))
            (audit_log db), None)
  end.

Definition hasExpired (env : Env) (challenge : Challenge) : bool :=
  GoTime.After (now env) (GoTime.Add (c_CreatedAt challenge) (expiryDuration env)).

Definition expiredMessage (id : UUID) : string :=
  id ++ " has expired, please verify against another challenge or create a new challenge.".

(** The body of the last transaction of [VerifyFactor]. *)
Definition verifyTx (env : Env) (user : UUID) (factor : Factor)
    (challenge : Challenge) (tx : DB) : DB * option Http.error :=
  match NewAuditLogEntry env tx user "verify_factor"
          [("factor_id", f_ID factor); ("challenge_id", c_ID challenge)] with
  | (_, Some err) => (tx, Some err)
  | (tx1, None) =>
      match Challenge_Verify env tx1 challenge with
      | (_, Some err) => (tx1, Some err)
      | (tx2, None) =>
          let updated :=
            if negb (String.eqb (f_Status factor) FactorVerifiedState)
            then Factor_UpdateStatus env tx2 factor FactorVerifiedState
            else (tx2, None) in
          match updated with
          | (_, Some err) => (tx2, Some err)
          | (tx3, None) =>
              match issueRefreshToken env tx3 user (f_ID factor) with
              | inl terr => (tx3, Some terr)
              | inr tx4 =>
                  match setCookieTokensErr env with
                  | Some terr =>
                      (tx4, Some (internalServerError
                                    ("Failed to set JWT cookie. " ++ message_of terr)))
                  | None =>
                      match InvalidateSessionsWithAALLessThan env tx4 user "aal2" with
                      | (_, Some terr) =>
                          (tx4, Some (internalServerError
                                        ("Failed to update sessions. " ++ message_of terr)))
                      | (tx5, None) => (tx5, None)
                      end
                  end
              end
          end
      end
  end.

(** [VerifyFactor]: the tables after the request and the error returned
    ([None]: the response was sent with status 200).  [user] and [factor]
    come from the request context, [body] is the decoded request body or
    the error of the decoder. *)
Definition VerifyFactor (env : Env) (db : DB) (user : UUID) (factor : Factor)
    (body : Http.error + VerifyFactorParams) : DB * option Http.error :=
  match body with
  | inl err =>
      (db, Some (badRequestError
                   ("Please check the params passed into VerifyFactor: " ++ message_of err)))
  | inr params =>
      match FindChallengeByChallengeID env db (vp_ChallengeID params) with
      | inl err =>
          if IsNotFoundError err then (db, Some (notFoundError (message_of err)))
          else (db, Some (WithInternalError
                            (internalServerError "Database error finding Challenge") err))
      | inr challenge =>
          match c_VerifiedAt challenge with
          | Some _ => (db, Some (badRequestError "Challenge has already been verified"))
          | None =>
              if negb (totpValidate env (vp_Code params) (f_TOTPSecret factor)) then
                (db, Some (unauthorizedError "Invalid TOTP code entered"))
              else if hasExpired env challenge then
                match Transaction db (fun tx =>
                        match DestroyChallenge env tx challenge with
                        | (tx', Some terr) =>
                            (tx', Some (WithInternalError
                               (internalServerError "Database error deleting challenge")
                               terr))
                        | (tx', None) => (tx', None)
                        end) with
                | (db', Some err) => (db', Some err)
                | (db', None) =>
                    (db', Some (badRequestError (expiredMessage (c_ID challenge))))
                end
              else
                match Transaction db (verifyTx env user factor challenge) with
                | (db', Some err) => (db', Some err)
                | (db', None) => (db', sendJSONErr env)
                end
          end
      end
  end.

(** [UnenrollFactor]; [session] is the identifier of the acting session. *)
Definition UnenrollFactor (env : Env) (db : DB) (user : UUID) (factor : Factor)
    (session : UUID) (body : Http.error + UnenrollFactorParams)
  : DB * option Http.error :=
  match body with
  | inl err => (db, Some (badRequestError (message_of err)))
  | inr params =>
      let valid := totpValidate env (up_Code params) (f_TOTPSecret factor) in
      if String.eqb (f_Status factor) FactorVerifiedState && negb valid
      then (db, Some (unauthorizedError "Invalid code entered"))
      else
        match Transaction db (fun tx =>
                match DestroyFactor env tx factor with
                | (tx1, Some err) => (tx1, Some err)
                | (tx1, None) =>
                    match NewAuditLogEntry env tx1 user "unenroll_factor"
                            [("user_id", user); ("factor_id", f_ID factor);
                             ("session_id", session)] with
                    | (tx2, Some err) => (tx2, Some err)
                    | (tx2, None) =>
                        InvalidateOtherFactorAssociatedSessions env tx2 session user
                          (f_ID factor)
                    end
                end) with
        | (db', Some err) => (db', Some err)
        | (db', None) => (db', sendJSONErr env)
        end
  end.

End MFA.

(** ** The sessions table ([models/sessions.go]) *)

Module SessionStore.

Import SessionModel.

(** [uuid.Nil] *)
Definition uuid_Nil : UUID := "00000000-0000-0000-0000-000000000000".

(** The value of the constants [AAL1], [AAL2], [AAL3] ([iota]). *)
Definition level (aal : AuthenticatorAssuranceLevel) : Z :=
  match aal with
  | AAL1 => 0
  | AAL2 => 1
  | AAL3 => 2
  end.

(** [errors.Wrap(err, msg)]: a new error whose text is [msg: err]. *)
Definition Wrap (err : Http.error) (msg : string) : Http.error :=
  Http.PlainError (msg ++ ": " ++ Http.message_of err).

(** [NewSession]; [newID] is what [uuid.NewV4()] returns. *)
Definition NewSession (newID : Http.error + UUID) (user : UUID)
    (factorID : option UUID) : Http.error + Session :=
  match newID with
  | inl err => inl (Wrap err "Error generating unique session id")
  | inr id => inr (mkSession id user factorID [] (AAL_String AAL1))
  end.

(** [tx.Create(session)]: [err] is the failure of the storage layer, if
    any; a row with the same primary key is refused by the table. *)
Definition Create (err : option Http.error) (sessions : gmap UUID Session)
    (s : Session) : gmap UUID Session * option Http.error :=
  match err with
  | Some e => (sessions, Some e)
  | None =>
      match sessions !! ID s with
      | Some _ => (sessions, Some (Http.PlainError "duplicate key value violates unique constraint"))
      | None => (<[ID s := s]> sessions, None)
      end
  end.

(** [MFA_CreateSession] *)
Definition MFA_CreateSession (newID : Http.error + UUID) (err : option Http.error)
    (sessions : gmap UUID Session) (user : UUID) (factorID : option UUID)
  : gmap UUID Session * (Http.error + Session) :=
  match NewSession newID user factorID with
  | inl e => (sessions, inl e)
  | inr session =>
      match Create err sessions session with
      | (_, Some e) => (sessions, inl (Wrap e "error creating session"))
      | (sessions', None) => (sessions', inr session)
      end
  end.

(** [CreateSession]: the factor of the new session is [&uuid.Nil]. *)
Definition CreateSession (newID : Http.error + UUID) (err : option Http.error)
    (sessions : gmap UUID Session) (user : UUID)
  : gmap UUID Session * (Http.error + Session) :=
  MFA_CreateSession newID err sessions user (Some uuid_Nil).

(** Modelled from the spec: [SessionNotFoundError], the distinguished
    not-found error of the lookups of sessions. *)
Definition SessionNotFoundError : Http.error := Http.NotFoundError "Session not found".

(** [FindSessionById]; [err] is a failure of the query other than
    [sql.ErrNoRows]. *)
Definition FindSessionById (err : option Http.error) (sessions : gmap UUID Session)
    (id : UUID) : Http.error + Session :=
  match err with
  | Some e => inl (Wrap e "error finding session")
  | None =>
      match sessions !! id with
      | Some s => inr s
      | None => inl SessionNotFoundError
      end
  end.

(** [updateFactorAssociatedSessions]: [UPDATE sessions set aal = ?,
    factor_id = uuid.Nil WHERE user_id = ? AND factor_id = ?]. *)
Definition updateFactorAssociatedSessions (err : option Http.error)
    (sessions : gmap UUID Session) (userID factorID : UUID) (aal : string)
  : gmap UUID Session * option Http.error :=
  match err with
  | Some e => (sessions, Some e)
  | None =>
      (fmap (fun s => if decide (UserID s = userID /\ FactorID s = Some factorID)
                      then mkSession (ID s) (UserID s) (Some uuid_Nil) (AMRClaims s) aal
                      else s) sessions, None)
  end.

(** [Logout]: [DELETE FROM sessions WHERE user_id = ?]. *)
Definition Logout (err : option Http.error) (sessions : gmap UUID Session)
    (userId : UUID) : gmap UUID Session * option Http.error :=
  match err with
  | Some e => (sessions, Some e)
  | None => (filter (fun kv => UserID (snd kv) <> userId) sessions, None)
  end.

(** [LogoutSession]: [DELETE FROM sessions WHERE id = ?]. *)
Definition LogoutSession (err : option Http.error) (sessions : gmap UUID Session)
    (sessionId : UUID) : gmap UUID Session * option Http.error :=
  match err with
  | Some e => (sessions, Some e)
  | None => (filter (fun kv => ID (snd kv) <> sessionId) sessions, None)
  end.

(** [s.UpdateAssociatedFactorAndAAL]: the receiver afterwards, the table
    and the error.  The two fields of the receiver are set before the row
    is stored; [tx.Update] rewrites the columns of the row that has the
    identifier of the receiver, if there is one, and leaves the claims,
    which are rows of another table, alone. *)
Definition UpdateAssociatedFactorAndAAL (err : option Http.error)
    (sessions : gmap UUID Session) (s : Session) (factorID : option UUID)
    (aal : string) : Session * gmap UUID Session * option Http.error :=
  let s' := mkSession (ID s) (UserID s) factorID (AMRClaims s) aal in
  match err with
  | Some e => (s', sessions, Some e)
  | None =>
      (s', match sessions !! ID s with
           | Some row =>
               <[ID s := mkSession (ID s) (UserID s) factorID (AMRClaims row) aal]> sessions
           | None => sessions
           end, None)
  end.

(** The rows of the table are stored under their identifier. *)
Definition keyed (sessions : gmap UUID Session) : Prop :=
  forall k s, sessions !! k = Some s -> ID s = k.

End SessionStore.

(** ** Enrolling, challenging and deleting a factor ([api/mfa.go],
    [api/admin.go]) *)

Module MFAEnroll.

Import Http MFA.

(** Modelled from the spec: the factor type of [models/factor.go] (the
    only type is TOTP). *)
Definition TOTP : string := "totp".

(** Modelled from the spec: an audit entry records an actor, an action and
    metadata; the actions are constants of [models/audit_log_entry.go],
    outside the sources at hand, and each name here stands for the constant
    it is called after. *)
Definition EnrollFactorAction : string := "EnrollFactorAction".
Definition CreateChallengeAction : string := "CreateChallengeAction".
Definition DeleteFactorAction : string := "DeleteFactorAction".

Record EnrollFactorParams := mkEnrollFactorParams {
  ep_FriendlyName : string;
  ep_FactorType : string;
  ep_Issuer : string
}.

Record TOTPObject := mkTOTPObject {
  QRCode : string;
  Secret : string;
  URI : string
}.

Record EnrollFactorResponse := mkEnrollFactorResponse {
  er_ID : UUID;
  er_Type : string;
  er_TOTP : TOTPObject
}.

Record ChallengeFactorResponse := mkChallengeFactorResponse {
  cr_ID : UUID;
  cr_ExpiresAt : Z
}.

(** What the methods of an [otp.Key] return. *)
Record Key := mkKey {
  k_String : string;
  k_Secret : string;
  k_URL : string
}.

(** What the collaborators of the two endpoints answer during one request,
    besides the answers of [Env]. *)
Record EnrollEnv := mkEnrollEnv {
  base : Env;
  (** [url.Parse(config.SiteURL)], then [u.Host] *)
  siteURLHost : Http.error + string;
  findVerifiedFactorsErr : option Http.error;
  (** [user.GetEmail()] *)
  userEmail : string;
  (** [totp.Generate] for an issuer and an account name *)
  totpGenerate : string -> string -> Http.error + Key;
  (** the SVG document written for the text of the key, or the error of
      [WriteQrSVG] *)
  writeQrSVG : string -> Http.error + string;
  (** the identifier [models.NewFactor] draws *)
  newFactorID : Http.error + UUID;
  (** the identifier [models.NewChallenge] draws *)
  newChallengeID : Http.error + UUID;
  (** the failure of [tx.Create], if any *)
  createErr : option Http.error
}.

(** Modelled from the spec: [models.FindVerifiedFactorsByUser] returns the
    factors of the user whose status is verified. *)
Definition FindVerifiedFactorsByUser (env : EnrollEnv) (db : DB) (user : UUID)
  : Http.error + list Factor :=
  match findVerifiedFactorsErr env with
  | Some err => inl err
  | None =>
      inr (map snd (map_to_list
             (filter (fun kv => f_UserID (snd kv) = user
                                /\ f_Status (snd kv) = FactorVerifiedState)
                     (factors db))))
  end.

(** Modelled from the spec: [models.NewFactor] builds the factor of the
    user with a fresh identifier. *)
Definition NewFactor (env : EnrollEnv) (user : UUID)
    (friendlyName factorType state secret : string) : Http.error + Factor :=
  match newFactorID env with
  | inl err => inl err
  | inr id => inr (mkFactor id user friendlyName factorType state secret)
  end.

(** Modelled from the spec: [models.NewChallenge] builds a challenge for
    the factor with a fresh identifier; it is created at the current time
    and not verified. *)
Definition NewChallenge (env : EnrollEnv) (factor : Factor) : Http.error + Challenge :=
  match newChallengeID env with
  | inl err => inl err
  | inr id => inr (mkChallenge id (f_ID factor) (now (base env)) None)
  end.

Definition duplicateKey : Http.error :=
  PlainError "duplicate key value violates unique constraint".

(** [tx.Create(factor)]: a row with the same primary key is refused. *)
Definition CreateFactor (env : EnrollEnv) (db : DB) (f : Factor) : DB * option Http.error :=
  match createErr env with
  | Some err => (db, Some err)
  | None =>
      match factors db !! f_ID f with
      | Some _ => (db, Some duplicateKey)
      | None => (mkDB (challenges db) (<[f_ID f := f]> (factors db)) (sessions db)
                      (audit_log db), None)
      end
  end.

(** [tx.Create(challenge)] *)
Definition CreateChallenge (env : EnrollEnv) (db : DB) (c : Challenge)
  : DB * option Http.error :=
  match createErr env with
  | Some err => (db, Some err)
  | None =>
      match challenges db !! c_ID c with
      | Some _ => (db, Some duplicateKey)
      | None => (mkDB (<[c_ID c := c]> (challenges db)) (factors db) (sessions db)
                      (audit_log db), None)
      end
  end.

(** [EnrollFactor]: the tables after the request, and the error or the
    response sent.  [body] is the decoded request body or the error of the
    decoder. *)
Definition EnrollFactor (env : EnrollEnv) (db : DB) (user : UUID)
    (body : Http.error + EnrollFactorParams)
  : DB * (Http.error + EnrollFactorResponse) :=
  match body with
  | inl err => (db, inl (badRequestError (message_of err)))
  | inr params =>
      if negb (String.eqb (ep_FactorType params) TOTP) then
        (db, inl (unprocessableEntityError "factorType needs to be TOTP"))
      else
        let issuerOrErr :=
          if String.eqb (ep_Issuer params) EmptyString then
            match siteURLHost env with
            | inl _ => inl (internalServerError "site url is improperly formatted")
            | inr host => inr host
            end
          else inr (ep_Issuer params) in
        match issuerOrErr with
        | inl err => (db, inl err)
        | inr issuer =>
            match FindVerifiedFactorsByUser env db user with
            | inl _ =>
                (db, inl (internalServerError
                            "Error validating number of factors in system"))
            | inr factors =>
                if (1 <=? length factors)%nat then
                  (db, inl (forbiddenError
                     "Only one factor can be enrolled at a time, please unenroll to continue"))
                else
                  match totpGenerate env issuer (userEmail env) with
                  | inl err =>
                      (db, inl (WithInternalError
                                  (internalServerError "Error generating QR Code secret key")
                                  err))
                  | inr key =>
                      match writeQrSVG env (k_String key) with
                      | inl err =>
                          (db, inl (WithInternalError
                                      (internalServerError "Error writing to QR Code") err))
                      | inr buf =>
                          match NewFactor env user (ep_FriendlyName params)
                                  (ep_FactorType params) FactorUnverifiedState
                                  (k_Secret key) with
                          | inl _ =>
                              (* [WithInternalError(err)], with the nil [err] of
                                 the QR code *)
                              (db, inl (internalServerError "Database error creating factor"))
                          | inr factor =>
                              match Transaction db (fun tx =>
                                      match CreateFactor env tx factor with
                                      | (tx1, Some terr) => (tx1, Some terr)
                                      | (tx1, None) =>
                                          NewAuditLogEntry (base env) tx1 user
                                            EnrollFactorAction []
                                      end) with
                              | (db', Some terr) => (db', inl terr)
                              | (db', None) =>
                                  match sendJSONErr (base env) with
                                  | Some err => (db', inl err)
                                  | None =>
                                      (db', inr (mkEnrollFactorResponse (f_ID factor) TOTP
                                                   (mkTOTPObject buf (f_TOTPSecret factor)
                                                                 (k_URL key))))
                                  end
                              end
                          end
                      end
                  end
            end
        end
  end.

(** [ChallengeFactor] *)
Definition ChallengeFactor (env : EnrollEnv) (db : DB) (user : UUID) (factor : Factor)
  : DB * (Http.error + ChallengeFactorResponse) :=
  match NewChallenge env factor with
  | inl err =>
      (db, inl (WithInternalError
                  (internalServerError "Database error creating challenge") err))
  | inr challenge =>
      match Transaction db (fun tx =>
              match CreateChallenge env tx challenge with
              | (tx1, Some terr) => (tx1, Some terr)
              | (tx1, None) =>
                  NewAuditLogEntry (base env) tx1 user CreateChallengeAction
                    [("factor_id", f_ID factor); ("factor_status", f_Status factor)]
              end) with
      | (db', Some terr) => (db', inl terr)
      | (db', None) =>
          let creationTime := c_CreatedAt challenge in
          let expiryTime := GoTime.Add creationTime (expiryDuration (base env)) in
          match sendJSONErr (base env) with
          | Some err => (db', inl err)
          | None =>
              (db', inr (mkChallengeFactorResponse (c_ID challenge)
                                                   (GoTime.Unix expiryTime)))
          end
      end
  end.

(** [adminUserDeleteFactor] ([api/admin.go]) *)
Definition adminUserDeleteFactor (env : Env) (db : DB) (user : UUID) (factor : Factor)
  : DB * option Http.error :=
  match Transaction db (fun tx =>
          match NewAuditLogEntry env tx user DeleteFactorAction
                  [("user_id", user); ("factor_id", f_ID factor)] with
          | (tx1, Some terr) => (tx1, Some terr)
          | (tx1, None) =>
              match DestroyFactor env tx1 factor with
              | (tx2, Some terr) =>
                  (tx2, Some (WithInternalError
                                (internalServerError "Database error deleting factor") terr))
              | (tx2, None) => (tx2, None)
              end
          end) with
  | (db', Some err) => (db', Some err)
  | (db', None) => (db', sendJSONErr env)
  end.

End MFAEnroll.

(** ** Invoking an HTTP hook ([internal/api/hooks.go]) *)

Module HTTPHookInvoke.

Import Http Hooks HookDispatch.

(** The dynamic type of the [input] and [output] arguments of
    [invokeHTTPHook].  The structs [hooks.CustomSMSProviderInput] and
    [hooks.CustomSMSProviderOutput] are declared outside the sources at
    hand: the output struct is the parameter [T], and of the input only
    its JSON encoding is used. *)
Inductive HTTPHookInput :=
| InCustomSMSProvider
| InOtherHTTP (typeName : string).

Inductive HTTPHookOutputRef (T : Type) :=
| OutCustomSMSProvider (o : T)
| OutOtherHTTP (typeName : string).
Arguments OutCustomSMSProvider {T} o.
Arguments OutOtherHTTP {T} typeName.

(** [invokeHTTPHook]. [unmarshal] is [json.Unmarshal] into the output,
    [inputPayload] the result of [json.Marshal(input)] and [env] what the
    endpoint answers to [runHTTPHook]; the outer [option] is the one of
    [runHTTPHook]. *)
Definition invokeHTTPHook {T : Type}
    (unmarshal : list Z -> T -> option Http.error * T)
    (inputPayload : Http.error + list Z) (env : Z -> Attempt)
    (input : HTTPHookInput) (output : HTTPHookOutputRef T)
  : option (outcome (option Http.error * HTTPHookOutputRef T)) :=
  match input with
  | InCustomSMSProvider =>
      match output with
      | OutCustomSMSProvider hookOutput =>
          match runHTTPHook inputPayload env with
          | None => None
          | Some run =>
              match hr_err run with
              | Some err =>
                  Some (Return (Some (WithInternalError
                                        (internalServerError
                                           "Error invoking custom SMS provider hook.") err),
                                output))
              | None =>
                  let response := match hr_body run with
                                  | Some b => b
                                  | None => []
                                  end in
                  match unmarshal response hookOutput with
                  | (Some err, out) =>
                      Some (Return (Some (WithInternalError
                                            (internalServerError
                                               "Error unmarshaling custom SMS provider hook output.")
                                            err),
                                    OutCustomSMSProvider out))
                  | (None, out) => Some (Return (None, OutCustomSMSProvider out))
                  end
              end
          end
      | OutOtherHTTP _ => Some (Panic "output should be *hooks.CustomSMSProviderOutput")
      end
  | InOtherHTTP _ => Some (Panic "unknown HTTP hook type")
  end.

End HTTPHookInvoke.

(** ** Parsing the method and the flow type ([internal/models/flow_state.go]) *)

Module FlowStateParse.

Import FlowStateModel.

(** A byte below [utf8.RuneSelf]. *)
Definition is_ascii (c : ascii) : bool := (nat_of_ascii c <? 128)%nat.

Definition is_upper (c : ascii) : bool :=
  (65 <=? nat_of_ascii c)%nat && (nat_of_ascii c <=? 90)%nat.

(** [c += 'a' - 'A'] for an upper-case letter. *)
Definition lower_byte (c : ascii) : ascii :=
  if is_upper c then ascii_of_nat (nat_of_ascii c + 32) else c.

Fixpoint all_ascii (s : string) : bool :=
  match s with
  | EmptyString => true
  | String c rest => is_ascii c && all_ascii rest
  end.

Fixpoint map_bytes (f : ascii -> ascii) (s : string) : string :=
  match s with
  | EmptyString => EmptyString
  | String c rest => String (f c) (map_bytes f rest)
  end.

(** [strings.ToLower]: a string of ASCII bytes is mapped byte by byte; any
    other string goes through [strings.Map(unicode.ToLower, s)], which is
    the parameter [unicodeToLower] (the tables of package [unicode] are
    not written out). *)
Definition ToLower (unicodeToLower : string -> string) (s : string) : string :=
  if all_ascii s then map_bytes lower_byte s else unicodeToLower s.

(** [ParseCodeChallengeMethod]; the error stands for the pair (-1, err). *)
Definition ParseCodeChallengeMethod (unicodeToLower : string -> string)
    (authMethod : string) : Http.error + CodeChallengeMethodT :=
  let lowered := ToLower unicodeToLower authMethod in
  if String.eqb lowered "s256" then inr SHA256
  else if String.eqb lowered "plain" then inr Plain
  else inl (Http.PlainError "invalid code challenge method").

(** [ParseFlowType] *)
Definition ParseFlowType (unicodeToLower : string -> string)
    (flowType : string) : Http.error + FlowType :=
  let lowered := ToLower unicodeToLower flowType in
  if String.eqb lowered "pkce" then inr PKCEFlow
  else if String.eqb lowered "implicit" then inr ImplicitFlow
  else inl (Http.PlainError "invalid flow type").

End FlowStateParse.

(** ** Phone numbers ([api/phone.go]) *)

Module Phone.

Import Http.

Definition is_digit (c : ascii) : bool :=
  (48 <=? nat_of_ascii c)%nat && (nat_of_ascii c <=? 57)%nat.

Definition is_nonzero_digit (c : ascii) : bool :=
  (49 <=? nat_of_ascii c)%nat && (nat_of_ascii c <=? 57)%nat.

Fixpoint all_digits (s : string) : bool :=
  match s with
  | EmptyString => true
  | String c rest => is_digit c && all_digits rest
  end.

(** [validateE164Format]: a match of the whole string against
    [^[1-9][0-9]{1,14}$]. *)
Definition validateE164Format (phone : string) : bool :=
  match phone with
  | EmptyString => false
  | String c rest =>
      is_nonzero_digit c && all_digits rest
      && (1 <=? String.length rest)%nat && (String.length rest <=? 14)%nat
  end.

(** [strings.TrimPrefix(s, "+")] *)
Definition TrimPrefix_plus (s : string) : string :=
  match s with
  | String "+" rest => rest
  | _ => s
  end.

(** [strings.ReplaceAll(s, " ", "")] *)
Fixpoint remove_spaces (s : string) : string :=
  match s with
  | EmptyString => EmptyString
  | String " " rest => remove_spaces rest
  | String c rest => String c (remove_spaces rest)
  end.

(** [formatPhoneNumber] *)
Definition formatPhoneNumber (phone : string) : string :=
  remove_spaces (TrimPrefix_plus phone).

(** [validatePhone] *)
Definition validatePhone (phone : string) : Http.error + string :=
  let phone := formatPhoneNumber phone in
  if negb (validateE164Format phone)
  then inl (unprocessableEntityError "Invalid phone number format (E.164 required)")
  else inr phone.

End Phone.

(** ** The Twilio Verify provider ([api/sms_provider/twilio_verify.go]) *)

Module TwilioVerify.

Import Http HookDispatch.

Definition StatusCreated : Z := 201.

Definition verifyServiceApiBase : string := "https://verify.twilio.com/v2/Services/".

(** The fields of [conf.TwilioProviderConfiguration] the provider reads. *)
Record TwilioProviderConfiguration := mkTwilioConfig {
  AccountSid : string;
  MessageServiceSid : string;
  AuthToken : string;
  VerifyEnabled : bool
}.

Record TwilioVerifyProvider := mkTwilioVerifyProvider {
  Config : TwilioProviderConfiguration;
  APIPath : string
}.

Record VerificationCheckResponse := mkVerificationCheckResponse {
  To : string;
  Status : string;
  Channel : string;
  Valid : bool;
  ErrorCode : string;
  ErrorMessage : string
}.

(** A request, as far as the provider sets it. *)
Record Request := mkRequest {
  URL : string;
  Form : list (string * string);
  BasicAuth : string * string
}.

(** What [client.Do] returns: the response, a nil pointer or not, and the
    error.  The body of a response is the list of its bytes. *)
Record DoReturn := mkDoReturn {
  res : option (Z * list Z);
  err : option Http.error
}.

(** What the collaborators answer during one call; the constants
    [defaultTwilioApiBase], [apiVersion], [SMSProvider] and
    [WhatsappProvider] are declared in other files of the package. *)
Record Env := mkEnv {
  defaultTwilioApiBase : string;
  apiVersion : string;
  SMSProvider : string;
  WhatsappProvider : string;
  (** [config.Validate()] *)
  validate : TwilioProviderConfiguration -> option Http.error;
  (** the error of [http.NewRequest] *)
  newRequestErr : option Http.error;
  do : Request -> DoReturn;
  (** [json.NewDecoder(res.Body).Decode] into a [twilioErrResponse], which
      is an error value, and into a [VerificationCheckResponse] *)
  decodeErrResponse : list Z -> Http.error + Http.error;
  decodeCheckResponse : list Z -> Http.error + VerificationCheckResponse;
  (** [%q] of [fmt] *)
  quote : string -> string
}.

(** [NewTwilioVerifyProvider] *)
Definition NewTwilioVerifyProvider (env : Env) (config : TwilioProviderConfiguration)
  : Http.error + TwilioVerifyProvider :=
  match validate env config with
  | Some e => inl e
  | None =>
      let apiPath :=
        if VerifyEnabled config
        then verifyServiceApiBase ++ MessageServiceSid config ++ "/Verifications"
        else defaultTwilioApiBase env ++ "/" ++ apiVersion env ++ "/" ++ "Accounts" ++ "/"
             ++ AccountSid config ++ "/Messages.json" in
      inr (mkTwilioVerifyProvider config apiPath)
  end.

(** [res.Body], evaluated for the deferred [SafeClose] before the error of
    [client.Do] is looked at: a nil response makes it panic. *)
Definition nilDereference : string :=
  "runtime error: invalid memory address or nil pointer dereference".

(** [SendSms] *)
Definition SendSms (env : Env) (t : TwilioVerifyProvider) (phone message channel : string)
  : outcome (option Http.error) :=
  let body := [("To", phone); ("Channel", channel)] in
  match newRequestErr env with
  | Some e => Return (Some e)
  | None =>
      let r := mkRequest (APIPath t) body (AccountSid (Config t), AuthToken (Config t)) in
      match do env r with
      | mkDoReturn None _ => Panic nilDereference
      | mkDoReturn (Some _) (Some e) => Return (Some e)
      | mkDoReturn (Some (StatusCode, Body)) None =>
          if negb ((StatusCode =? StatusOK) || (StatusCode =? StatusCreated)) then
            match decodeErrResponse env Body with
            | inl e => Return (Some e)
            | inr resp => Return (Some resp)
            end
          else Return None
      end
  end.

(** [SendMessage] *)
Definition SendMessage (env : Env) (t : TwilioVerifyProvider)
    (phone message channel : string) : outcome (option Http.error) :=
  if String.eqb channel (SMSProvider env) || String.eqb channel (WhatsappProvider env)
  then SendSms env t phone message channel
  else Return (Some (PlainError ("channel type " ++ quote env channel
                                   ++ " is not supported for Twilio"))).

(** [VerifyOTP] *)
Definition VerifyOTP (env : Env) (t : TwilioVerifyProvider) (phone code : string)
  : outcome (option Http.error) :=
  if negb (VerifyEnabled (Config t)) then
    Return (Some (PlainError "twilio verify is not enabled"))
  else
    let verifyPath :=
      verifyServiceApiBase ++ MessageServiceSid (Config t) ++ "/VerificationCheck" in
    let body := [("To", phone); ("Code", code)] in
    match newRequestErr env with
    | Some e => Return (Some e)
    | None =>
        let r := mkRequest verifyPath body (AccountSid (Config t), AuthToken (Config t)) in
        match do env r with
        | mkDoReturn None _ => Panic nilDereference
        | mkDoReturn (Some _) (Some e) => Return (Some e)
        | mkDoReturn (Some (StatusCode, Body)) None =>
            if negb (StatusCode =? StatusOK) && negb (StatusCode =? StatusCreated) then
              match decodeErrResponse env Body with
              | inl e => Return (Some e)
              | inr resp => Return (Some resp)
              end
            else
              match decodeCheckResponse env Body with
              | inl derr => Return (Some derr)
              | inr resp =>
                  if negb (String.eqb (Status resp) "approved") || negb (Valid resp) then
                    Return (Some (PlainError ("twilio verification error: "
                                                ++ ErrorMessage resp ++ " " ++ Status resp)))
                  else Return None
              end
        end
    end.

End TwilioVerify.

(** * Terms of the statements, and sample data *)

Section CalculateAALTerms.

Import SessionModel.

Definition has_totp (claims : list AMRClaim) : bool :=
  existsb (fun c => String.eqb (AuthenticationMethod c) TOTPSignIn_String) claims.

End CalculateAALTerms.

Section FlowStateExpiryTerms.

Import FlowStateModel.

Definition flow_created_at (t : GoTime.Time) : FlowState :=
  NewFlowState "flow-1" "code-1" "github" "challenge" SHA256 "pkce" t.

End FlowStateExpiryTerms.

Section MFATerms.

Import Http MFA.

(** Sample data: one verified factor of one user, with one challenge
    created at time 0, a configured expiry of 300 seconds, and a TOTP
    check that accepts the code 123456 only. *)
Definition sample_factor : Factor :=
  mkFactor "factor-1" "user-1" "phone" "totp" FactorVerifiedState "JBSWY3DPEHPK3PXP".

Definition sample_challenge (verifiedAt : option GoTime.Time) : Challenge :=
  mkChallenge "challenge-1" "factor-1" 0 verifiedAt.

Definition sample_session (id : string) (factor : option string) (aal : string)
  : SessionModel.Session :=
  SessionModel.mkSession id "user-1" factor [] aal.

Definition sample_db (verifiedAt : option GoTime.Time) : DB :=
  mkDB {[ "challenge-1" := sample_challenge verifiedAt ]}
       {[ "factor-1" := sample_factor ]}
       {[ "session-1" := sample_session "session-1" (Some "factor-1") "aal2";
          "session-2" := sample_session "session-2" (Some "factor-1") "aal2" ]}
       [].

Definition sample_env (now : GoTime.Time) : Env :=
  {| now := now;
     ChallengeExpiryDuration := 300;
     totpValidate := fun code _ => String.eqb code "123456";
     findChallengeErr := None;
     destroyChallengeErr := None;
     auditLogErr := None;
     verifyChallengeErr := None;
     updateStatusErr := None;
     issueRefreshToken := fun db _ _ => inr db;
     setCookieTokensErr := None;
     invalidateSessionsErr := None;
     destroyFactorErr := None;
     sendJSONErr := None |}.

Definition verify_request (code : string) : Http.error + VerifyFactorParams :=
  inr (mkVerifyFactorParams "challenge-1" code).

End MFATerms.

Section MFAExpiryTerms.

Import Http MFA.

(** The tables after the challenge row is gone. *)
Definition without_challenge (db : DB) (id : UUID) : DB :=
  mkDB (delete id (challenges db)) (factors db) (sessions db) (audit_log db).

End MFAExpiryTerms.

Section PostgresHooksTerms.

Import Http Hooks HookDispatch.

(** The structured error object an output carries, and its [IsError]. *)
Definition HookErrorOf (o : HookOutputRef) : option AuthHookError :=
  match o with
  | OutMFAVerificationAttempt out => Some (mf_HookError out)
  | OutPasswordVerificationAttempt out => Some (p_HookError out)
  | OutCustomAccessToken out => Some (ca_HookError out)
  | OutOther _ => None
  end.

Definition IsErrorOf (o : HookOutputRef) : bool :=
  match o with
  | OutMFAVerificationAttempt out => IsError out
  | OutPasswordVerificationAttempt out => IsError out
  | OutCustomAccessToken out => IsError out
  | OutOther _ => false
  end.

Definition rewrap {T : Type} (wrap : T -> HookOutputRef)
    (r : outcome (option (list Z) * option Http.error * T))
  : outcome (option (list Z) * option Http.error * HookOutputRef) :=
  match r with
  | Panic msg => Panic msg
  | Return (response, err, out) => Return (response, err, wrap out)
  end.

(** The call of [runPostgresHook] that [invokePostgresHook] makes for an
    input and an output of matching types. *)
Definition hookCall (codec : Codec) (config : HookConfig) (env : PgEnv)
    (hasConn : bool) (input : HookInput) (output : HookOutputRef)
  : option (outcome (option (list Z) * option Http.error * HookOutputRef)) :=
  match input, output with
  | InMFAVerificationAttempt _, OutMFAVerificationAttempt o =>
      Some (rewrap OutMFAVerificationAttempt
              (runPostgresHook (unmarshalMFA codec) env hasConn
                 (MFAVerificationAttempt_HookName config) (marshal codec input) o))
  | InPasswordVerificationAttempt _, OutPasswordVerificationAttempt o =>
      Some (rewrap OutPasswordVerificationAttempt
              (runPostgresHook (unmarshalPassword codec) env hasConn
                 (PasswordVerificationAttempt_HookName config) (marshal codec input) o))
  | InCustomAccessToken _, OutCustomAccessToken o =>
      Some (rewrap OutCustomAccessToken
              (runPostgresHook (unmarshalCAT codec) env hasConn
                 (CustomAccessToken_HookName config) (marshal codec input) o))
  | _, _ => None
  end.

(** Sample hooks: the procedure's value is decoded by a codec that reads
    the first byte as the HTTP code and takes the message from the rest. *)
Definition sample_error (response : list Z) : AuthHookError :=
  match response with
  | [] => mkAuthHookError 0 EmptyString
  | code :: msg => mkAuthHookError code (Bytes.to_string msg)
  end.

Definition sample_codec : Codec :=
  {| marshal := fun _ => inr [];
     unmarshalMFA := fun r o =>
       (None, mkMFAOutput (mf_Decision o) (mf_Message o) (sample_error r));
     unmarshalPassword := fun r o =>
       (None, mkPasswordOutput (p_Decision o) (p_Message o) (p_ShouldLogoutUser o)
                               (sample_error r));
     unmarshalCAT := fun r o => (None, mkCATOutput (ca_Claims o) (sample_error r));
     validateTokenClaims := fun _ => None |}.

Definition sample_config : HookConfig :=
  mkHookConfig "hook_mfa_verification_attempt" "hook_password_verification_attempt"
               "hook_custom_access_token".

Definition sample_pg (response : list Z) : PgEnv :=
  mkPgEnv None (fun _ _ => inr response) None None.

Definition sample_mfa_input : HookInput :=
  InMFAVerificationAttempt (mkMFAInput "user-1" "factor-1" true).

Definition sample_mfa_output (h : AuthHookError) : HookOutputRef :=
  OutMFAVerificationAttempt (mkMFAOutput EmptyString EmptyString h).

End PostgresHooksTerms.

Section HTTPHooksTerms.

Import Http Hooks HookDispatch.

(** The endpoint is reached and answers 429 or 503 with a retry-after
    header (signing and building the request succeed). *)
Definition retryable (a : Attempt) : Prop :=
  exists sigs rsp,
    signatures a = inr sigs /\ newRequestErr a = None /\ doResult a = DoResponse rsp
    /\ (StatusCode rsp = StatusTooManyRequests \/ StatusCode rsp = StatusServiceUnavailable)
    /\ RetryAfter rsp <> EmptyString.

Definition guardFires (i : Z) (a : Attempt) : bool :=
  (i + 1) * DefaultHTTPHookTimeout <? sinceStart a.

Definition timedOut : Step :=
  Done (Some []) (Some (gatewayTimeoutError ErrorHookTimeout
                          "failed to reach hook within timeout")) [].

(** The endpoint of the scenario: it answers 503 with [retry-after: 1] on
    every attempt, one second apart. *)
Definition unavailable (i : Z) : Attempt :=
  mkAttempt (i * GoTime.Second) (inr ["v1,c2lnbmF0dXJl"]) None
            (DoResponse (mkResponse StatusServiceUnavailable "1" None)).

End HTTPHooksTerms.

Section ReadersTerms.

Import Http IO.
Import HookDispatch.

Definition err_of (e : read_error) : option Http.error :=
  match e with
  | EOF => None
  | ReadFailed err => Some err
  end.

(** The error of a [Read] of at least one byte. *)
Definition read_err (d : list Z) (eager : bool) (fin : read_error) (n : nat)
  : option read_error :=
  match d with
  | [] => Some fin
  | _ => if (length d <=? n)%nat && eager then Some fin else None
  end.

Definition expected_err (d : list Z) (eager : bool) (fin : read_error) (n : Z)
  : option Http.error :=
  if n <=? 0 then None
  else if (length d <? Z.to_nat n)%nat
          || ((length d =? Z.to_nat n)%nat && eager)
       then err_of fin else None.

Definition expected_reader (d : list Z) (eager : bool) (fin : read_error) (n : Z)
  : LimitedReader :=
  mkLimitedReader (mkReader (skipn (Z.to_nat n) d) eager fin)
                  (n - Z.of_nat (Nat.min (Z.to_nat n) (length d))).

Definition tooLarge : option (list Z) * option Http.error :=
  (None, Some (PlainError "payload too large")).

(** What the reader's end gives when it is reached below the limit. *)
Definition atEnd (d : list Z) (fin : read_error)
  : option (list Z) * option Http.error :=
  match fin with
  | EOF => (Some d, None)
  | ReadFailed err => (None, Some err)
  end.

(** A body of 20481 bytes [a], delivered with the end of the stream. *)
Definition body_limit_plus_one : Reader :=
  mkReader (repeat 97 (Z.to_nat (limit + 1))) true EOF.

End ReadersTerms.

Section PKCETerms.

Import Http FlowStateModel.

Definition is_sextet (s : Z) : Prop := 0 <= s < 64.

Definition byte_values : list Z := seqZ 0 256.

Definition challenge_of (V : string) : string :=
  Base64.RawURLEncoding_EncodeToString (Sha256.Sum256 (Bytes.of_string V)).

Definition mismatch : option Http.error := Some (PlainError InvalidCodeChallengeError).

Definition s256_flow (challenge : string) : FlowState :=
  NewFlowState "flow-1" "auth-code-1" "github" challenge SHA256 "pkce" 0.

(** The verifier and the challenge of RFC 7636, appendix B. *)
Definition rfc7636_verifier : string := "dBjftJeZ4CVP-mB92K27uhbUJU1p1r_wW1gFWFOEjXk".

Definition rfc7636_challenge : string := "E9Melhoa2OwvFrEMTJguCHaoeK1t8URWbuGJSstw-cM".

End PKCETerms.

Section SessionStoreTerms.

Import SessionModel SessionStore.

Definition two_users : gmap UUID Session :=
  {[ "s1" := mkSession "s1" "alice" (Some uuid_Nil) [] "aal1";
     "s2" := mkSession "s2" "alice" (Some "f1") [] "aal2";
     "s3" := mkSession "s3" "bob" (Some uuid_Nil) [] "aal1" ]}.

End SessionStoreTerms.

Section MFAEffectsTerms.

Import Http MFA.

(** The storage layer and the response writer do not fail, and issuing the
    refresh token succeeds and leaves challenges and factors alone. *)
Definition faultless (env : Env) : Prop :=
  findChallengeErr env = None /\ destroyChallengeErr env = None
  /\ auditLogErr env = None /\ verifyChallengeErr env = None
  /\ updateStatusErr env = None /\ setCookieTokensErr env = None
  /\ invalidateSessionsErr env = None /\ destroyFactorErr env = None
  /\ sendJSONErr env = None
  /\ forall d u f, exists d', issueRefreshToken env d u f = inr d'
                              /\ challenges d' = challenges d
                              /\ factors d' = factors d.

Definition verified (f : Factor) : Factor :=
  mkFactor (f_ID f) (f_UserID f) (f_FriendlyName f) (f_FactorType f)
           FactorVerifiedState (f_TOTPSecret f).

Definition stamped (c : Challenge) (t : GoTime.Time) : Challenge :=
  mkChallenge (c_ID c) (c_FactorID c) (c_CreatedAt c) (Some t).

(** An unverified factor of the sample user, and a challenge created for
    another factor than the sample one. *)
Definition unverified_factor : Factor :=
  mkFactor "factor-1" "user-1" "phone" "totp" FactorUnverifiedState "JBSWY3DPEHPK3PXP".

Definition foreign_db : DB :=
  mkDB {[ "challenge-9" := mkChallenge "challenge-9" "factor-2" 0 None ]}
       {[ "factor-1" := unverified_factor ]}
       {[ "session-1" := sample_session "session-1" None "aal1";
          "session-2" := sample_session "session-2" (Some "factor-1") "aal2" ]}
       [].

(** The sample user holds a verified factor and a second factor that is
    not verified, with a challenge for the second one. *)
Definition second_factor : Factor :=
  mkFactor "factor-2" "user-1" "key" "totp" FactorUnverifiedState "GEZDGNBVGY3TQOJQ".

Definition two_factor_db : DB :=
  mkDB {[ "challenge-2" := mkChallenge "challenge-2" "factor-2" 0 None ]}
       {[ "factor-1" := sample_factor; "factor-2" := second_factor ]}
       {[ "session-1" := sample_session "session-1" (Some "factor-1") "aal2" ]}
       [].

Definition verify_foreign : Http.error + VerifyFactorParams :=
  inr (mkVerifyFactorParams "challenge-9" "123456").

(** A storage layer whose audit log cannot be written. *)
Definition audit_down (now : GoTime.Time) : Env :=
  {| now := now;
     ChallengeExpiryDuration := 300;
     totpValidate := fun code _ => String.eqb code "123456";
     findChallengeErr := None;
     destroyChallengeErr := None;
     auditLogErr := Some (PlainError "audit log is read-only");
     verifyChallengeErr := None;
     updateStatusErr := None;
     issueRefreshToken := fun db _ _ => inr db;
     setCookieTokensErr := None;
     invalidateSessionsErr := None;
     destroyFactorErr := None;
     sendJSONErr := None |}.

End MFAEffectsTerms.

Section MFAEnrollTerms.

Import Http MFA MFAEnroll.

(** Collaborators that do not fail: the key generator derives the secret
    from the account name, the two identifiers drawn are [factor-7] and
    [challenge-7]. *)
Definition sample_enroll_env (now : GoTime.Time) : EnrollEnv :=
  {| base := sample_env now;
     siteURLHost := inr "example.com";
     findVerifiedFactorsErr := None;
     userEmail := "user@example.com";
     totpGenerate := fun issuer account =>
       inr (mkKey ("otpauth://totp/" ++ issuer ++ ":" ++ account)
                  ("SECRET-" ++ account)
                  ("otpauth://totp/" ++ issuer ++ ":" ++ account));
     writeQrSVG := fun text => inr ("<svg>" ++ text ++ "</svg>");
     newFactorID := inr "factor-7";
     newChallengeID := inr "challenge-7";
     createErr := None |}.

Definition enroll_request : Http.error + EnrollFactorParams :=
  inr (mkEnrollFactorParams "phone" "totp" "issuer").

(** The user has a verified factor in the table. *)
Definition has_verified_factor (db : DB) (user : UUID) : Prop :=
  exists k f, factors db !! k = Some f /\ f_UserID f = user
              /\ f_Status f = FactorVerifiedState.

End MFAEnrollTerms.

Section HTTPHookRunTerms.

Import Http Hooks HookDispatch.

Definition sleeps (t : list Event) : list GoTime.Duration :=
  flat_map (fun e => match e with Posted _ => [] | Slept d => [d] end) t.

(** The statuses [runHTTPHook] takes for a success. *)
Definition is_success_status (st : Z) : Prop :=
  st = StatusOK \/ st = StatusNoContent \/ st = StatusAccepted.

(** The request of an attempt is signed, built and sent. *)
Definition sent (a : Attempt) (r : DoResult) : Prop :=
  (exists sigs, signatures a = inr sigs) /\ newRequestErr a = None /\ doResult a = r.

(** The trace one iteration of the loop can leave. *)
Definition step_shape (i : Z) (s : Step) : Prop :=
  match s with
  | Continue t => t = [Posted i] \/ t = [Posted i; Slept HTTPHookBackoffDuration]
  | Done _ _ t => t = [] \/ t = [Posted i]
  | Stuck => False
  end.

(** An endpoint that cannot be connected to, tried every 2 seconds. *)
Definition unreachable (i : Z) : Attempt :=
  mkAttempt (i * HTTPHookBackoffDuration) (inr ["v1,c2lnbmF0dXJl"]) None
            (DoError (PlainError "dial tcp: connection refused") false false).

(** An endpoint that lets every request time out: an attempt takes the 5
    seconds of the client and the 2 seconds of the pause. *)
Definition hanging (i : Z) : Attempt :=
  mkAttempt (i * (DefaultHTTPHookTimeout + HTTPHookBackoffDuration))
            (inr ["v1,c2lnbmF0dXJl"]) None
            (DoError (PlainError "context deadline exceeded") true true).

(** An endpoint that answers with the status given, without a body. *)
Definition answering (st : Z) (i : Z) : Attempt :=
  mkAttempt (i * GoTime.Second) (inr ["v1,c2lnbmF0dXJl"]) None
            (DoResponse (mkResponse st EmptyString None)).

(** A decoder that takes the output from the first byte and refuses the
    empty input, as [json.Unmarshal] does. *)
Definition first_byte_decoder (response : list Z) (o : Z) : option Http.error * Z :=
  match response with
  | [] => (Some (PlainError "unexpected end of JSON input"), o)
  | b :: _ => (None, b)
  end.

End HTTPHookRunTerms.

Section PostgresRunTerms.

Import Http Hooks HookDispatch.

(** The name of the procedure [invokePostgresHook] calls for an input. *)
Definition hookNameOf (config : HookConfig) (input : HookInput) : option string :=
  match input with
  | InMFAVerificationAttempt _ => Some (MFAVerificationAttempt_HookName config)
  | InPasswordVerificationAttempt _ => Some (PasswordVerificationAttempt_HookName config)
  | InCustomAccessToken _ => Some (CustomAccessToken_HookName config)
  | InOther _ => None
  end.

(** The three statements, and the commit when [runPostgresHook] opened the
    transaction itself, succeed, and the procedure returns [response]. *)
Definition procedureRan (env : PgEnv) (hasTx : bool) (name : string)
    (request response : list Z) : Prop :=
  setTimeoutErr env = None
  /\ selectResult env name request = inr response
  /\ resetTimeoutErr env = None
  /\ (hasTx = false -> commitErr env = None).

(** The output is of the type [invokePostgresHook] expects for the input. *)
Definition matching (input : HookInput) (output : HookOutputRef) : bool :=
  match input, output with
  | InMFAVerificationAttempt _, OutMFAVerificationAttempt _ => true
  | InPasswordVerificationAttempt _, OutPasswordVerificationAttempt _ => true
  | InCustomAccessToken _, OutCustomAccessToken _ => true
  | _, _ => false
  end.

(** The error wrapped by [WithInternalError]. *)
Definition cause_of (e : Http.error) : option Http.error :=
  match e with
  | HTTPError _ _ _ cause => cause
  | PlainError _ | NotFoundError _ => None
  end.

(** A database whose statement timeout cannot be reset. *)
Definition reset_fails (response : list Z) : PgEnv :=
  mkPgEnv None (fun _ _ => inr response) (Some (PlainError "connection lost")) None.

End PostgresRunTerms.

Section FlowStateParseTerms.

Import Http FlowStateModel FlowStateParse.

Definition unsupported : option Http.error := Some (PlainError InvalidCodeMethodError).

(** A flow state that stores the method as the client spelled it. *)
Definition flow_with_method (method : string) : FlowState :=
  mkFlowState "flow-1" None "auth-code-1" "pkce" "challenge" method "github"
              EmptyString EmptyString 0 0.

End FlowStateParseTerms.

Section TwilioVerifyTerms.

Import Http HookDispatch TwilioVerify.

Definition sample_twilio_config : TwilioProviderConfiguration :=
  mkTwilioConfig "AC123" "VA456" "token" true.

Definition sample_twilio : TwilioVerifyProvider :=
  mkTwilioVerifyProvider sample_twilio_config
    "https://verify.twilio.com/v2/Services/VA456/Verifications".

(** The service answers every request with [answer]; a body that starts
    with the byte 1 decodes to an approved, valid check. *)
Definition sample_twilio_env (answer : DoReturn) : Env :=
  {| defaultTwilioApiBase := "https://api.twilio.com";
     apiVersion := "2010-04-01";
     SMSProvider := "sms";
     WhatsappProvider := "whatsapp";
     validate := fun _ => None;
     newRequestErr := None;
     do := fun _ => answer;
     decodeErrResponse := fun _ => inr (PlainError "twilio error");
     decodeCheckResponse := fun body =>
       match body with
       | 1 :: _ => inr (mkVerificationCheckResponse "+4915112345678" "approved" "sms" true
                                                    EmptyString EmptyString)
       | _ => inr (mkVerificationCheckResponse "+4915112345678" "pending" "sms" false
                                               EmptyString EmptyString)
       end;
     quote := fun s => s |}.

End TwilioVerifyTerms.

(** The guard fired at attempt [k]: the run ends there with a gateway
    timeout. *)
Ltac fired G k :=
  unfold timedOut; eexists _, _;
  split; [reflexivity|]; split; [reflexivity|]; split; [cbn; lia|]; split;
  [ intros Hall; rewrite (Hall k) in G by (unfold HookDispatch.DefaultHTTPHookRetries; lia);
    discriminate
  | intros _; reflexivity ].

Ltac bytes_of H :=
  repeat match type of H with
         | Forall _ (_ :: _) =>
             let Hb := fresh "Hb" in
             let H' := fresh "H" in
             inversion_clear H as [|? ? Hb H']; rename H' into H
         end.

Ltac divmod := Z.div_mod_to_equations; lia.

(** * Properties *)

(** ** Time *)

Lemma After_spec (t u : GoTime.Time) : GoTime.After t u = true <-> u < t.
Proof. unfold GoTime.After. apply Z.ltb_lt. Qed.

Lemma After_false (t u : GoTime.Time) : GoTime.After t u = false <-> t <= u.
Proof. unfold GoTime.After. apply Z.ltb_ge. Qed.

(** ** Sessions *)

Section CalculateAAL.

Import SessionModel.

Lemma has_totp_Exists claims : has_totp claims = true <-> Exists is_totp claims.
Proof.
  unfold has_totp, is_totp. rewrite existsb_exists, Exists_exists.
  split; intros [c [Hin Hc]]; exists c; split; auto;
    [apply list_elem_of_In | apply String.eqb_eq | apply list_elem_of_In | apply String.eqb_eq];
    assumption.
Qed.

(** The loop, run from any intermediate state. *)
Lemma aal_amr_fold claims aal amr :
  fold_left aal_amr_step claims (aal, amr)
  = (if has_totp claims then AAL_String AAL2 else aal,
     (amr ++ map entry_of claims)%list).
Proof.
  revert aal amr. induction claims as [|c claims IH]; intros aal amr.
  - cbn. now rewrite app_nil_r.
  - cbn [fold_left]. unfold aal_amr_step at 2. cbn [fst snd].
    rewrite IH. unfold has_totp. cbn [existsb map].
    fold (entry_of c). rewrite <- app_assoc. cbn [app].
    destruct (String.eqb (AuthenticationMethod c) TOTPSignIn_String); cbn [orb].
    + now destruct (existsb _ claims).
    + reflexivity.
Qed.

(** C4. [CalculateAALAndAMR] returns aal2 exactly when the AMR claims of
    the session contain a TOTP entry and aal1 exactly when they contain
    none; the AMR list it returns has one entry per claim, in the order of
    the claims, carrying the method and the Unix time of the claim. *)
Theorem CalculateAALAndAMR_aal2_iff_totp (s : Session) :
  (fst (CalculateAALAndAMR s) = AAL_String AAL2 <-> Exists is_totp (AMRClaims s))
  /\ (fst (CalculateAALAndAMR s) = AAL_String AAL1 <-> ~ Exists is_totp (AMRClaims s))
  /\ snd (CalculateAALAndAMR s) = map entry_of (AMRClaims s)
  /\ length (snd (CalculateAALAndAMR s)) = length (AMRClaims s).
Proof.
  unfold CalculateAALAndAMR. rewrite aal_amr_fold. cbn [fst snd app].
  rewrite <- has_totp_Exists.
  destruct (has_totp (AMRClaims s)); cbn;
    repeat split; try congruence; try discriminate;
    apply length_map.
Qed.

End CalculateAAL.

(** ** Flow states: expiry *)

Section FlowStateExpiry.

Import FlowStateModel.

(** What [IsExpired] computes: the flow state was created later than
    [expiryDuration] after the current time. *)
Lemma IsExpired_spec (f : FlowState) (now : GoTime.Time) (d : GoTime.Duration) :
  IsExpired f now d = true <-> now + d < CreatedAt f.
Proof. unfold IsExpired, GoTime.Add. apply After_spec. Qed.

(** A flow state that was not created in the future never expires,
    whatever the (non-negative) time to live. *)
Lemma IsExpired_never_for_past_flow (f : FlowState) (now : GoTime.Time)
    (d : GoTime.Duration) :
  CreatedAt f <= now -> 0 <= d -> IsExpired f now d = false.
Proof.
  intros Hpast Hd. unfold IsExpired, GoTime.Add. apply After_false. lia.
Qed.

(** C2. A flow state created at time 0 with a time to live of 10 seconds
    is, 100 seconds later, not reported as expired, although
    [created_at + ttl] has passed; and one created an hour in the future
    is reported as expired. *)
Theorem IsExpired_inverted :
  IsExpired (flow_created_at 0) (100 * GoTime.Second) (10 * GoTime.Second) = false
  /\ GoTime.Add (CreatedAt (flow_created_at 0)) (10 * GoTime.Second) < 100 * GoTime.Second
  /\ IsExpired (flow_created_at (3700 * GoTime.Second)) (100 * GoTime.Second)
               (10 * GoTime.Second) = true.
Proof.
  split; [|split].
  - apply After_false. unfold flow_created_at, NewFlowState, GoTime.Add, GoTime.Second.
    cbn [CreatedAt]. lia.
  - unfold flow_created_at, NewFlowState, GoTime.Add, GoTime.Second.
    cbn [CreatedAt]. lia.
  - apply IsExpired_spec. unfold flow_created_at, NewFlowState, GoTime.Second.
    cbn [CreatedAt]. lia.
Qed.

End FlowStateExpiry.

(** ** MFA endpoints *)

Section MFAVerified.

Import Http MFA.

(** A lookup that finds a row finds the challenge. *)
Lemma FindChallenge_found env db id c :
  findChallengeErr env = None ->
  challenges db !! id = Some c ->
  FindChallengeByChallengeID env db id = inr c.
Proof.
  intros Herr Hrow. unfold FindChallengeByChallengeID. now rewrite Herr, Hrow.
Qed.

(** A transaction whose body fails leaves the tables as they were. *)
Lemma Transaction_rollback db fn err :
  snd (fn db) = Some err -> Transaction db fn = (db, Some err).
Proof.
  unfold Transaction. destruct (fn db) as [db' [e|]]; cbn; congruence.
Qed.

(** The check of verified-at comes right after the lookup. *)
Lemma VerifyFactor_verified_refused env db user factor params challenge t :
  findChallengeErr env = None ->
  challenges db !! vp_ChallengeID params = Some challenge ->
  c_VerifiedAt challenge = Some t ->
  VerifyFactor env db user factor (inr params)
  = (db, Some (badRequestError "Challenge has already been verified")).
Proof.
  intros Herr Hrow Hver. unfold VerifyFactor.
  rewrite (FindChallenge_found env db _ challenge Herr Hrow).
  now rewrite Hver.
Qed.

(** C7. When the challenge named by the request has its verified-at
    timestamp set, [VerifyFactor] fails with BadRequest ("Challenge has
    already been verified") and the tables are left as they were. *)
Theorem VerifyFactor_already_verified
    (env : Env) (db : DB) (user : UUID) (factor : Factor)
    (params : VerifyFactorParams) (challenge : Challenge) (t : GoTime.Time) :
  findChallengeErr env = None ->
  challenges db !! vp_ChallengeID params = Some challenge ->
  c_VerifiedAt challenge = Some t ->
  exists e,
    VerifyFactor env db user factor (inr params) = (db, Some e)
    /\ status_of e = Some StatusBadRequest
    /\ message_of e = "Challenge has already been verified".
Proof.
  intros Herr Hrow Hver.
  exists (badRequestError "Challenge has already been verified").
  split; [|split; reflexivity].
  now apply (VerifyFactor_verified_refused env db user factor params challenge t).
Qed.

Lemma VerifyFactor_already_verified_witness :
  exists e,
    VerifyFactor (sample_env 1000) (sample_db (Some 500)) "user-1" sample_factor
                 (verify_request "123456")
    = (sample_db (Some 500), Some e)
    /\ status_of e = Some StatusBadRequest
    /\ message_of e = "Challenge has already been verified".
Proof.
  apply (VerifyFactor_already_verified (sample_env 1000) (sample_db (Some 500))
           "user-1" sample_factor (mkVerifyFactorParams "challenge-1" "123456")
           (sample_challenge (Some 500)) 500).
  - reflexivity.
  - vm_compute. reflexivity.
  - reflexivity.
Defined.

(** X5. A successful verification stamps the challenge, so that the same
    request, sent again, is refused (given that issuing the token leaves
    the challenge table alone). *)
Lemma VerifyFactor_twice
    (env : Env) (db db' : DB) (user : UUID) (factor : Factor)
    (params : VerifyFactorParams) (challenge : Challenge) :
  (forall d u f d', issueRefreshToken env d u f = inr d' -> challenges d' = challenges d) ->
  findChallengeErr env = None ->
  challenges db !! vp_ChallengeID params = Some challenge ->
  c_ID challenge = vp_ChallengeID params ->
  VerifyFactor env db user factor (inr params) = (db', None) ->
  VerifyFactor env db' user factor (inr params)
  = (db', Some (badRequestError "Challenge has already been verified")).
Proof.
  intros Hissue Herr Hrow Hid Hok.
  assert (Hstamp : exists c, challenges db' !! vp_ChallengeID params = Some c
                             /\ c_VerifiedAt c = Some (now env)).
  { revert Hok. unfold VerifyFactor.
    rewrite (FindChallenge_found env db _ challenge Herr Hrow).
    destruct (c_VerifiedAt challenge); [discriminate|].
    destruct (negb _); [discriminate|].
    destruct (hasExpired env challenge).
    - destruct (Transaction db _) as [? [?|]]; discriminate.
    - unfold Transaction, verifyTx.
      unfold NewAuditLogEntry, Challenge_Verify, Factor_UpdateStatus,
        InvalidateSessionsWithAALLessThan.
      destruct (auditLogErr env); [discriminate|].
      destruct (verifyChallengeErr env); [discriminate|].
      assert (Hup : forall d0 : DB,
                 exists d1, (if negb (String.eqb (f_Status factor) FactorVerifiedState)
                  then match updateStatusErr env with
                       | Some err => (d0, Some err)
                       | None => (mkDB (challenges d0)
                            (<[f_ID factor := mkFactor (f_ID factor) (f_UserID factor)
                                 (f_FriendlyName factor) (f_FactorType factor)
                                 FactorVerifiedState (f_TOTPSecret factor)]> (factors d0))
                            (sessions d0) (audit_log d0), None)
                       end
                  else (d0, None)) = (d1, updateStatusErr env ≫= (fun e =>
                     if negb (String.eqb (f_Status factor) FactorVerifiedState)
                     then Some e else None))
                   /\ challenges d1 = challenges d0).
      { intros d0. destruct (negb _), (updateStatusErr env); cbn; eauto. }
      match goal with |- context [if negb ?b then ?x else (?d, None)] =>
        destruct (Hup d) as [d1 [-> Hd1]] end.
      destruct (updateStatusErr env ≫= _); [discriminate|].
      destruct (issueRefreshToken env d1 user (f_ID factor)) as [?|d2] eqn:Hiss;
        [discriminate|].
      destruct (setCookieTokensErr env); [discriminate|].
      destruct (invalidateSessionsErr env); [discriminate|].
      cbn. intros [= <- _]. cbn [challenges].
      rewrite (Hissue _ _ _ _ Hiss), Hd1. cbn [challenges].
      rewrite Hid, lookup_insert_eq. eauto. }
  destruct Hstamp as [c [Hc Hv]].
  apply (VerifyFactor_verified_refused env db' user factor params c (now env)); auto.
Qed.

(** C9. When the factor is verified and the submitted code does not
    validate against its secret, [UnenrollFactor] fails with Unauthorized
    and the tables are left as they were: the factor row and every session
    are still there. *)
Theorem UnenrollFactor_verified_invalid_code
    (env : Env) (db : DB) (user : UUID) (factor : Factor) (session : UUID)
    (params : UnenrollFactorParams) :
  f_Status factor = FactorVerifiedState ->
  totpValidate env (up_Code params) (f_TOTPSecret factor) = false ->
  let r := UnenrollFactor env db user factor session (inr params) in
  r = (db, Some (unauthorizedError "Invalid code entered"))
  /\ (exists e, snd r = Some e /\ status_of e = Some StatusUnauthorized)
  /\ factors (fst r) = factors db
  /\ sessions (fst r) = sessions db.
Proof.
  intros Hst Hcode r.
  assert (Hr : r = (db, Some (unauthorizedError "Invalid code entered"))).
  { subst r. unfold UnenrollFactor. cbv zeta. rewrite Hst, Hcode.
    now rewrite String.eqb_refl. }
  rewrite Hr. cbn [fst snd]. repeat split.
  now exists (unauthorizedError "Invalid code entered").
Qed.

Lemma UnenrollFactor_verified_invalid_code_witness :
  UnenrollFactor (sample_env 1000) (sample_db (Some 500)) "user-1" sample_factor
                 "session-1" (inr (mkUnenrollFactorParams "000000"))
  = (sample_db (Some 500), Some (unauthorizedError "Invalid code entered")).
Proof.
  apply (UnenrollFactor_verified_invalid_code (sample_env 1000) (sample_db (Some 500))
           "user-1" sample_factor "session-1" (mkUnenrollFactorParams "000000")).
  - reflexivity.
  - reflexivity.
Defined.

End MFAVerified.

Section MFAExpiry.

Import Http MFA.

(** The order of the checks of [VerifyFactor] on a challenge that is not
    verified yet: the code first, the expiry second. *)
Lemma VerifyFactor_unverified env db user factor params challenge :
  findChallengeErr env = None ->
  challenges db !! vp_ChallengeID params = Some challenge ->
  c_VerifiedAt challenge = None ->
  VerifyFactor env db user factor (inr params)
  = if negb (totpValidate env (vp_Code params) (f_TOTPSecret factor))
    then (db, Some (unauthorizedError "Invalid TOTP code entered"))
    else if hasExpired env challenge
    then match destroyChallengeErr env with
         | Some terr =>
             (db, Some (WithInternalError
                          (internalServerError "Database error deleting challenge") terr))
         | None => (without_challenge db (c_ID challenge),
                    Some (badRequestError (expiredMessage (c_ID challenge))))
         end
    else match Transaction db (verifyTx env user factor challenge) with
         | (db', Some err) => (db', Some err)
         | (db', None) => (db', sendJSONErr env)
         end.
Proof.
  intros Herr Hrow Hver. unfold VerifyFactor.
  rewrite (FindChallenge_found env db _ challenge Herr Hrow), Hver.
  destruct (negb _); [reflexivity|].
  destruct (hasExpired env challenge); [|reflexivity].
  unfold Transaction, DestroyChallenge, without_challenge.
  now destruct (destroyChallengeErr env).
Qed.

Lemma hasExpired_spec env challenge :
  hasExpired env challenge = true
  <-> c_CreatedAt challenge + expiryDuration env < now env.
Proof. unfold hasExpired, GoTime.Add. apply After_spec. Qed.

(** C1, as stated, fails: at time 1000 s a challenge created at time 0
    with an expiry of 300 s has expired; a request with a wrong code is
    answered Unauthorized, not BadRequest, and the challenge row is still
    in the table afterwards. *)
Lemma VerifyFactor_expired_wrong_code_unauthorized :
  let env := sample_env (1000 * GoTime.Second) in
  let r := VerifyFactor env (sample_db None) "user-1" sample_factor
                        (verify_request "000000") in
  c_CreatedAt (sample_challenge None) + expiryDuration env < now env
  /\ snd r = Some (unauthorizedError "Invalid TOTP code entered")
  /\ challenges (fst r) !! "challenge-1" = Some (sample_challenge None)
  /\ ~ ((exists e, snd r = Some e /\ status_of e = Some StatusBadRequest)
        /\ challenges (fst r) !! "challenge-1" = None).
Proof.
  cbv zeta. split; [vm_compute; reflexivity|].
  assert (Hr : VerifyFactor (sample_env (1000 * GoTime.Second)) (sample_db None)
                 "user-1" sample_factor (verify_request "000000")
               = (sample_db None, Some (unauthorizedError "Invalid TOTP code entered"))).
  { unfold verify_request.
    rewrite (VerifyFactor_unverified _ _ _ _ _ (sample_challenge None));
      [reflexivity | reflexivity | vm_compute; reflexivity | reflexivity]. }
  rewrite Hr. cbn [fst snd]. split; [reflexivity|]. split.
  - vm_compute. reflexivity.
  - intros [[e [He Hst]] _]. injection He as <-. discriminate Hst.
Qed.

(** C1, amended. For a challenge that is not verified yet and whose
    expiry has passed, [VerifyFactor] checks the code before the expiry:
    with a code that validates it destroys the challenge (in a transaction
    of its own) and fails with BadRequest; with a code that does not
    validate it fails with Unauthorized and leaves the tables as they were.
    In neither case is the challenge marked verified. *)
Theorem VerifyFactor_expired_code_checked_first
    (env : Env) (db : DB) (user : UUID) (factor : Factor)
    (params : VerifyFactorParams) (challenge : Challenge) :
  findChallengeErr env = None ->
  destroyChallengeErr env = None ->
  challenges db !! vp_ChallengeID params = Some challenge ->
  c_ID challenge = vp_ChallengeID params ->
  c_VerifiedAt challenge = None ->
  c_CreatedAt challenge + expiryDuration env < now env ->
  let r := VerifyFactor env db user factor (inr params) in
  (totpValidate env (vp_Code params) (f_TOTPSecret factor) = true ->
     r = (without_challenge db (c_ID challenge),
          Some (badRequestError (expiredMessage (c_ID challenge))))
     /\ challenges (fst r) !! vp_ChallengeID params = None)
  /\ (totpValidate env (vp_Code params) (f_TOTPSecret factor) = false ->
      r = (db, Some (unauthorizedError "Invalid TOTP code entered")))
  /\ (forall c, challenges (fst r) !! vp_ChallengeID params = Some c ->
                c_VerifiedAt c = None).
Proof.
  intros Herr Hdel Hrow Hid Hver Hexp r.
  apply hasExpired_spec in Hexp.
  assert (Hr : r = if negb (totpValidate env (vp_Code params) (f_TOTPSecret factor))
                   then (db, Some (unauthorizedError "Invalid TOTP code entered"))
                   else (without_challenge db (c_ID challenge),
                         Some (badRequestError (expiredMessage (c_ID challenge))))).
  { subst r. rewrite (VerifyFactor_unverified _ _ _ _ _ challenge Herr Hrow Hver).
    now rewrite Hexp, Hdel. }
  rewrite Hr. clear Hr r.
  destruct (totpValidate env (vp_Code params) (f_TOTPSecret factor)); cbn [negb fst].
  - split; [|split]; try discriminate.
    + intros _. split; [reflexivity|]. cbn. rewrite Hid. apply lookup_delete_eq.
    + intros c. cbn. rewrite Hid, lookup_delete_eq. discriminate.
  - split; [|split]; try discriminate.
    + reflexivity.
    + intros c Hc. rewrite Hrow in Hc. now injection Hc as <-.
Qed.

Lemma VerifyFactor_expired_code_checked_first_witness :
  VerifyFactor (sample_env (1000 * GoTime.Second)) (sample_db None) "user-1"
               sample_factor (verify_request "123456")
  = (without_challenge (sample_db None) "challenge-1",
     Some (badRequestError (expiredMessage "challenge-1")))
  /\ VerifyFactor (sample_env (1000 * GoTime.Second)) (sample_db None) "user-1"
                  sample_factor (verify_request "000000")
     = (sample_db None, Some (unauthorizedError "Invalid TOTP code entered")).
Proof.
  pose proof (VerifyFactor_expired_code_checked_first
                (sample_env (1000 * GoTime.Second)) (sample_db None) "user-1"
                sample_factor) as H.
  split.
  - apply (H (mkVerifyFactorParams "challenge-1" "123456") (sample_challenge None));
      try reflexivity; vm_compute; reflexivity.
  - apply (H (mkVerifyFactorParams "challenge-1" "000000") (sample_challenge None));
      try reflexivity; vm_compute; reflexivity.
Defined.

End MFAExpiry.

(** ** Hook outputs and the Postgres dispatcher *)

Section PostgresHooks.

Import Http Hooks HookDispatch.

Lemma nonempty_spec (s : string) : nonempty s = true <-> s <> EmptyString.
Proof. destruct s; cbn; split; congruence. Qed.

Lemma nonempty_false (s : string) : nonempty s = false <-> s = EmptyString.
Proof. destruct s; cbn; split; congruence. Qed.

Lemma IsErrorOf_spec o h :
  HookErrorOf o = Some h -> IsErrorOf o = nonempty (Message h).
Proof. destruct o; cbn; intros [= <-]; reflexivity. Qed.


(** What [invokePostgresHook] returns once the procedure has run and its
    value has been decoded into [out]. *)
Lemma invokePostgresHook_decided codec config env hasConn input output response out :
  hookCall codec config env hasConn input output = Some (Return (response, None, out)) ->
  invokePostgresHook codec config env hasConn input output
  = match out with
    | OutCustomAccessToken o =>
        if IsError o then Return (Some (hookRejection (ca_HookError o)), out)
        else match validateTokenClaims codec (ca_Claims o) with
             | Some err => Return (Some (HTTPError (httpCodeOf (ca_HookError o))
                                           EmptyString (message_of err) None), out)
             | None => Return (None, out)
             end
    | _ => match HookErrorOf out with
           | Some h => if IsErrorOf out then Return (Some (hookRejection h), out)
                       else Return (None, out)
           | None => Return (None, out)
           end
    end.
Proof.
  unfold hookCall, invokePostgresHook.
  destruct input as [i|i|i|n], output as [o|o|o|n']; try discriminate.
  - destruct (runPostgresHook _ _ _ _ _ _) as [msg|[[r e] o']]; cbn; [discriminate|].
    intros [= -> -> <-]. cbn. reflexivity.
  - destruct (runPostgresHook _ _ _ _ _ _) as [msg|[[r e] o']]; cbn; [discriminate|].
    intros [= -> -> <-]. cbn. reflexivity.
  - destruct (runPostgresHook _ _ _ _ _ _) as [msg|[[r e] o']]; cbn; [discriminate|].
    intros [= -> -> <-]. cbn. reflexivity.
Qed.



(** C10. For each of the three outputs [IsError] holds exactly when the
    message of the error object is not empty.  So when the procedure has
    run and the decoded output has an error object with a non-zero HTTP
    code and an empty message, [invokePostgresHook] does not reject: it
    returns nil for the MFA and password hooks, and for the access-token
    hook it returns what the validation of the claims says. *)
Theorem IsError_iff_message_nonempty :
  (forall mf : MFAVerificationAttemptOutput,
      IsError mf = true <-> Message (mf_HookError mf) <> EmptyString)
  /\ (forall p : PasswordVerificationAttemptOutput,
         IsError p = true <-> Message (p_HookError p) <> EmptyString)
  /\ (forall ca : CustomAccessTokenOutput,
         IsError ca = true <-> Message (ca_HookError ca) <> EmptyString)
  /\ (forall codec config env hasConn input output out response h,
         hookCall codec config env hasConn input output
         = Some (Return (response, None, out)) ->
         HookErrorOf out = Some h ->
         HTTPCode h <> 0 ->
         Message h = EmptyString ->
         IsErrorOf out = false
         /\ invokePostgresHook codec config env hasConn input output
            = match out with
              | OutCustomAccessToken o =>
                  match validateTokenClaims codec (ca_Claims o) with
                  | Some err => Return (Some (HTTPError (HTTPCode h) EmptyString
                                                (message_of err) None), out)
                  | None => Return (None, out)
                  end
              | _ => Return (None, out)
              end).
Proof.
  split; [|split; [|split]].
  - intros mf. apply nonempty_spec.
  - intros p. apply nonempty_spec.
  - intros ca. apply nonempty_spec.
  - intros codec config env hasConn input output out response h Hcall Hh Hcode Hmsg.
    assert (Hno : IsErrorOf out = false).
    { rewrite (IsErrorOf_spec _ _ Hh). now apply nonempty_false. }
    split; [exact Hno|].
    rewrite (invokePostgresHook_decided _ _ _ _ _ _ _ _ Hcall).
    destruct out as [o|o|o|n]; cbn in Hh, Hno |- *;
      try (injection Hh as <-); try discriminate; rewrite ?Hno; try reflexivity.
    unfold httpCodeOf. apply Z.eqb_neq in Hcode. now rewrite Hcode.
Qed.

Lemma IsError_iff_message_nonempty_witness :
  IsErrorOf (sample_mfa_output (mkAuthHookError 403 EmptyString)) = false
  /\ invokePostgresHook sample_codec sample_config (sample_pg [403]) true
       sample_mfa_input (sample_mfa_output (mkAuthHookError 0 EmptyString))
     = Return (None, sample_mfa_output (mkAuthHookError 403 EmptyString)).
Proof.
  destruct IsError_iff_message_nonempty as (_ & _ & _ & H).
  apply (H sample_codec sample_config (sample_pg [403]) true sample_mfa_input
           (sample_mfa_output (mkAuthHookError 0 EmptyString))
           (sample_mfa_output (mkAuthHookError 403 EmptyString)) (Some [403])
           (mkAuthHookError 403 EmptyString)).
  - reflexivity.
  - reflexivity.
  - cbn. lia.
  - reflexivity.
Defined.

End PostgresHooks.

(** ** The HTTP dispatcher: retries *)

Section HTTPHooks.

Import Http Hooks HookDispatch.

Lemma attempt_step_retryable i a :
  retryable a ->
  attempt_step i a = if guardFires i a then timedOut else Continue [Posted i].
Proof.
  intros (sigs & rsp & Hs & Hn & Hd & Hst & Hra).
  unfold attempt_step, guardFires, timedOut.
  destruct (_ <? _); [reflexivity|].
  rewrite Hs, Hn, Hd.
  apply nonempty_spec in Hra. rewrite Hra.
  destruct Hst as [-> | ->]; reflexivity.
Qed.

(** C5, as stated, fails: when the endpoint answers 503 with a
    retry-after header three times, the dispatcher posts three times and
    returns the error of the end of the loop, an internal server error
    (500), not a gateway timeout (504). *)
Lemma runHTTPHook_503_three_times_internal_error :
  runHTTPHook (inr [123; 125]) unavailable
  = Some (mkHookRun None (Some (internalServerError "error executing hook"))
                    [Posted 0; Posted 1; Posted 2])
  /\ status_of (internalServerError "error executing hook")
     = Some StatusInternalServerError
  /\ status_of (internalServerError "error executing hook") <> Some StatusGatewayTimeout.
Proof.
  split; [vm_compute; reflexivity|].
  split; [reflexivity | discriminate].
Qed.

(** C5, amended. When the endpoint answers 429 or 503 with a retry-after
    header on each of the three attempts, [runHTTPHook] never returns a
    success: it returns an internal server error (500) after three posts
    when the elapsed-time guard fires on no attempt, and a gateway timeout
    (504) exactly when the guard fires before one of them. *)
Theorem runHTTPHook_retries_exhausted
    (payload : list Z) (env : Z -> Attempt) :
  (forall i, 0 <= i < DefaultHTTPHookRetries -> retryable (env i)) ->
  exists run e,
    runHTTPHook (inr payload) env = Some run
    /\ hr_err run = Some e
    /\ (length (posts (hr_trace run)) <= 3)%nat
    /\ ((forall i, 0 <= i < DefaultHTTPHookRetries -> guardFires i (env i) = false) ->
        e = internalServerError "error executing hook"
        /\ status_of e = Some StatusInternalServerError
        /\ hr_body run = None
        /\ posts (hr_trace run) = [0; 1; 2])
    /\ ((exists i, 0 <= i < DefaultHTTPHookRetries /\ guardFires i (env i) = true) ->
        status_of e = Some StatusGatewayTimeout).
Proof.
  intros Hretry.
  assert (H0 := attempt_step_retryable 0 (env 0) (Hretry 0 ltac:(unfold DefaultHTTPHookRetries; lia))).
  assert (H1 := attempt_step_retryable 1 (env 1) (Hretry 1 ltac:(unfold DefaultHTTPHookRetries; lia))).
  assert (H2 := attempt_step_retryable 2 (env 2) (Hretry 2 ltac:(unfold DefaultHTTPHookRetries; lia))).
  unfold runHTTPHook.
  change (Z.to_nat DefaultHTTPHookRetries) with 3%nat.
  cbn [retry_loop]. change (0 + 1) with 1. change (1 + 1) with 2.
  rewrite H0.
  assert (Hcases : forall i, 0 <= i < DefaultHTTPHookRetries -> i = 0 \/ i = 1 \/ i = 2)
    by (unfold DefaultHTTPHookRetries; lia).
  destruct (guardFires 0 (env 0)) eqn:G0; [fired G0 0|].
  rewrite H1.
  destruct (guardFires 1 (env 1)) eqn:G1; [fired G1 1|].
  rewrite H2.
  destruct (guardFires 2 (env 2)) eqn:G2; [fired G2 2|].
  eexists _, _.
  split; [reflexivity|]. split; [reflexivity|]. split; [cbn; lia|]. split.
  - intros _. repeat split.
  - intros (i & Hi & Gi).
    destruct (Hcases i Hi) as [-> | [-> | ->]]; congruence.
Qed.

Lemma runHTTPHook_retries_exhausted_witness :
  exists run e,
    runHTTPHook (inr [123; 125]) unavailable = Some run
    /\ hr_err run = Some e
    /\ (length (posts (hr_trace run)) <= 3)%nat
    /\ ((forall i, 0 <= i < DefaultHTTPHookRetries -> guardFires i (unavailable i) = false) ->
        e = internalServerError "error executing hook"
        /\ status_of e = Some StatusInternalServerError
        /\ hr_body run = None
        /\ posts (hr_trace run) = [0; 1; 2])
    /\ ((exists i, 0 <= i < DefaultHTTPHookRetries /\ guardFires i (unavailable i) = true) ->
        status_of e = Some StatusGatewayTimeout).
Proof.
  apply (runHTTPHook_retries_exhausted [123; 125] unavailable).
  intros i Hi. exists ["v1,c2lnbmF0dXJl"], (mkResponse StatusServiceUnavailable "1" None).
  repeat split; try reflexivity.
  - right. reflexivity.
  - discriminate.
Defined.

End HTTPHooks.

(** ** Reading a response body under the limit *)

Section Readers.

Import Http IO.

Lemma Read_pos d eager fin n :
  (0 < n)%nat ->
  Read (mkReader d eager fin) n
  = (firstn n d, read_err d eager fin n, mkReader (skipn n d) eager fin).
Proof.
  intros Hn. unfold Read, read_err. cbn [pending end_with_data at_end].
  destruct n as [|n]; [lia|].
  destruct d as [|x d]; [reflexivity|].
  destruct (skipn (S n) (x :: d)) as [|y rest] eqn:Hrest.
  - assert (Hlen : (length (x :: d) <= S n)%nat).
    { apply (f_equal (@length Z)) in Hrest. rewrite length_skipn in Hrest.
      cbn [length] in Hrest |- *. lia. }
    apply Nat.leb_le in Hlen. rewrite Hlen. now destruct eager.
  - assert (Hlen : (S n < length (x :: d))%nat).
    { apply (f_equal (@length Z)) in Hrest. rewrite length_skipn in Hrest.
      cbn [length] in Hrest |- *. lia. }
    apply Nat.leb_gt in Hlen. now rewrite Hlen.
Qed.

Lemma LimitedReader_Read_pos d eager fin n spare :
  0 < n -> (0 < spare)%nat ->
  let k := Nat.min (Z.to_nat n) spare in
  LimitedReader_Read (mkLimitedReader (mkReader d eager fin) n) spare
  = (firstn k d, read_err d eager fin k,
     mkLimitedReader (mkReader (skipn k d) eager fin)
                     (n - Z.of_nat (Nat.min k (length d)))).
Proof.
  intros Hn Hs k. unfold LimitedReader_Read. cbn [N R].
  destruct (n <=? 0) eqn:Hle; [apply Z.leb_le in Hle; lia|].
  assert (Hk : (if n <? Z.of_nat spare then Z.to_nat n else spare) = k).
  { subst k. destruct (n <? Z.of_nat spare) eqn:E;
      [apply Z.ltb_lt in E | apply Z.ltb_ge in E]; lia. }
  rewrite Hk. rewrite Read_pos by (subst k; lia).
  now rewrite length_firstn.
Qed.

Lemma firstn_split_at {A} (k m : nat) (l : list A) :
  (k <= m)%nat -> (firstn k l ++ firstn (m - k) (skipn k l))%list = firstn m l.
Proof.
  intros H. rewrite take_take_drop. f_equal. lia.
Qed.

Lemma grow_gt c : (c < grow c)%nat.
Proof.
  unfold grow. assert (192 <= (c + 768) / 4)%nat; [|lia].
  apply Nat.div_le_lower_bound; lia.
Qed.

Lemma ReadAll_loop_spec eager fin fuel :
  forall d n b cap,
    (length d < fuel)%nat -> (length b < cap)%nat ->
    ReadAll_loop fuel (mkLimitedReader (mkReader d eager fin) n) b cap
    = Some ((b ++ firstn (Z.to_nat n) d)%list, expected_err d eager fin n,
            expected_reader d eager fin n).
Proof.
  induction fuel as [|fuel IH]; intros d n b cap Hfuel Hcap; [lia|].
  cbn [ReadAll_loop].
  destruct (Z_le_gt_dec n 0) as [Hn|Hn].
  - (* the limit is used up *)
    unfold LimitedReader_Read. cbn [N R].
    assert (Hle : (n <=? 0) = true) by now apply Z.leb_le.
    rewrite Hle. unfold expected_err, expected_reader. rewrite Hle.
    replace (Z.to_nat n) with 0%nat by lia.
    cbn [firstn skipn Nat.min]. now rewrite Z.sub_0_r.
  - rewrite LimitedReader_Read_pos by lia.
    set (k := Nat.min (Z.to_nat n) (cap - length b)).
    assert (Hk : (1 <= k <= Z.to_nat n)%nat) by (subst k; lia).
    assert (Hgt : (n <=? 0) = false) by (apply Z.leb_gt; lia).
    unfold read_err.
    destruct d as [|x d0] eqn:Hd.
    + (* nothing left: the reader reports its end *)
      rewrite firstn_nil, skipn_nil. unfold expected_err, expected_reader.
      rewrite Hgt, firstn_nil, skipn_nil. cbn [length].
      assert (Hlt : (0 <? Z.to_nat n)%nat = true) by (apply Nat.ltb_lt; lia).
      rewrite Hlt. cbn [orb]. rewrite !Nat.min_0_r.
      now destruct fin.
    + rewrite <- Hd in *. assert (Hlen : (0 < length d)%nat) by (subst d; cbn; lia).
      clear Hd x d0.
      destruct ((length d <=? k)%nat && eager) eqn:Hend.
      * (* the last bytes come with the end of the stream *)
        apply andb_prop in Hend. destruct Hend as [Hdk ->].
        apply Nat.leb_le in Hdk.
        rewrite (firstn_all2 (n:=k)) by lia.
        rewrite (skipn_all2 (n:=k)) by lia.
        unfold expected_err, expected_reader. rewrite Hgt.
        rewrite (firstn_all2 (n:=Z.to_nat n)) by lia.
        rewrite (skipn_all2 (n:=Z.to_nat n)) by lia.
        replace (Nat.min k (length d)) with (length d) by lia.
        replace (Nat.min (Z.to_nat n) (length d)) with (length d) by lia.
        assert (Hc : ((length d <? Z.to_nat n)%nat
                      || ((length d =? Z.to_nat n)%nat && true)) = true).
        { destruct (Nat.ltb_spec (length d) (Z.to_nat n)); [reflexivity|].
          cbn [orb]. rewrite andb_true_r. apply Nat.eqb_eq. lia. }
        rewrite Hc. now destruct fin.
      * (* more to read *)
        rewrite IH.
        -- f_equal. f_equal; [f_equal|].
           ++ rewrite <- app_assoc. f_equal.
              replace (Z.to_nat (n - Z.of_nat (Nat.min k (length d))))
                with (Z.to_nat n - Nat.min k (length d))%nat by lia.
              destruct (Nat.le_gt_cases (length d) k) as [Hdk|Hdk].
              ** rewrite (firstn_all2 (n:=k)) by lia.
                 rewrite (skipn_all2 (n:=k)) by lia.
                 rewrite firstn_nil, app_nil_r.
                 now rewrite firstn_all2 by lia.
              ** replace (Nat.min k (length d)) with k by lia.
                 apply firstn_split_at. lia.
           ++ unfold expected_err.
              rewrite Hgt, length_skipn.
              replace (Z.to_nat (n - Z.of_nat (Nat.min k (length d))))
                with (Z.to_nat n - Nat.min k (length d))%nat by lia.
              destruct (Nat.le_gt_cases (length d) k) as [Hdk|Hdk].
              ** assert (He : eager = false).
                 { apply Nat.leb_le in Hdk. rewrite Hdk in Hend. exact Hend. }
                 subst eager. rewrite !andb_false_r, !orb_false_r.
                 replace (Nat.min k (length d)) with (length d) by lia.
                 destruct (Z.leb_spec (n - Z.of_nat (length d)) 0) as [Hz|Hz].
                 --- assert (Hf : (length d <? Z.to_nat n)%nat = false)
                       by (apply Nat.ltb_ge; lia).
                     now rewrite Hf.
                 --- assert (Ht : (length d <? Z.to_nat n)%nat = true)
                       by (apply Nat.ltb_lt; lia).
                     rewrite Ht.
                     assert (Ht' : (length d - k <? Z.to_nat n - length d)%nat = true)
                       by (apply Nat.ltb_lt; lia).
                     now rewrite Ht'.
              ** replace (Nat.min k (length d)) with k by lia.
                 destruct (Z.leb_spec (n - Z.of_nat k) 0) as [Hz|Hz].
                 --- assert (Hf : (length d <? Z.to_nat n)%nat = false)
                       by (apply Nat.ltb_ge; lia).
                     assert (Hf' : (length d =? Z.to_nat n)%nat = false)
                       by (apply Nat.eqb_neq; lia).
                     now rewrite Hf, Hf'.
                 --- replace ((length d - k <? Z.to_nat n - k)%nat)
                       with ((length d <? Z.to_nat n)%nat).
                     2:{ destruct (Nat.ltb_spec (length d) (Z.to_nat n));
                         symmetry; [apply Nat.ltb_lt | apply Nat.ltb_ge]; lia. }
                     replace ((length d - k =? Z.to_nat n - k)%nat)
                       with ((length d =? Z.to_nat n)%nat).
                     2:{ destruct (Nat.eqb_spec (length d) (Z.to_nat n));
                         symmetry; [apply Nat.eqb_eq | apply Nat.eqb_neq]; lia. }
                     reflexivity.
           ++ unfold expected_reader.
              replace (Z.to_nat (n - Z.of_nat (Nat.min k (length d))))
                with (Z.to_nat n - Nat.min k (length d))%nat by lia.
              rewrite skipn_skipn, length_skipn. f_equal.
              ** f_equal.
                 destruct (Nat.le_gt_cases (length d) k) as [Hdk|Hdk].
                 --- rewrite !skipn_all2 by lia. reflexivity.
                 --- f_equal. lia.
              ** lia.
        -- rewrite length_skipn. lia.
        -- rewrite length_app, length_firstn.
           destruct (Nat.eqb_spec (length b + Nat.min k (length d)) cap) as [->|Hne].
           ++ apply grow_gt.
           ++ subst k. lia.
Qed.

(** [io.ReadAll] over a limited reader always returns: the fuel it is
    given is enough. *)
Lemma ReadAll_spec d eager fin n :
  ReadAll (mkLimitedReader (mkReader d eager fin) n)
  = Some (firstn (Z.to_nat n) d, expected_err d eager fin n,
          expected_reader d eager fin n).
Proof.
  unfold ReadAll. cbn [R pending].
  rewrite ReadAll_loop_spec by (cbn [length]; lia). reflexivity.
Qed.

Import HookDispatch.

(** [readBodyWithLimit] on every body, by the length of the body. *)
Lemma readBodyWithLimit_spec d eager fin :
  readBodyWithLimit (mkReader d eager fin)
  = Some (if Z.of_nat (length d) <? limit then atEnd d fin
          else if Z.of_nat (length d) =? limit
               then (if eager then atEnd d fin else (Some d, None))
          else if (Z.of_nat (length d) =? limit + 1) && eager
               then (Some (firstn (Z.to_nat limit) d), None)
          else tooLarge).
Proof.
  unfold readBodyWithLimit. rewrite ReadAll_spec.
  unfold expected_err, expected_reader.
  assert (Hlim : limit = 20480) by reflexivity.
  assert (Hpos : (limit <=? 0) = false) by reflexivity.
  rewrite Hpos. cbn [N R].
  remember (Z.to_nat limit) as m eqn:Hm.
  assert (Hm' : Z.of_nat m = limit) by (subst m; rewrite Hlim; lia).
  destruct (Z.ltb_spec (Z.of_nat (length d)) limit) as [Hlt|Hge].
  - (* below the limit *)
    assert (H1 : (length d <? m)%nat = true) by (apply Nat.ltb_lt; lia).
    rewrite H1. cbn [orb].
    rewrite firstn_all2 by lia.
    assert (H2 : (limit - Z.of_nat (Nat.min m (length d)) <=? 0) = false)
      by (apply Z.leb_gt; lia).
    destruct fin; cbn [err_of atEnd]; [now rewrite H2 | reflexivity].
  - assert (H1 : (length d <? m)%nat = false) by (apply Nat.ltb_ge; lia).
    rewrite H1. cbn [orb].
    assert (H2 : (limit - Z.of_nat (Nat.min m (length d)) <=? 0) = true)
      by (apply Z.leb_le; lia).
    destruct (Z.eqb_spec (Z.of_nat (length d)) limit) as [Heq|Hne].
    + (* exactly the limit *)
      assert (H3 : (length d =? m)%nat = true) by (apply Nat.eqb_eq; lia).
      rewrite H3. cbn [andb].
      rewrite firstn_all2 by lia. rewrite skipn_all2 by lia.
      destruct eager.
      * destruct fin; cbn [err_of atEnd]; [now rewrite H2 | reflexivity].
      * rewrite H2. reflexivity.
    + (* over the limit: one more byte is read *)
      assert (H3 : (length d =? m)%nat = false) by (apply Nat.eqb_neq; lia).
      rewrite H3. cbn [andb]. rewrite H2.
      rewrite Read_pos by lia. unfold read_err.
      assert (Hrest : length (skipn m d) = (length d - m)%nat) by apply length_skipn.
      destruct (skipn m d) as [|y rest] eqn:Hskip; [cbn [length] in Hrest; lia|].
      destruct (Z.eqb_spec (Z.of_nat (length d)) (limit + 1)) as [Heq1|Hne1].
      * assert (H4 : (length (y :: rest) <=? 1)%nat = true)
          by (apply Nat.leb_le; rewrite Hrest; lia).
        rewrite H4. cbn [andb]. now destruct eager.
      * assert (H4 : (length (y :: rest) <=? 1)%nat = false)
          by (apply Nat.leb_gt; rewrite Hrest; lia).
        rewrite H4. reflexivity.
Qed.

(** A body of exactly 20 KiB is returned whole, however the reader
    reports its end. *)
Lemma readBodyWithLimit_at_limit d eager :
  Z.of_nat (length d) = limit ->
  readBodyWithLimit (mkReader d eager EOF) = Some (Some d, None).
Proof.
  intros H. rewrite readBodyWithLimit_spec, H.
  rewrite Z.ltb_irrefl, Z.eqb_refl. now destruct eager.
Qed.

(** A body of 20 KiB + 2 bytes or more is refused, and so is one of
    20 KiB + 1 bytes whose reader reports the end after the last byte. *)
Lemma readBodyWithLimit_over_limit d eager fin :
  limit + 2 <= Z.of_nat (length d)
  \/ (Z.of_nat (length d) = limit + 1 /\ eager = false) ->
  readBodyWithLimit (mkReader d eager fin) = Some tooLarge.
Proof.
  intros H. rewrite readBodyWithLimit_spec.
  destruct (Z.ltb_spec (Z.of_nat (length d)) limit); [lia|].
  destruct (Z.eqb_spec (Z.of_nat (length d)) limit); [lia|].
  destruct H as [H | [H ->]].
  - destruct (Z.eqb_spec (Z.of_nat (length d)) (limit + 1)); [lia|]. reflexivity.
  - now rewrite andb_false_r.
Qed.

(** C6. A body of 20 KiB + 1 bytes whose reader reports the end of the
    stream together with the last byte (as the [io.Reader] contract
    allows) is not refused: [readBodyWithLimit] returns its first 20 KiB
    and a nil error, because the one-byte probe only looks at the error. *)
Theorem readBodyWithLimit_limit_plus_one_accepted
    (d : list Z) (fin : read_error) :
  Z.of_nat (length d) = limit + 1 ->
  readBodyWithLimit (mkReader d true fin)
  = Some (Some (firstn (Z.to_nat limit) d), None)
  /\ readBodyWithLimit (mkReader d true fin) <> Some tooLarge.
Proof.
  intros H.
  assert (Hr : readBodyWithLimit (mkReader d true fin)
               = Some (Some (firstn (Z.to_nat limit) d), None)).
  { rewrite readBodyWithLimit_spec, H.
    destruct (Z.ltb_spec (limit + 1) limit); [lia|].
    destruct (Z.eqb_spec (limit + 1) limit); [lia|].
    now rewrite Z.eqb_refl. }
  split; [exact Hr|]. rewrite Hr. discriminate.
Qed.

Lemma readBodyWithLimit_limit_plus_one_accepted_witness :
  readBodyWithLimit body_limit_plus_one
  = Some (Some (firstn (Z.to_nat limit) (repeat 97 (Z.to_nat (limit + 1)))), None)
  /\ readBodyWithLimit body_limit_plus_one <> Some tooLarge.
Proof.
  apply (readBodyWithLimit_limit_plus_one_accepted
           (repeat 97 (Z.to_nat (limit + 1))) EOF).
  rewrite repeat_length. vm_compute. reflexivity.
Defined.

(** The three bodies of the scenario, run: 20 KiB is accepted; 20 KiB + 1
    is refused when the end is reported after the last byte and accepted,
    cut to 20 KiB, when it is reported with it. *)
Example readBodyWithLimit_runs :
  readBodyWithLimit (mkReader (repeat 97 (Z.to_nat limit)) true EOF)
  = Some (Some (repeat 97 (Z.to_nat limit)), None)
  /\ readBodyWithLimit (mkReader (repeat 97 (Z.to_nat (limit + 1))) false EOF)
     = Some tooLarge
  /\ readBodyWithLimit body_limit_plus_one
     = Some (Some (repeat 97 (Z.to_nat limit)), None).
Proof. repeat split; vm_compute; reflexivity. Qed.

(** The dispatcher always returns: reading the body never runs out of
    fuel. *)
Lemma attempt_step_not_stuck i a : attempt_step i a <> Stuck.
Proof.
  unfold attempt_step.
  repeat match goal with
         | |- context [if ?b then _ else _] => destruct b
         | |- context [match ?x with _ => _ end] =>
             lazymatch x with
             | readBodyWithLimit _ => fail
             | _ => destruct x eqn:?
             end
         end; try discriminate.
  all: match goal with
       | |- context [readBodyWithLimit ?r] => destruct r as [d eager fin]
       end; rewrite readBodyWithLimit_spec;
    repeat match goal with
           | |- context [if ?b then _ else _] => destruct b
           end; unfold atEnd, tooLarge; try destruct fin; discriminate.
Qed.

Lemma runHTTPHook_total payload env : exists run, runHTTPHook payload env = Some run.
Proof.
  unfold runHTTPHook. destruct payload as [err|p]; [eauto|].
  change (Z.to_nat DefaultHTTPHookRetries) with 3%nat. cbn [retry_loop].
  repeat match goal with
         | |- context [attempt_step ?i ?a] =>
             let E := fresh "E" in
             destruct (attempt_step i a) eqn:E;
             [ | eauto | exfalso; exact (attempt_step_not_stuck _ _ E) ]
         end.
  eauto.
Qed.

End Readers.

(** ** PKCE *)

Example Sum256_empty :
  Base64.RawURLEncoding_EncodeToString (Sha256.Sum256 [])
  = "47DEQpj8HBSa-_TImW-5JCeuQeRkm5NMpJWZG3hSuFU".
Proof. vm_compute. reflexivity. Qed.

Example Sum256_abc :
  Base64.RawURLEncoding_EncodeToString (Sha256.Sum256 (Bytes.of_string "abc"))
  = "ungWv48Bz-pBQUDeXa4iI7ADYaOWF3qctBD_YfIAFa0".
Proof. vm_compute. reflexivity. Qed.

(** A message of two blocks (FIPS 180-4, 56 bytes). *)
Example Sum256_two_blocks :
  Base64.RawURLEncoding_EncodeToString
    (Sha256.Sum256
       (Bytes.of_string "abcdbcdecdefdefgefghfghighijhijkijkljklmklmnlmnomnopnopq"))
  = "JI1qYdIGOLjlwCaTDD5gOaM85Flk_yFn9uzt1BnbBsE".
Proof. vm_compute. reflexivity. Qed.

(** A message of four blocks: the letter a, two hundred times. *)
Example Sum256_four_blocks :
  Base64.RawURLEncoding_EncodeToString (Sha256.Sum256 (repeat 97 200))
  = "wqkI2Y9d-Yet5BtfziEwZ--8wh7yJAISpB5UtefCiuU".
Proof. vm_compute. reflexivity. Qed.

(** The verifier and the challenge of RFC 7636, appendix B. *)
Example Sum256_rfc7636 :
  Base64.RawURLEncoding_EncodeToString
    (Sha256.Sum256 (Bytes.of_string "dBjftJeZ4CVP-mB92K27uhbUJU1p1r_wW1gFWFOEjXk"))
  = "E9Melhoa2OwvFrEMTJguCHaoeK1t8URWbuGJSstw-cM".
Proof. vm_compute. reflexivity. Qed.

(** One and two trailing bytes are encoded without padding. *)
Example EncodeToString_short :
  Base64.RawURLEncoding_EncodeToString [251] = "-w"
  /\ Base64.RawURLEncoding_EncodeToString [251; 255] = "-_8".
Proof. split; reflexivity. Qed.

Section PKCE.

Import Http FlowStateModel.

(** *** Constant-time comparison *)

Lemma or_xor_zero x : forall y v,
  length x = length y ->
  (Subtle.or_xor v x y = 0 <-> v = 0 /\ x = y).
Proof.
  induction x as [|a x IH]; intros [|b y] v Hlen; try discriminate.
  - cbn. intuition.
  - cbn [Subtle.or_xor]. injection Hlen as Hlen.
    rewrite (IH y _ Hlen), Z.lor_eq_0_iff, Z.lxor_eq_0_iff.
    split.
    + intros [[-> ->] ->]. auto.
    + intros [-> [= -> ->]]. auto.
Qed.

Lemma ConstantTimeCompare_spec (x y : list Z) :
  Subtle.ConstantTimeCompare x y = 1 <-> x = y.
Proof.
  unfold Subtle.ConstantTimeCompare, Subtle.ConstantTimeByteEq.
  destruct (Nat.eqb_spec (length x) (length y)) as [Hlen|Hlen]; cbn [negb].
  - destruct (Z.eqb_spec (Subtle.or_xor 0 x y) 0) as [H0|H0].
    + apply or_xor_zero in H0; [|assumption]. intuition.
    + split; [discriminate|]. intros ->. contradict H0.
      apply or_xor_zero; auto.
  - split; [discriminate|]. intros ->. now contradict Hlen.
Qed.

Lemma ConstantTimeCompare_eqb (x y : list Z) :
  (Subtle.ConstantTimeCompare x y =? 1) = true <-> x = y.
Proof. rewrite Z.eqb_eq. apply ConstantTimeCompare_spec. Qed.

Lemma ConstantTimeCompare_refl (x : list Z) :
  (Subtle.ConstantTimeCompare x x =? 1) = true.
Proof. now apply ConstantTimeCompare_eqb. Qed.

(** *** Strings and bytes *)

Lemma of_string_inj (s t : string) : Bytes.of_string s = Bytes.of_string t -> s = t.
Proof.
  unfold Bytes.of_string. intros H.
  rewrite <- (string_of_list_ascii_of_string s), <- (string_of_list_ascii_of_string t).
  f_equal. revert H.
  generalize (list_ascii_of_string s) (list_ascii_of_string t).
  induction l as [|a l IH]; intros [|b l'] H; try discriminate; [reflexivity|].
  cbn [map] in H. injection H as Hab Hl. f_equal; [|now apply IH].
  apply N2Z.inj in Hab.
  rewrite <- (ascii_N_embedding a), <- (ascii_N_embedding b). now f_equal.
Qed.

Lemma of_string_bytes (s : string) : Bytes.is_bytes (Bytes.of_string s).
Proof.
  unfold Bytes.of_string, Bytes.is_bytes. apply Forall_map, Forall_forall.
  intros c _. unfold Bytes.is_byte. pose proof (N_ascii_bounded c). lia.
Qed.

Lemma of_to_string (l : list Z) :
  Bytes.is_bytes l -> Bytes.of_string (Bytes.to_string l) = l.
Proof.
  unfold Bytes.of_string, Bytes.to_string, Bytes.is_bytes.
  rewrite list_ascii_of_string_of_list_ascii, map_map.
  induction 1 as [|b l Hb _ IH]; [reflexivity|].
  cbn [map]. rewrite IH. f_equal.
  unfold Bytes.is_byte in Hb.
  rewrite N_ascii_embedding by lia. lia.
Qed.

(** What [VerifyPKCE] decides, method by method. *)
Lemma VerifyPKCE_s256 (f : FlowState) (v : string) :
  CodeChallengeMethod f = "s256" ->
  VerifyPKCE f v
  = if String.eqb (CodeChallenge f)
         (Base64.RawURLEncoding_EncodeToString (Sha256.Sum256 (Bytes.of_string v)))
    then None else Some (PlainError InvalidCodeChallengeError).
Proof.
  intros Hm. unfold VerifyPKCE. rewrite Hm. cbn [CodeChallengeMethod_String].
  rewrite String.eqb_refl.
  destruct (String.eqb_spec (CodeChallenge f)
              (Base64.RawURLEncoding_EncodeToString (Sha256.Sum256 (Bytes.of_string v))))
    as [He|He].
  - rewrite He. now rewrite ConstantTimeCompare_refl.
  - destruct (Subtle.ConstantTimeCompare _ _ =? 1) eqn:Hc; [|reflexivity].
    apply ConstantTimeCompare_eqb, of_string_inj in Hc. contradiction.
Qed.

Lemma VerifyPKCE_plain (f : FlowState) (v : string) :
  CodeChallengeMethod f = "plain" ->
  VerifyPKCE f v
  = if String.eqb (CodeChallenge f) v
    then None else Some (PlainError InvalidCodeChallengeError).
Proof.
  intros Hm. unfold VerifyPKCE. rewrite Hm. cbn [CodeChallengeMethod_String].
  change (String.eqb "plain" "s256") with false. cbv iota. rewrite String.eqb_refl.
  destruct (String.eqb_spec (CodeChallenge f) v) as [He|He].
  - rewrite He. now rewrite ConstantTimeCompare_refl.
  - destruct (Subtle.ConstantTimeCompare _ _ =? 1) eqn:Hc; [|reflexivity].
    apply ConstantTimeCompare_eqb, of_string_inj in Hc. contradiction.
Qed.

(** *** Base64 is injective *)

Lemma list_ind3 {A} (P : list A -> Prop) :
  P [] -> (forall a, P [a]) -> (forall a b, P [a; b]) ->
  (forall a b c l, P l -> P (a :: b :: c :: l)) ->
  forall l, P l.
Proof.
  intros H0 H1 H2 H3. fix IH 1.
  intros [|a [|b [|c l]]]; [exact H0 | apply H1 | apply H2 | apply H3, IH].
Qed.

Lemma sextets_range l : Bytes.is_bytes l -> Forall is_sextet (Base64.sextets l).
Proof.
  unfold Bytes.is_bytes, Bytes.is_byte, is_sextet.
  induction l as [|a|a b|a b c l IH] using list_ind3; intros H; cbn [Base64.sextets];
    bytes_of H; repeat (constructor; [cbv beta; divmod|]); auto.
Qed.

Lemma unsextets_sextets l :
  Bytes.is_bytes l -> Base64.unsextets (Base64.sextets l) = l.
Proof.
  unfold Bytes.is_bytes, Bytes.is_byte.
  induction l as [|a|a b|a b c l IH] using list_ind3; intros H;
    cbn [Base64.sextets Base64.unsextets]; bytes_of H;
    rewrite ?IH by assumption;
    repeat (f_equal; try divmod).
Qed.

Lemma index_of_char_of s : is_sextet s -> Base64.index_of (Base64.char_of s) = s.
Proof.
  intros Hs.
  assert (Hall : forallb (fun s => Base64.index_of (Base64.char_of s) =? s) (seqZ 0 64)
                 = true) by (vm_compute; reflexivity).
  rewrite forallb_forall in Hall. apply Z.eqb_eq, Hall.
  apply list_elem_of_In, elem_of_seqZ. unfold is_sextet in Hs. lia.
Qed.

Lemma map_char_of_inj l1 l2 :
  Forall is_sextet l1 -> Forall is_sextet l2 ->
  map Base64.char_of l1 = map Base64.char_of l2 -> l1 = l2.
Proof.
  intros H1. revert l2. induction H1 as [|s l1 Hs _ IH]; intros [|t l2] H2 H;
    try discriminate; [reflexivity|].
  inversion_clear H2 as [|? ? Ht Hl2]. cbn [map] in H. injection H as Hc Hl.
  f_equal; [|now apply IH].
  rewrite <- (index_of_char_of s Hs), <- (index_of_char_of t Ht). now f_equal.
Qed.

Lemma EncodeToString_inj l1 l2 :
  Bytes.is_bytes l1 -> Bytes.is_bytes l2 ->
  Base64.RawURLEncoding_EncodeToString l1 = Base64.RawURLEncoding_EncodeToString l2 ->
  l1 = l2.
Proof.
  intros H1 H2 H. unfold Base64.RawURLEncoding_EncodeToString in H.
  apply (f_equal list_ascii_of_string) in H.
  rewrite !list_ascii_of_string_of_list_ascii in H.
  apply map_char_of_inj in H; [|now apply sextets_range..].
  rewrite <- (unsextets_sextets l1 H1), <- (unsextets_sextets l2 H2). now f_equal.
Qed.

(** *** The digest is 32 bytes *)

Lemma Sum256_length msg : length (Sha256.Sum256 msg) = 32%nat.
Proof.
  unfold Sha256.Sum256.
  destruct (Sha256.process _ _ _) as [[[[[[[a b] c] d] e] f] g] h].
  reflexivity.
Qed.

Lemma Sum256_bytes msg : Bytes.is_bytes (Sha256.Sum256 msg).
Proof.
  unfold Sha256.Sum256.
  destruct (Sha256.process _ _ _) as [[[[[[[a b] c] d] e] f] g] h].
  unfold Sha256.bytes_of_state, Sha256.word_bytes, Bytes.is_bytes, Bytes.is_byte.
  cbn [app]. repeat constructor; apply Z.mod_pos_bound; lia.
Qed.

(** *** Counting: more messages than digests *)

Section Counting.

Context {A : Type}.

Lemma length_flat_map_cons (al : list A) (L : list (list A)) :
  length (flat_map (fun a => map (cons a) L) al) = (length al * length L)%nat.
Proof.
  induction al as [|a al IH]; [reflexivity|].
  cbn [flat_map length]. rewrite length_app, length_map, IH. lia.
Qed.

Lemma all_lists_length (al : list A) n :
  length (Bytes.all_lists al n) = (length al ^ n)%nat.
Proof.
  induction n as [|n IH]; [reflexivity|].
  cbn [Bytes.all_lists]. now rewrite length_flat_map_cons, IH, Nat.pow_succ_r'.
Qed.

Lemma elem_of_all_lists (al : list A) n l :
  l ∈ Bytes.all_lists al n <-> length l = n /\ Forall (fun x => x ∈ al) l.
Proof.
  revert l. induction n as [|n IH]; intros l; cbn [Bytes.all_lists].
  - rewrite list_elem_of_singleton. split.
    + intros ->. auto.
    + intros [Hl _]. now destruct l.
  - rewrite list_elem_of_In, in_flat_map. split.
    + intros (a & Ha & Hl). apply in_map_iff in Hl. destruct Hl as (t & <- & Ht).
      apply list_elem_of_In, IH in Ht. destruct Ht as [Hlen Hall].
      split; [cbn; lia|]. constructor; [now apply list_elem_of_In | assumption].
    + intros [Hlen Hall]. destruct l as [|a t]; [discriminate|].
      inversion_clear Hall as [|? ? Ha Ht]. exists a.
      split; [now apply list_elem_of_In|]. apply in_map, list_elem_of_In, IH.
      split; [cbn in Hlen; lia | assumption].
Qed.

Lemma NoDup_flat_map_cons (al : list A) (L : list (list A)) :
  NoDup al -> NoDup L -> NoDup (flat_map (fun a => map (cons a) L) al).
Proof.
  intros Hal HL. induction Hal as [|a al Ha _ IHal]; cbn [flat_map].
  - constructor.
  - apply NoDup_app. split; [|split].
    + apply NoDup_fmap_2; [|exact HL]. intros x y [= ->]. reflexivity.
    + intros l Hl Hl'. apply list_elem_of_fmap in Hl. destruct Hl as (t & -> & _).
      apply list_elem_of_In, in_flat_map in Hl'. destruct Hl' as (a' & Ha' & Hl').
      apply in_map_iff in Hl'. destruct Hl' as (t' & [= <- _] & _).
      apply Ha. now apply list_elem_of_In.
    + exact IHal.
Qed.

Lemma NoDup_all_lists (al : list A) n : NoDup al -> NoDup (Bytes.all_lists al n).
Proof.
  intros Hal. induction n as [|n IH]; cbn [Bytes.all_lists].
  - apply NoDup_singleton.
  - now apply NoDup_flat_map_cons.
Qed.

(** No function from a list without repetition into a shorter list is
    injective. *)
Lemma no_injection {B : Type} (f : A -> B) (dom : list A) (cod : list B) :
  NoDup dom ->
  (forall x, x ∈ dom -> f x ∈ cod) ->
  (length cod < length dom)%nat ->
  ~ (forall x y, x ∈ dom -> y ∈ dom -> f x = f y -> x = y).
Proof.
  intros Hdom Hcod Hlen Hinj.
  assert (Hnd : NoDup (f <$> dom)) by now apply NoDup_fmap_2_strong.
  assert (Hle : (length (f <$> dom) <= length cod)%nat).
  { apply NoDup_incl_length.
    - now apply NoDup_ListNoDup.
    - intros y Hy. apply list_elem_of_In. apply list_elem_of_In in Hy.
      apply list_elem_of_fmap in Hy. destruct Hy as (x & -> & Hx). now apply Hcod. }
  rewrite length_fmap in Hle. lia.
Qed.

End Counting.

Lemma byte_values_spec b : b ∈ byte_values <-> Bytes.is_byte b.
Proof. unfold byte_values, Bytes.is_byte. rewrite elem_of_seqZ. lia. Qed.

Lemma all_lists_bytes n l :
  l ∈ Bytes.all_lists byte_values n <-> length l = n /\ Bytes.is_bytes l.
Proof.
  rewrite elem_of_all_lists. unfold Bytes.is_bytes.
  split; intros [Hl Hall]; (split; [exact Hl|]);
    (eapply Forall_impl; [exact Hall|]); intros b; apply byte_values_spec.
Qed.

(** Two different messages of 33 bytes cannot all have different digests. *)
Lemma Sum256_not_injective :
  ~ (forall x y : list Z,
        Bytes.is_bytes x -> Bytes.is_bytes y ->
        Sha256.Sum256 x = Sha256.Sum256 y -> x = y).
Proof.
  intros Hinj.
  apply (no_injection Sha256.Sum256 (Bytes.all_lists byte_values 33)
           (Bytes.all_lists byte_values 32)).
  - apply NoDup_all_lists, NoDup_seqZ.
  - intros x _. apply all_lists_bytes. split; [apply Sum256_length | apply Sum256_bytes].
  - rewrite !all_lists_length. apply Nat.pow_lt_mono_r.
    + unfold byte_values. rewrite length_seqZ. lia.
    + lia.
  - intros x y Hx Hy. apply all_lists_bytes in Hx, Hy. apply Hinj; tauto.
Qed.

(** *** The round trip *)

Lemma challenge_of_inj V V' :
  challenge_of V' = challenge_of V
  <-> Sha256.Sum256 (Bytes.of_string V') = Sha256.Sum256 (Bytes.of_string V).
Proof.
  unfold challenge_of. split; [|now intros ->].
  apply EncodeToString_inj; apply Sum256_bytes.
Qed.

(** C3, as stated, fails: the digest has 32 bytes, so two different
    verifiers share a challenge, and [VerifyPKCE] accepts either of them
    for the flow state of the other; it cannot refuse every verifier that
    differs from the one the challenge was made from. *)
Lemma VerifyPKCE_accepts_a_colliding_verifier :
  ~ (forall (f : FlowState) (V V' : string),
        CodeChallengeMethod f = "s256" ->
        CodeChallenge f = challenge_of V ->
        V' <> V ->
        VerifyPKCE f V' = mismatch).
Proof.
  intros Hclaim. apply Sum256_not_injective. intros x y Hx Hy Hxy.
  destruct (decide (x = y)) as [|Hne]; [assumption|exfalso].
  assert (Hstr : Bytes.to_string y <> Bytes.to_string x).
  { intros E. apply Hne.
    rewrite <- (of_to_string x Hx), <- (of_to_string y Hy). now rewrite E. }
  specialize (Hclaim (s256_flow (challenge_of (Bytes.to_string x)))
                (Bytes.to_string x) (Bytes.to_string y) eq_refl eq_refl Hstr).
  rewrite VerifyPKCE_s256 in Hclaim by reflexivity.
  change (CodeChallenge (s256_flow ?c)) with c in Hclaim.
  fold (challenge_of (Bytes.to_string y)) in Hclaim.
  assert (Hsame : challenge_of (Bytes.to_string x) = challenge_of (Bytes.to_string y)).
  { apply challenge_of_inj. now rewrite !of_to_string by assumption. }
  rewrite Hsame, String.eqb_refl in Hclaim. discriminate.
Qed.

(** C3, amended. For a flow state with method s256 whose challenge is the
    unpadded base64url encoding of SHA-256(V), [VerifyPKCE] succeeds with
    V and, for any other verifier, returns the mismatch error exactly when
    the SHA-256 digest of that verifier differs from the digest of V.  For
    method plain it succeeds exactly when the verifier is the stored
    challenge and returns the mismatch error otherwise; any other method
    gives the unsupported-method error. *)
Theorem VerifyPKCE_round_trip :
  (forall (f : FlowState) (V : string),
      CodeChallengeMethod f = "s256" ->
      CodeChallenge f = challenge_of V ->
      VerifyPKCE f V = None
      /\ forall V',
           (Sha256.Sum256 (Bytes.of_string V') <> Sha256.Sum256 (Bytes.of_string V)
            -> VerifyPKCE f V' = mismatch)
           /\ (Sha256.Sum256 (Bytes.of_string V') = Sha256.Sum256 (Bytes.of_string V)
               -> VerifyPKCE f V' = None))
  /\ (forall (f : FlowState) (v : string),
         CodeChallengeMethod f = "plain" ->
         (v = CodeChallenge f -> VerifyPKCE f v = None)
         /\ (v <> CodeChallenge f -> VerifyPKCE f v = mismatch))
  /\ (forall (f : FlowState) (v : string),
         CodeChallengeMethod f <> "s256" ->
         CodeChallengeMethod f <> "plain" ->
         VerifyPKCE f v = Some (PlainError InvalidCodeMethodError)).
Proof.
  split; [|split].
  - intros f V Hm Hc.
    assert (Hdec : forall V', VerifyPKCE f V'
                   = if String.eqb (challenge_of V) (challenge_of V') then None
                     else mismatch).
    { intros V'. rewrite (VerifyPKCE_s256 f V' Hm), Hc. reflexivity. }
    split; [now rewrite Hdec, String.eqb_refl|].
    intros V'. rewrite Hdec. split; intros H.
    + destruct (String.eqb_spec (challenge_of V) (challenge_of V')) as [E|E];
        [|reflexivity].
      symmetry in E. apply challenge_of_inj in E. contradiction.
    + apply challenge_of_inj in H. now rewrite H, String.eqb_refl.
  - intros f v Hm. rewrite (VerifyPKCE_plain f v Hm). split.
    + intros ->. now rewrite String.eqb_refl.
    + intros Hne. destruct (String.eqb_spec (CodeChallenge f) v) as [E|E];
        [now contradiction Hne | reflexivity].
  - intros f v H1 H2. unfold VerifyPKCE. cbn [CodeChallengeMethod_String].
    apply String.eqb_neq in H1, H2. now rewrite H1, H2.
Qed.

Lemma VerifyPKCE_round_trip_witness :
  VerifyPKCE (s256_flow rfc7636_challenge) rfc7636_verifier = None
  /\ VerifyPKCE (s256_flow rfc7636_challenge) "not-the-verifier" = mismatch.
Proof.
  destruct VerifyPKCE_round_trip as [Hs256 _].
  destruct (Hs256 (s256_flow rfc7636_challenge) rfc7636_verifier) as [Hok Hother].
  - reflexivity.
  - vm_compute. reflexivity.
  - split; [exact Hok|]. apply Hother.
    intros H. vm_compute in H. discriminate H.
Defined.

End PKCE.

(** ** The sessions table *)

Section SessionStoreProps.

Import SessionModel SessionStore.

(** The order of the level names, as the [aal] column compares them, is
    the order of the levels. *)
Lemma aal_lt_level a b :
  aal_lt (AAL_String a) (AAL_String b) = (level a <? level b).
Proof. destruct a, b; reflexivity. Qed.

Lemma InvalidateSessions_lookup_Some m u l k s :
  InvalidateSessionsWithAALLessThan m u l !! k = Some s
  <-> m !! k = Some s /\ ~ (UserID s = u /\ aal_lt (AAL s) l = true).
Proof.
  unfold InvalidateSessionsWithAALLessThan.
  rewrite map_lookup_filter_Some. cbn [fst snd]. tauto.
Qed.

Lemma InvalidateSessions_lookup_None m u l k s :
  m !! k = Some s ->
  InvalidateSessionsWithAALLessThan m u l !! k = None
  <-> UserID s = u /\ aal_lt (AAL s) l = true.
Proof.
  intros Hk. unfold InvalidateSessionsWithAALLessThan.
  rewrite map_lookup_filter_None. cbn [fst snd]. split.
  - intros [H|H]; [congruence|]. specialize (H s Hk).
    destruct (decide (UserID s = u)) as [Hu|Hu]; [|tauto].
    destruct (aal_lt (AAL s) l); [tauto|]. exfalso. apply H. intros [_ ?]. discriminate.
  - intros H. right. intros s' Hs'. rewrite Hk in Hs'. injection Hs' as <-. tauto.
Qed.

(** X13. [InvalidateSessionsWithAALLessThan], called with the name of a
    level, deletes the sessions of the user whose level is strictly below
    it, and no other row: a session of another user, and a session of the
    user at that level or above, stay as they are. *)
Theorem InvalidateSessions_by_level
    (m : gmap UUID Session) (u : UUID) (bound : AuthenticatorAssuranceLevel)
    (k : UUID) (s : Session) (a : AuthenticatorAssuranceLevel) :
  m !! k = Some s ->
  AAL s = AAL_String a ->
  (UserID s = u /\ level a < level bound ->
     InvalidateSessionsWithAALLessThan m u (AAL_String bound) !! k = None)
  /\ (UserID s <> u \/ level bound <= level a ->
      InvalidateSessionsWithAALLessThan m u (AAL_String bound) !! k = Some s).
Proof.
  intros Hk Ha. split.
  - intros [Hu Hlt]. apply (InvalidateSessions_lookup_None m u _ k s Hk).
    split; [exact Hu|]. rewrite Ha, aal_lt_level. now apply Z.ltb_lt.
  - intros Hkeep. apply InvalidateSessions_lookup_Some. split; [exact Hk|].
    intros [Hu Hlt]. rewrite Ha, aal_lt_level in Hlt. apply Z.ltb_lt in Hlt.
    destruct Hkeep; [contradiction | lia].
Qed.

Lemma InvalidateSessions_by_level_witness :
  InvalidateSessionsWithAALLessThan two_users "alice" (AAL_String AAL2) !! "s1" = None
  /\ InvalidateSessionsWithAALLessThan two_users "alice" (AAL_String AAL2) !! "s3"
     = Some (mkSession "s3" "bob" (Some uuid_Nil) [] "aal1").
Proof.
  split.
  - apply (InvalidateSessions_by_level two_users "alice" AAL2 "s1"
             (mkSession "s1" "alice" (Some uuid_Nil) [] "aal1") AAL1).
    + vm_compute. reflexivity.
    + reflexivity.
    + split; [reflexivity | cbn; lia].
  - apply (InvalidateSessions_by_level two_users "alice" AAL2 "s3"
             (mkSession "s3" "bob" (Some uuid_Nil) [] "aal1") AAL1).
    + vm_compute. reflexivity.
    + reflexivity.
    + left. discriminate.
Defined.

(** X14. The composition [VerifyFactor] relies on: once a session of the
    user has been raised to aal2 by [UpdateAssociatedFactorAndAAL], the
    sweep [InvalidateSessionsWithAALLessThan (aal2)] keeps its row, with
    the new factor and level, and deletes every other session of the user
    that is still at aal1. *)
Theorem UpdateAssociatedFactorAndAAL_survives_sweep
    (m : gmap UUID Session) (s row : Session) (factorID : option UUID) :
  m !! ID s = Some row ->
  let '(s', m', err) :=
    UpdateAssociatedFactorAndAAL None m s factorID (AAL_String AAL2) in
  err = None
  /\ FactorID s' = factorID
  /\ InvalidateSessionsWithAALLessThan m' (UserID s) (AAL_String AAL2) !! ID s
     = Some (mkSession (ID s) (UserID s) factorID (AMRClaims row) (AAL_String AAL2))
  /\ forall k o, k <> ID s -> m !! k = Some o -> UserID o = UserID s ->
                 AAL o = AAL_String AAL1 ->
                 InvalidateSessionsWithAALLessThan m' (UserID s) (AAL_String AAL2) !! k = None.
Proof.
  intros Hrow. unfold UpdateAssociatedFactorAndAAL. rewrite Hrow.
  split; [reflexivity|]. split; [reflexivity|]. split.
  - apply InvalidateSessions_lookup_Some. split; [apply lookup_insert_eq|].
    cbn. intros [_ H]. discriminate.
  - intros k o Hk Ho Hu Ha.
    apply (InvalidateSessions_lookup_None _ _ _ k o).
    + rewrite lookup_insert_ne by congruence. exact Ho.
    + split; [exact Hu|]. rewrite Ha. reflexivity.
Qed.

Lemma UpdateAssociatedFactorAndAAL_survives_sweep_witness :
  let '(s', m', err) :=
    UpdateAssociatedFactorAndAAL None two_users
      (mkSession "s1" "alice" (Some uuid_Nil) [] "aal1") (Some "f1") (AAL_String AAL2) in
  err = None
  /\ FactorID s' = Some "f1"
  /\ InvalidateSessionsWithAALLessThan m' "alice" (AAL_String AAL2) !! "s1"
     = Some (mkSession "s1" "alice" (Some "f1") [] "aal2")
  /\ forall k o, k <> "s1" -> two_users !! k = Some o -> UserID o = "alice" ->
                 AAL o = AAL_String AAL1 ->
                 InvalidateSessionsWithAALLessThan m' "alice" (AAL_String AAL2) !! k = None.
Proof.
  apply (UpdateAssociatedFactorAndAAL_survives_sweep two_users
           (mkSession "s1" "alice" (Some uuid_Nil) [] "aal1")
           (mkSession "s1" "alice" (Some uuid_Nil) [] "aal1") (Some "f1")).
  vm_compute. reflexivity.
Defined.

Lemma Logout_lookup_Some m u k s :
  fst (Logout None m u) !! k = Some s <-> m !! k = Some s /\ UserID s <> u.
Proof. cbn. rewrite map_lookup_filter_Some. cbn [fst snd]. tauto. Qed.

(** [Logout] leaves no session of the user and keeps every session of
    the others; it deletes whatever a sweep by level deletes, so a sweep
    followed by [Logout] is [Logout]. *)
Lemma Logout_subsumes_sweep (m : gmap UUID Session) (u : UUID) (lvl : string) :
  (forall k s, fst (Logout None m u) !! k = Some s -> UserID s <> u)
  /\ (forall k s, m !! k = Some s -> UserID s <> u ->
                  fst (Logout None m u) !! k = Some s)
  /\ fst (Logout None m u) ⊆ InvalidateSessionsWithAALLessThan m u lvl
  /\ fst (Logout None (InvalidateSessionsWithAALLessThan m u lvl) u)
     = fst (Logout None m u).
Proof.
  split; [|split; [|split]].
  - intros k s H. apply Logout_lookup_Some in H. tauto.
  - intros k s Hk Hu. apply Logout_lookup_Some. tauto.
  - apply map_subseteq_spec. intros k s H. apply Logout_lookup_Some in H.
    apply InvalidateSessions_lookup_Some. tauto.
  - apply map_eq. intros k. apply option_eq. intros s.
    rewrite !Logout_lookup_Some, InvalidateSessions_lookup_Some. tauto.
Qed.

(** X15. [updateFactorAssociatedSessions] deletes no row and adds none; the
    sessions of the user that were tied to the factor get the level given
    and the nil factor, every other row stays as it is; so, for a factor
    other than the nil one, no session of the user is tied to it any more. *)
Theorem updateFactorAssociatedSessions_detaches
    (m : gmap UUID Session) (u f : UUID) (aal : string) :
  f <> uuid_Nil ->
  let m' := fst (updateFactorAssociatedSessions None m u f aal) in
  dom m' = dom m
  /\ (forall k s, m' !! k = Some s -> UserID s = u -> FactorID s <> Some f)
  /\ (forall k s, m !! k = Some s -> UserID s = u -> FactorID s = Some f ->
                  m' !! k = Some (mkSession (ID s) u (Some uuid_Nil) (AMRClaims s) aal))
  /\ (forall k s, m !! k = Some s -> UserID s <> u \/ FactorID s <> Some f ->
                  m' !! k = Some s).
Proof.
  intros Hf. cbn. split; [apply dom_fmap_L|]. split; [|split].
  - intros k s. rewrite lookup_fmap. destruct (m !! k) as [s0|]; [|discriminate].
    cbn. destruct (decide _) as [[Hu Hs]|Hno]; intros [= <-]; cbn.
    + intros _ [= E]. congruence.
    + intros Hu Hs. apply Hno. now split.
  - intros k s Hk Hu Hs. rewrite lookup_fmap, Hk. cbn.
    destruct (decide _) as [_|Hno]; [now rewrite Hu|]. exfalso. apply Hno. now split.
  - intros k s Hk Hor. rewrite lookup_fmap, Hk. cbn.
    destruct (decide _) as [[Hu Hs]|_]; [|reflexivity]. tauto.
Qed.

Lemma updateFactorAssociatedSessions_detaches_witness :
  let m' := fst (updateFactorAssociatedSessions None two_users "alice" "f1" "aal1") in
  dom m' = dom two_users
  /\ (forall k s, m' !! k = Some s -> UserID s = "alice" -> FactorID s <> Some "f1")
  /\ (forall k s, two_users !! k = Some s -> UserID s = "alice" -> FactorID s = Some "f1" ->
                  m' !! k = Some (mkSession (ID s) "alice" (Some uuid_Nil) (AMRClaims s) "aal1"))
  /\ (forall k s, two_users !! k = Some s -> UserID s <> "alice" \/ FactorID s <> Some "f1" ->
                  m' !! k = Some s).
Proof.
  apply (updateFactorAssociatedSessions_detaches two_users "alice" "f1" "aal1").
  vm_compute. discriminate.
Defined.

Lemma LogoutSession_insert m id s :
  keyed m -> m !! id = None -> ID s = id ->
  fst (LogoutSession None (<[id := s]> m) id) = m.
Proof.
  intros Hkeyed Hid Hs. cbn. apply map_eq. intros k. apply option_eq. intros o.
  rewrite map_lookup_filter_Some. cbn [fst snd]. split.
  - intros [Hk Hne]. destruct (decide (k = id)) as [->|Hki].
    + rewrite lookup_insert_eq in Hk. injection Hk as <-. now contradiction Hne.
    + now rewrite lookup_insert_ne in Hk by congruence.
  - intros Hk. assert (Hki : k <> id) by congruence. split.
    + now rewrite lookup_insert_ne by congruence.
    + rewrite (Hkeyed k o Hk). exact Hki.
Qed.

(** X16. A session made by [CreateSession] is at aal1, carries the nil
    factor and no claim, and [CalculateAALAndAMR] computes the level that
    is stored; [FindSessionById] finds it under its identifier, and no
    longer once [LogoutSession] has deleted it. *)
Theorem CreateSession_then_find
    (m m' : gmap UUID Session) (id user : UUID) (s : Session) :
  keyed m ->
  CreateSession (inr id) None m user = (m', inr s) ->
  s = mkSession id user (Some uuid_Nil) [] (AAL_String AAL1)
  /\ m !! id = None
  /\ CalculateAALAndAMR s = (AAL s, [])
  /\ FindSessionById None m' id = inr s
  /\ FindSessionById None (fst (LogoutSession None m' id)) id = inl SessionNotFoundError
  /\ fst (LogoutSession None m' id) = m.
Proof.
  intros Hkeyed. unfold CreateSession, MFA_CreateSession, NewSession, Create.
  cbn [ID]. destruct (m !! id) eqn:Hid; [discriminate|].
  intros [= <- <-]. split; [reflexivity|]. split; [reflexivity|].
  split; [reflexivity|]. split.
  { unfold FindSessionById. now rewrite lookup_insert_eq. }
  rewrite LogoutSession_insert by (assumption || reflexivity).
  split; [|reflexivity].
  unfold FindSessionById. now rewrite Hid.
Qed.

Lemma CreateSession_then_find_witness :
  let r := CreateSession (inr "s4") None two_users "bob" in
  FindSessionById None (fst r) "s4"
  = inr (mkSession "s4" "bob" (Some uuid_Nil) [] "aal1")
  /\ fst (LogoutSession None (fst r) "s4") = two_users.
Proof.
  cbv zeta.
  destruct (CreateSession_then_find two_users
              (fst (CreateSession (inr "s4") None two_users "bob")) "s4" "bob"
              (mkSession "s4" "bob" (Some uuid_Nil) [] "aal1"))
    as (_ & _ & _ & Hfind & _ & Hdel).
  - intros k s Hk. unfold two_users in Hk.
    repeat (apply lookup_insert_Some in Hk; destruct Hk as [[<- <-]|[_ Hk]];
            [reflexivity|]).
    apply lookup_singleton_Some in Hk. destruct Hk as [<- <-]. reflexivity.
  - vm_compute. reflexivity.
  - split; assumption.
Defined.

End SessionStoreProps.

(** ** MFA endpoints: what a request does to the tables *)

Section MFAEffects.

Import Http MFA.

Lemma Transaction_commit db fn db' :
  Transaction db fn = (db', None) -> fn db = (db', None).
Proof.
  unfold Transaction. destruct (fn db) as [d [e|]]; intros [= <-]; reflexivity.
Qed.

Lemma Transaction_failed db fn db' e :
  Transaction db fn = (db', Some e) -> db' = db.
Proof.
  unfold Transaction. destruct (fn db) as [d [e'|]]; intros [= <- _]; reflexivity || discriminate.
Qed.

(** What a committed run of the last transaction of [VerifyFactor] did. *)
Lemma verifyTx_committed env user factor c tx tx' :
  verifyTx env user factor c tx = (tx', None) ->
  exists tx4,
    issueRefreshToken env
      (mkDB (<[c_ID c := stamped c (now env)]> (challenges tx))
            (if String.eqb (f_Status factor) FactorVerifiedState then factors tx
             else <[f_ID factor := verified factor]> (factors tx))
            (sessions tx)
            (audit_log tx ++ [mkAuditLogEntry user "verify_factor"
                                [("factor_id", f_ID factor); ("challenge_id", c_ID c)]])%list)
      user (f_ID factor) = inr tx4
    /\ tx' = mkDB (challenges tx4) (factors tx4)
                  (SessionModel.InvalidateSessionsWithAALLessThan (sessions tx4) user "aal2")
                  (audit_log tx4).
Proof.
  unfold verifyTx, NewAuditLogEntry, Challenge_Verify, Factor_UpdateStatus,
    InvalidateSessionsWithAALLessThan, stamped, verified.
  destruct (auditLogErr env); [discriminate|].
  destruct (verifyChallengeErr env); [discriminate|].
  destruct (String.eqb (f_Status factor) FactorVerifiedState); cbn [negb].
  - destruct (issueRefreshToken env _ user (f_ID factor)) as [?|tx4] eqn:E; [discriminate|].
    destruct (setCookieTokensErr env); [discriminate|].
    destruct (invalidateSessionsErr env); [discriminate|].
    intros [= <-]. exists tx4. split; [first [exact E | reflexivity] | reflexivity].
  - destruct (updateStatusErr env); [discriminate|].
    destruct (issueRefreshToken env _ user (f_ID factor)) as [?|tx4] eqn:E; [discriminate|].
    destruct (setCookieTokensErr env); [discriminate|].
    destruct (invalidateSessionsErr env); [discriminate|].
    intros [= <-]. exists tx4. split; [first [exact E | reflexivity] | reflexivity].
Qed.

(** A success of [VerifyFactor] is a committed run of its last
    transaction, on a challenge that was found, not verified, not expired,
    and with a code that validates. *)
Lemma VerifyFactor_success_inv env db user factor body db' :
  VerifyFactor env db user factor body = (db', None) ->
  exists params c,
    body = inr params
    /\ challenges db !! vp_ChallengeID params = Some c
    /\ c_VerifiedAt c = None
    /\ totpValidate env (vp_Code params) (f_TOTPSecret factor) = true
    /\ hasExpired env c = false
    /\ verifyTx env user factor c db = (db', None).
Proof.
  unfold VerifyFactor. destruct body as [err|params]; [discriminate|].
  unfold FindChallengeByChallengeID.
  destruct (findChallengeErr env) as [e|].
  { destruct (IsNotFoundError e); discriminate. }
  destruct (challenges db !! vp_ChallengeID params) as [c|] eqn:Hrow; [|discriminate].
  destruct (c_VerifiedAt c) eqn:Hver; [discriminate|].
  destruct (totpValidate env (vp_Code params) (f_TOTPSecret factor)) eqn:Hcode;
    [|discriminate].
  cbn [negb]. destruct (hasExpired env c) eqn:Hexp.
  { destruct (Transaction db _) as [? [?|]]; discriminate. }
  destruct (Transaction db (verifyTx env user factor c)) as [d [e|]] eqn:Htx;
    [discriminate|].
  intros [= <- _]. apply Transaction_commit in Htx.
  exists params, c. repeat split; assumption.
Qed.

(** X1. [VerifyFactor] succeeds only on a code that validates against the
    secret of the factor, for a challenge that is in the table, not yet
    verified and not expired; and after a success no session of the user
    is left whose assurance level is below aal2, whatever issuing the
    refresh token did to the sessions table. *)
Theorem VerifyFactor_success_sound
    (env : Env) (db db' : DB) (user : UUID) (factor : Factor)
    (body : Http.error + VerifyFactorParams) :
  VerifyFactor env db user factor body = (db', None) ->
  (exists params c,
      body = inr params
      /\ challenges db !! vp_ChallengeID params = Some c
      /\ c_VerifiedAt c = None
      /\ totpValidate env (vp_Code params) (f_TOTPSecret factor) = true
      /\ now env <= c_CreatedAt c + expiryDuration env)
  /\ forall k s, sessions db' !! k = Some s ->
                 SessionModel.UserID s = user ->
                 SessionModel.aal_lt (SessionModel.AAL s) "aal2" = false.
Proof.
  intros H. apply VerifyFactor_success_inv in H.
  destruct H as (params & c & Hb & Hrow & Hver & Hcode & Hexp & Htx). split.
  - exists params, c. repeat split; try assumption.
    unfold hasExpired, GoTime.Add in Hexp. now apply After_false in Hexp.
  - intros k s Hk Hu.
    apply verifyTx_committed in Htx. destruct Htx as (tx4 & _ & ->).
    cbn [sessions] in Hk. apply InvalidateSessions_lookup_Some in Hk.
    destruct Hk as [_ Hno].
    destruct (SessionModel.aal_lt (SessionModel.AAL s) "aal2"); [|reflexivity].
    exfalso. apply Hno. now split.
Qed.

Lemma VerifyFactor_success_sound_witness :
  let r := VerifyFactor (sample_env 1000) foreign_db "user-1" unverified_factor
             verify_foreign in
  snd r = None
  /\ sessions (fst r) !! "session-1" = None
  /\ forall k s, sessions (fst r) !! k = Some s ->
                 SessionModel.UserID s = "user-1" ->
                 SessionModel.aal_lt (SessionModel.AAL s) "aal2" = false.
Proof.
  cbv zeta. split; [vm_compute; reflexivity|]. split; [vm_compute; reflexivity|].
  apply (VerifyFactor_success_sound (sample_env 1000) foreign_db _ "user-1"
           unverified_factor verify_foreign).
  vm_compute. reflexivity.
Defined.

Lemma sample_env_faultless t : faultless (sample_env t).
Proof.
  unfold faultless. repeat (split; [reflexivity|]).
  intros d u f. exists d. repeat split.
Qed.

(** The last transaction of [VerifyFactor] when nothing fails. *)
Lemma verifyTx_faultless env user factor c tx :
  faultless env ->
  exists tx',
    verifyTx env user factor c tx = (tx', None)
    /\ challenges tx' = <[c_ID c := stamped c (now env)]> (challenges tx)
    /\ factors tx'
       = (if String.eqb (f_Status factor) FactorVerifiedState then factors tx
          else <[f_ID factor := verified factor]> (factors tx)).
Proof.
  intros (_ & _ & Haudit & Hverify & Hupd & Hcookie & Hinv & _ & _ & Hissue).
  unfold verifyTx, NewAuditLogEntry, Challenge_Verify, Factor_UpdateStatus,
    InvalidateSessionsWithAALLessThan.
  rewrite Haudit, Hverify, Hupd, Hcookie, Hinv.
  destruct (String.eqb (f_Status factor) FactorVerifiedState); cbn [negb];
    match goal with |- context [issueRefreshToken env ?d user (f_ID factor)] =>
      destruct (Hissue d user (f_ID factor)) as (d' & -> & Hc & Hf) end;
    eexists; (split; [reflexivity|]); cbn [challenges factors]; rewrite Hc, Hf;
    split; reflexivity.
Qed.

(** A request with a code that validates, for a challenge that is neither
    verified nor expired, runs the last transaction. *)
Lemma VerifyFactor_runs_verifyTx env db user factor params c :
  findChallengeErr env = None ->
  challenges db !! vp_ChallengeID params = Some c ->
  c_VerifiedAt c = None ->
  totpValidate env (vp_Code params) (f_TOTPSecret factor) = true ->
  now env <= c_CreatedAt c + expiryDuration env ->
  VerifyFactor env db user factor (inr params)
  = match Transaction db (verifyTx env user factor c) with
    | (db', Some err) => (db', Some err)
    | (db', None) => (db', sendJSONErr env)
    end.
Proof.
  intros Hfind Hrow Hver Hcode Hexp.
  rewrite (VerifyFactor_unverified env db user factor params c Hfind Hrow Hver).
  rewrite Hcode. cbn [negb].
  assert (Hne : hasExpired env c = false).
  { unfold hasExpired, GoTime.Add. now apply After_false. }
  now rewrite Hne.
Qed.

(** X2. With a storage layer that does not fail, a code that validates
    against the secret of the factor of the request verifies any challenge
    that is not verified and not expired: the challenge is stamped with the
    current time and the factor becomes verified.  The factor the challenge
    was created for is not looked at. *)
Theorem VerifyFactor_success_effects
    (env : Env) (db : DB) (user : UUID) (factor : Factor)
    (params : VerifyFactorParams) (c : Challenge) :
  faultless env ->
  challenges db !! vp_ChallengeID params = Some c ->
  c_ID c = vp_ChallengeID params ->
  c_VerifiedAt c = None ->
  totpValidate env (vp_Code params) (f_TOTPSecret factor) = true ->
  now env <= c_CreatedAt c + expiryDuration env ->
  exists db',
    VerifyFactor env db user factor (inr params) = (db', None)
    /\ challenges db' !! vp_ChallengeID params = Some (stamped c (now env))
    /\ challenges db' = <[c_ID c := stamped c (now env)]> (challenges db)
    /\ factors db'
       = (if String.eqb (f_Status factor) FactorVerifiedState then factors db
          else <[f_ID factor := verified factor]> (factors db)).
Proof.
  intros Hok Hrow Hid Hver Hcode Hexp.
  destruct (verifyTx_faultless env user factor c db Hok) as (db' & Htx & Hc & Hf).
  destruct Hok as (Hfind & _ & _ & _ & _ & _ & _ & _ & Hsend & _).
  rewrite (VerifyFactor_runs_verifyTx env db user factor params c Hfind Hrow Hver Hcode Hexp).
  unfold Transaction. rewrite Htx, Hsend.
  exists db'. split; [reflexivity|]. split; [|split; assumption].
  rewrite Hc, Hid. apply lookup_insert_eq.
Qed.

Lemma VerifyFactor_success_effects_witness :
  exists db',
    VerifyFactor (sample_env 1000) foreign_db "user-1" unverified_factor
                 (inr (mkVerifyFactorParams "challenge-9" "123456")) = (db', None)
    /\ challenges db' !! "challenge-9"
       = Some (mkChallenge "challenge-9" "factor-2" 0 (Some 1000))
    /\ challenges db'
       = <[ "challenge-9" := mkChallenge "challenge-9" "factor-2" 0 (Some 1000) ]>
           (challenges foreign_db)
    /\ factors db' = <[ "factor-1" := verified unverified_factor ]> (factors foreign_db).
Proof.
  apply (VerifyFactor_success_effects (sample_env 1000) foreign_db "user-1"
           unverified_factor (mkVerifyFactorParams "challenge-9" "123456")
           (mkChallenge "challenge-9" "factor-2" 0 None)).
  - apply sample_env_faultless.
  - vm_compute. reflexivity.
  - reflexivity.
  - reflexivity.
  - reflexivity.
  - vm_compute. discriminate.
Defined.

(** X3. [VerifyFactor] does not look at the other factors of the user: when
    the user holds a verified factor already, verifying a challenge with
    the code of a second, unverified factor succeeds and leaves the user
    with two verified factors. *)
Theorem VerifyFactor_second_verified_factor
    (env : Env) (db : DB) (user : UUID) (factor g : Factor)
    (params : VerifyFactorParams) (c : Challenge) :
  faultless env ->
  challenges db !! vp_ChallengeID params = Some c ->
  c_ID c = vp_ChallengeID params ->
  c_VerifiedAt c = None ->
  totpValidate env (vp_Code params) (f_TOTPSecret factor) = true ->
  now env <= c_CreatedAt c + expiryDuration env ->
  f_UserID factor = user ->
  f_Status factor <> FactorVerifiedState ->
  factors db !! f_ID g = Some g ->
  f_UserID g = user ->
  f_Status g = FactorVerifiedState ->
  f_ID g <> f_ID factor ->
  exists db' f',
    VerifyFactor env db user factor (inr params) = (db', None)
    /\ factors db' !! f_ID g = Some g
    /\ factors db' !! f_ID factor = Some f'
    /\ f_UserID f' = user
    /\ f_Status f' = FactorVerifiedState.
Proof.
  intros Hok Hrow Hid Hver Hcode Hexp Hu Hst Hg Hgu Hgs Hne.
  destruct (verifyTx_faultless env user factor c db Hok) as (db' & Htx & _ & Hf).
  destruct Hok as (Hfind & _ & _ & _ & _ & _ & _ & _ & Hsend & _).
  rewrite (VerifyFactor_runs_verifyTx env db user factor params c Hfind Hrow Hver Hcode Hexp).
  unfold Transaction. rewrite Htx, Hsend.
  apply String.eqb_neq in Hst. rewrite Hst in Hf.
  exists db', (verified factor). split; [reflexivity|]. rewrite Hf. split; [|split].
  - rewrite lookup_insert_ne by congruence. exact Hg.
  - apply lookup_insert_eq.
  - split; [exact Hu | reflexivity].
Qed.

Lemma VerifyFactor_second_verified_factor_witness :
  exists db' f',
    VerifyFactor (sample_env 1000) two_factor_db "user-1" second_factor
                 (inr (mkVerifyFactorParams "challenge-2" "123456")) = (db', None)
    /\ factors db' !! "factor-1" = Some sample_factor
    /\ factors db' !! "factor-2" = Some f'
    /\ f_UserID f' = "user-1"
    /\ f_Status f' = FactorVerifiedState.
Proof.
  apply (VerifyFactor_second_verified_factor (sample_env 1000) two_factor_db "user-1"
           second_factor sample_factor (mkVerifyFactorParams "challenge-2" "123456")
           (mkChallenge "challenge-2" "factor-2" 0 None)).
  - apply sample_env_faultless.
  - vm_compute. reflexivity.
  - reflexivity.
  - reflexivity.
  - reflexivity.
  - vm_compute. discriminate.
  - reflexivity.
  - vm_compute. discriminate.
  - vm_compute. reflexivity.
  - reflexivity.
  - reflexivity.
  - vm_compute. discriminate.
Defined.



Lemma VerifyFactor_twice_witness :
  let params := mkVerifyFactorParams "challenge-9" "123456" in
  let db' := fst (VerifyFactor (sample_env 1000) foreign_db "user-1" unverified_factor
                    (inr params)) in
  VerifyFactor (sample_env 1000) db' "user-1" unverified_factor (inr params)
  = (db', Some (badRequestError "Challenge has already been verified")).
Proof.
  cbv zeta.
  apply (VerifyFactor_twice (sample_env 1000) foreign_db _ "user-1" unverified_factor
           (mkVerifyFactorParams "challenge-9" "123456")
           (mkChallenge "challenge-9" "factor-2" 0 None)).
  - intros d u f d' H. cbn in H. now injection H as <-.
  - reflexivity.
  - vm_compute. reflexivity.
  - reflexivity.
  - vm_compute. reflexivity.
Defined.

(** ** [UnenrollFactor] *)

(** X6. The code of the request is looked at only when the factor is
    verified: unenrolling a factor that is not verified gives the same
    result whatever code is sent. *)
Theorem UnenrollFactor_unverified_ignores_code
    (env : Env) (db : DB) (user : UUID) (factor : Factor) (session : UUID)
    (params params' : UnenrollFactorParams) :
  f_Status factor <> FactorVerifiedState ->
  UnenrollFactor env db user factor session (inr params)
  = UnenrollFactor env db user factor session (inr params').
Proof.
  intros Hst. unfold UnenrollFactor. cbv zeta.
  apply String.eqb_neq in Hst. rewrite Hst. reflexivity.
Qed.

Lemma UnenrollFactor_unverified_ignores_code_witness :
  UnenrollFactor (sample_env 1000) foreign_db "user-1" unverified_factor "session-1"
                 (inr (mkUnenrollFactorParams "000000"))
  = UnenrollFactor (sample_env 1000) foreign_db "user-1" unverified_factor "session-1"
                   (inr (mkUnenrollFactorParams "123456")).
Proof.
  apply (UnenrollFactor_unverified_ignores_code (sample_env 1000) foreign_db "user-1"
           unverified_factor "session-1").
  vm_compute. discriminate.
Defined.

(** X7. [UnenrollFactor] is atomic.  When it succeeds, the factor row and
    the challenges of the factor are gone, the audit log has one more
    entry, the acting session is as it was and no session was added or
    changed; and if the factor was verified, the code of the request
    validated.  When it fails (the response writer apart), the tables are
    as they were. *)
Theorem UnenrollFactor_effects
    (env : Env) (db : DB) (user : UUID) (factor : Factor) (session : UUID)
    (params : UnenrollFactorParams) :
  let r := UnenrollFactor env db user factor session (inr params) in
  (snd r = None ->
   factors (fst r) = delete (f_ID factor) (factors db)
   /\ (forall k c, challenges (fst r) !! k = Some c -> c_FactorID c <> f_ID factor)
   /\ sessions (fst r) !! session = sessions db !! session
   /\ sessions (fst r) ⊆ sessions db
   /\ audit_log (fst r)
      = (audit_log db ++ [mkAuditLogEntry user "unenroll_factor"
                            [("user_id", user); ("factor_id", f_ID factor);
                             ("session_id", session)]])%list
   /\ (f_Status factor = FactorVerifiedState ->
       totpValidate env (up_Code params) (f_TOTPSecret factor) = true))
  /\ (sendJSONErr env = None -> snd r <> None -> fst r = db).
Proof.
  unfold UnenrollFactor. cbv zeta.
  destruct (String.eqb (f_Status factor) FactorVerifiedState && negb _) eqn:Hgate;
    [split; [discriminate | reflexivity]|].
  destruct (Transaction db _) as [d [e|]] eqn:Htx.
  { apply Transaction_failed in Htx. subst d. split; [discriminate | reflexivity]. }
  cbn [fst snd]. split; [|intros ->; congruence].
  intros _. apply Transaction_commit in Htx. revert Htx.
  unfold DestroyFactor, NewAuditLogEntry, InvalidateOtherFactorAssociatedSessions.
  destruct (destroyFactorErr env); [discriminate|].
  destruct (auditLogErr env); [discriminate|].
  destruct (invalidateSessionsErr env); [discriminate|].
  intros [= <-]. cbn [factors challenges sessions audit_log].
  split; [reflexivity|]. split; [|split; [|split; [|split]]].
  - intros k c Hc. apply map_lookup_filter_Some in Hc. exact (proj2 Hc).
  - destruct (sessions db !! session) as [s|] eqn:Hs.
    + apply map_lookup_filter_Some. split; [exact Hs|]. cbn [fst snd]. tauto.
    + apply map_lookup_filter_None. left. exact Hs.
  - apply map_filter_subseteq.
  - reflexivity.
  - intros Hst. rewrite Hst, String.eqb_refl in Hgate. cbn [andb] in Hgate.
    now apply negb_false_iff in Hgate.
Qed.

Lemma UnenrollFactor_effects_witness :
  factors (fst (UnenrollFactor (sample_env 1000) (sample_db None) "user-1" sample_factor
                  "session-1" (inr (mkUnenrollFactorParams "123456"))))
  = delete "factor-1" (factors (sample_db None))
  /\ fst (UnenrollFactor (audit_down 1000) (sample_db None) "user-1" sample_factor
            "session-1" (inr (mkUnenrollFactorParams "123456")))
     = sample_db None.
Proof.
  pose proof (UnenrollFactor_effects (sample_env 1000) (sample_db None) "user-1"
                sample_factor "session-1" (mkUnenrollFactorParams "123456")) as [Hok _].
  pose proof (UnenrollFactor_effects (audit_down 1000) (sample_db None) "user-1"
                sample_factor "session-1" (mkUnenrollFactorParams "123456")) as [_ Hfail].
  split.
  - assert (Hnil : snd (UnenrollFactor (sample_env 1000) (sample_db None) "user-1"
                          sample_factor "session-1"
                          (inr (mkUnenrollFactorParams "123456"))) = None)
      by (vm_compute; reflexivity).
    destruct (Hok Hnil) as [Hfactors _]. exact Hfactors.
  - apply Hfail; [reflexivity | vm_compute; discriminate].
Defined.

End MFAEffects.

(** ** Enrolling, challenging and deleting a factor *)

Section MFAEnrollProps.

Import Http MFA MFAEnroll.

Lemma FindVerifiedFactors_length env db user l :
  FindVerifiedFactorsByUser env db user = inr l ->
  (1 <=? length l)%nat = true <-> has_verified_factor db user.
Proof.
  unfold FindVerifiedFactorsByUser, has_verified_factor.
  destruct (findVerifiedFactorsErr env); [discriminate|]. intros [= <-].
  rewrite length_map. split.
  - intros H. apply Nat.leb_le in H.
    destruct (map_to_list _) as [|[k f] rest] eqn:E; [cbn in H; lia|].
    assert (Hin : (k, f) ∈ map_to_list
              (filter (fun kv => f_UserID (snd kv) = user
                                 /\ f_Status (snd kv) = FactorVerifiedState) (factors db)))
      by (rewrite E; left).
    apply elem_of_map_to_list, map_lookup_filter_Some in Hin.
    destruct Hin as [Hk [Hu Hs]]. exists k, f. auto.
  - intros (k & f & Hk & Hu & Hs). apply Nat.leb_le.
    assert (Hin : (k, f) ∈ map_to_list
              (filter (fun kv => f_UserID (snd kv) = user
                                 /\ f_Status (snd kv) = FactorVerifiedState) (factors db))).
    { apply elem_of_map_to_list, map_lookup_filter_Some. auto. }
    destruct (map_to_list _); [inversion Hin | cbn; lia].
Qed.

(** X8. [EnrollFactor] refuses with Forbidden, and writes nothing, whenever
    the user has a verified factor (the request being well formed and the
    lookup succeeding). *)
Theorem EnrollFactor_forbidden_with_verified_factor
    (env : EnrollEnv) (db : DB) (user : UUID) (params : EnrollFactorParams) :
  ep_FactorType params = TOTP ->
  ep_Issuer params <> EmptyString ->
  findVerifiedFactorsErr env = None ->
  has_verified_factor db user ->
  exists e, EnrollFactor env db user (inr params) = (db, inl e)
            /\ status_of e = Some StatusForbidden.
Proof.
  intros Hty Hiss Hfind Hver. unfold EnrollFactor.
  rewrite Hty, String.eqb_refl. cbn [negb].
  apply String.eqb_neq in Hiss. rewrite Hiss.
  destruct (FindVerifiedFactorsByUser env db user) as [e|l] eqn:Hl.
  { unfold FindVerifiedFactorsByUser in Hl. rewrite Hfind in Hl. discriminate. }
  apply (FindVerifiedFactors_length env db user l Hl) in Hver. rewrite Hver.
  eexists. split; reflexivity.
Qed.

Lemma EnrollFactor_forbidden_with_verified_factor_witness :
  exists e, EnrollFactor (sample_enroll_env 1000) (sample_db None) "user-1" enroll_request
            = (sample_db None, inl e)
            /\ status_of e = Some StatusForbidden.
Proof.
  apply (EnrollFactor_forbidden_with_verified_factor (sample_enroll_env 1000)
           (sample_db None) "user-1" (mkEnrollFactorParams "phone" "totp" "issuer")).
  - reflexivity.
  - discriminate.
  - reflexivity.
  - exists "factor-1", sample_factor.
    split; [vm_compute; reflexivity | split; reflexivity].
Defined.

(** What a successful [EnrollFactor] did: the user had no verified
    factor; one row was added to the factors table, under an identifier
    that was free, for a factor of the user that is not verified and whose
    secret is the one of the generated key, the one the response carries;
    the audit log has one more entry; challenges and sessions are as they
    were. *)
Lemma EnrollFactor_success_inv
    (env : EnrollEnv) (db db' : DB) (user : UUID)
    (body : Http.error + EnrollFactorParams) (resp : EnrollFactorResponse) :
  EnrollFactor env db user body = (db', inr resp) ->
  ~ has_verified_factor db user
  /\ factors db !! er_ID resp = None
  /\ (exists friendlyName,
        factors db'
        = <[er_ID resp := mkFactor (er_ID resp) user friendlyName TOTP
                                   FactorUnverifiedState (Secret (er_TOTP resp))]>
            (factors db))
  /\ audit_log db' = (audit_log db ++ [mkAuditLogEntry user EnrollFactorAction []])%list
  /\ challenges db' = challenges db
  /\ sessions db' = sessions db.
Proof.
  unfold EnrollFactor. destruct body as [err|params]; [discriminate|].
  destruct (String.eqb_spec (ep_FactorType params) TOTP) as [Hty|Hty];
    cbn [negb]; [|discriminate].
  destruct (if String.eqb (ep_Issuer params) EmptyString then _ else _) as [e|issuer];
    [discriminate|].
  destruct (FindVerifiedFactorsByUser env db user) as [e|l] eqn:Hl; [discriminate|].
  destruct (1 <=? length l)%nat eqn:Hlen; [discriminate|].
  destruct (totpGenerate env issuer (userEmail env)) as [e|key]; [discriminate|].
  destruct (writeQrSVG env (k_String key)) as [e|buf]; [discriminate|].
  unfold NewFactor. destruct (newFactorID env) as [e|id]; [discriminate|].
  destruct (Transaction db _) as [d [e|]] eqn:Htx; [discriminate|].
  destruct (sendJSONErr (base env)); [discriminate|].
  intros [= <- <-]. apply Transaction_commit in Htx. revert Htx.
  unfold CreateFactor, NewAuditLogEntry. cbn [f_ID f_TOTPSecret er_ID er_TOTP Secret].
  destruct (createErr env); [discriminate|].
  destruct (factors db !! id) eqn:Hid; [discriminate|].
  destruct (auditLogErr (base env)); [discriminate|].
  intros [= <-]. cbn [factors challenges sessions audit_log].
  split; [|split; [reflexivity|split; [|repeat split]]].
  - intros Hver. apply (FindVerifiedFactors_length env db user l Hl) in Hver. congruence.
  - exists (ep_FriendlyName params). now rewrite Hty.
Qed.

(** X9. Factors that are not verified do not count: with collaborators
    that do not fail, [EnrollFactor] succeeds for every user without a
    verified factor, whatever other factors the table holds, and answers
    with the identifier drawn and the secret of the generated key. *)
Theorem EnrollFactor_ignores_unverified_factors
    (env : EnrollEnv) (db : DB) (user : UUID) (params : EnrollFactorParams)
    (key : Key) (buf : string) (id : UUID) :
  ep_FactorType params = TOTP ->
  ep_Issuer params <> EmptyString ->
  findVerifiedFactorsErr env = None ->
  totpGenerate env (ep_Issuer params) (userEmail env) = inr key ->
  writeQrSVG env (k_String key) = inr buf ->
  newFactorID env = inr id ->
  createErr env = None ->
  auditLogErr (base env) = None ->
  sendJSONErr (base env) = None ->
  factors db !! id = None ->
  ~ has_verified_factor db user ->
  exists db',
    EnrollFactor env db user (inr params)
    = (db', inr (mkEnrollFactorResponse id TOTP (mkTOTPObject buf (k_Secret key) (k_URL key))))
    /\ factors db' !! id
       = Some (mkFactor id user (ep_FriendlyName params) TOTP FactorUnverifiedState
                        (k_Secret key)).
Proof.
  intros Hty Hiss Hfind Hgen Hqr Hid Hcreate Haudit Hsend Hfree Hnone.
  unfold EnrollFactor. rewrite Hty, String.eqb_refl. cbn [negb].
  apply String.eqb_neq in Hiss. rewrite Hiss.
  destruct (FindVerifiedFactorsByUser env db user) as [e|l] eqn:Hl.
  { unfold FindVerifiedFactorsByUser in Hl. rewrite Hfind in Hl. discriminate. }
  destruct (1 <=? length l)%nat eqn:Hlen.
  { exfalso. apply Hnone. now apply (FindVerifiedFactors_length env db user l Hl). }
  rewrite Hgen, Hqr. unfold NewFactor. rewrite Hid.
  unfold Transaction, CreateFactor, NewAuditLogEntry. cbn [f_ID].
  rewrite Hcreate, Hfree, Haudit, Hsend. cbn [f_ID f_TOTPSecret].
  eexists. split; [reflexivity|]. cbn [factors]. apply lookup_insert_eq.
Qed.

Lemma EnrollFactor_ignores_unverified_factors_witness :
  exists db',
    EnrollFactor (sample_enroll_env 1000) foreign_db "user-1" enroll_request
    = (db', inr (mkEnrollFactorResponse "factor-7" TOTP
                   (mkTOTPObject "<svg>otpauth://totp/issuer:user@example.com</svg>"
                                 "SECRET-user@example.com"
                                 "otpauth://totp/issuer:user@example.com")))
    /\ factors db' !! "factor-7"
       = Some (mkFactor "factor-7" "user-1" "phone" TOTP FactorUnverifiedState
                        "SECRET-user@example.com").
Proof.
  apply (EnrollFactor_ignores_unverified_factors (sample_enroll_env 1000) foreign_db
           "user-1" (mkEnrollFactorParams "phone" "totp" "issuer")
           (mkKey "otpauth://totp/issuer:user@example.com" "SECRET-user@example.com"
                  "otpauth://totp/issuer:user@example.com")
           "<svg>otpauth://totp/issuer:user@example.com</svg>" "factor-7");
    try reflexivity.
  - discriminate.
  - intros (k & f & Hk & _ & Hs). unfold foreign_db in Hk. cbn [factors] in Hk.
    apply lookup_singleton_Some in Hk. destruct Hk as [_ <-]. discriminate Hs.
Defined.

(** ** [ChallengeFactor] *)

(** What a successful [ChallengeFactor] did, step by step. *)
Lemma ChallengeFactor_success_inv env db db' user factor resp :
  ChallengeFactor env db user factor = (db', inr resp) ->
  exists id,
    newChallengeID env = inr id
    /\ challenges db !! id = None
    /\ resp = mkChallengeFactorResponse id
                (GoTime.Unix (GoTime.Add (now (base env)) (expiryDuration (base env))))
    /\ db' = mkDB (<[id := mkChallenge id (f_ID factor) (now (base env)) None]>
                     (challenges db))
                  (factors db) (sessions db)
                  (audit_log db ++ [mkAuditLogEntry user CreateChallengeAction
                                      [("factor_id", f_ID factor);
                                       ("factor_status", f_Status factor)]])%list.
Proof.
  unfold ChallengeFactor, NewChallenge.
  destruct (newChallengeID env) as [e|id]; [discriminate|].
  destruct (Transaction db _) as [d [e|]] eqn:Htx; [discriminate|].
  cbv zeta. destruct (sendJSONErr (base env)); [discriminate|].
  intros [= <- <-]. apply Transaction_commit in Htx. revert Htx.
  unfold CreateChallenge, NewAuditLogEntry. cbn [c_ID c_CreatedAt].
  destruct (createErr env); [discriminate|].
  destruct (challenges db !! id) eqn:Hid; [discriminate|].
  destruct (auditLogErr (base env)); [discriminate|].
  intros [= <-]. exists id. repeat split. exact Hid.
Qed.

(** X10. A successful [ChallengeFactor] adds one challenge, not verified and
    created at the current time, under an identifier that was free, and
    one entry to the audit log; factors and sessions are as they were; the
    expiry it answers is the creation time plus the configured duration,
    in whole seconds. *)
Theorem ChallengeFactor_success_effects
    (env : EnrollEnv) (db db' : DB) (user : UUID) (factor : Factor)
    (resp : ChallengeFactorResponse) :
  ChallengeFactor env db user factor = (db', inr resp) ->
  challenges db !! cr_ID resp = None
  /\ challenges db'
     = <[cr_ID resp := mkChallenge (cr_ID resp) (f_ID factor) (now (base env)) None]>
         (challenges db)
  /\ factors db' = factors db
  /\ sessions db' = sessions db
  /\ audit_log db'
     = (audit_log db ++ [mkAuditLogEntry user CreateChallengeAction
                           [("factor_id", f_ID factor);
                            ("factor_status", f_Status factor)]])%list
  /\ cr_ExpiresAt resp
     = GoTime.Unix (GoTime.Add (now (base env)) (expiryDuration (base env))).
Proof.
  intros H. apply ChallengeFactor_success_inv in H.
  destruct H as (id & _ & Hfree & -> & ->).
  cbn [cr_ID cr_ExpiresAt challenges factors sessions audit_log].
  split; [exact Hfree|]. repeat split.
Qed.

Lemma ChallengeFactor_success_effects_witness :
  let r := ChallengeFactor (sample_enroll_env (1000 * GoTime.Second)) foreign_db "user-1"
             unverified_factor in
  snd r = inr (mkChallengeFactorResponse "challenge-7" 1300)
  /\ challenges (fst r)
     = <[ "challenge-7" := mkChallenge "challenge-7" "factor-1" (1000 * GoTime.Second) None ]>
         (challenges foreign_db).
Proof.
  cbv zeta.
  destruct (ChallengeFactor_success_effects (sample_enroll_env (1000 * GoTime.Second))
              foreign_db
              (fst (ChallengeFactor (sample_enroll_env (1000 * GoTime.Second)) foreign_db
                      "user-1" unverified_factor))
              "user-1" unverified_factor (mkChallengeFactorResponse "challenge-7" 1300))
    as (_ & Hc & _).
  - vm_compute. reflexivity.
  - split; [vm_compute; reflexivity | exact Hc].
Defined.

Lemma Unix_lt (a b : GoTime.Time) : GoTime.Unix a < GoTime.Unix b -> a < b.
Proof.
  unfold GoTime.Unix, GoTime.Second. intros H.
  destruct (Z.lt_ge_cases a b) as [|Hge]; [assumption|].
  apply (Z.div_le_mono _ _ 1000000000) in Hge; lia.
Qed.

(** X11. The expiry [ChallengeFactor] answers is the one [VerifyFactor]
    enforces (under the same configured duration): a code that validates
    verifies the new challenge as long as the clock, in whole seconds, is
    before the expiry answered, and is refused with BadRequest, the
    challenge being deleted, once the clock is past that second. *)
Theorem ChallengeFactor_then_VerifyFactor
    (cenv : EnrollEnv) (env : Env) (db db1 : DB) (user : UUID) (factor : Factor)
    (resp : ChallengeFactorResponse) (code : string) :
  ChallengeFactor cenv db user factor = (db1, inr resp) ->
  faultless env ->
  ChallengeExpiryDuration env = ChallengeExpiryDuration (base cenv) ->
  totpValidate env code (f_TOTPSecret factor) = true ->
  (GoTime.Unix (now env) < cr_ExpiresAt resp ->
     exists db2 c,
       VerifyFactor env db1 user factor (inr (mkVerifyFactorParams (cr_ID resp) code))
       = (db2, None)
       /\ challenges db2 !! cr_ID resp = Some c
       /\ c_VerifiedAt c = Some (now env))
  /\ (cr_ExpiresAt resp < GoTime.Unix (now env) ->
      exists e,
        VerifyFactor env db1 user factor (inr (mkVerifyFactorParams (cr_ID resp) code))
        = (without_challenge db1 (cr_ID resp), Some e)
        /\ status_of e = Some StatusBadRequest
        /\ challenges (without_challenge db1 (cr_ID resp)) !! cr_ID resp = None).
Proof.
  intros Hch Hok Hcfg Hcode.
  apply ChallengeFactor_success_inv in Hch.
  destruct Hch as (id & _ & _ & -> & ->). cbn [cr_ID cr_ExpiresAt].
  set (c := mkChallenge id (f_ID factor) (now (base cenv)) None).
  set (db1 := mkDB _ _ _ _).
  assert (Hrow : challenges db1 !! id = Some c) by apply lookup_insert_eq.
  assert (Hd : expiryDuration env = expiryDuration (base cenv))
    by (unfold expiryDuration; now rewrite Hcfg).
  unfold GoTime.Add. split.
  - intros Hlt. apply Unix_lt in Hlt.
    destruct (verifyTx_faultless env user factor c db1 Hok) as (db2 & Htx & Hch2 & _).
    destruct Hok as (Hfind & _ & _ & _ & _ & _ & _ & _ & Hsend & _).
    rewrite (VerifyFactor_runs_verifyTx env db1 user factor
               (mkVerifyFactorParams id code) c Hfind Hrow eq_refl Hcode)
      by (cbn [c_CreatedAt c]; rewrite Hd; lia).
    unfold Transaction. rewrite Htx, Hsend.
    exists db2, (stamped c (now env)). split; [reflexivity|]. split; [|reflexivity].
    rewrite Hch2. apply lookup_insert_eq.
  - intros Hlt. apply Unix_lt in Hlt.
    destruct Hok as (Hfind & Hdel & _).
    rewrite (VerifyFactor_unverified env db1 user factor
               (mkVerifyFactorParams id code) c Hfind Hrow eq_refl).
    cbn [vp_Code]. rewrite Hcode. cbn [negb].
    assert (Hx : hasExpired env c = true).
    { apply hasExpired_spec. cbn [c_CreatedAt c]. rewrite Hd. lia. }
    rewrite Hx, Hdel. eexists. split; [reflexivity|]. split; [reflexivity|].
    cbn. apply lookup_delete_eq.
Qed.

Lemma ChallengeFactor_then_VerifyFactor_witness :
  let db1 := fst (ChallengeFactor (sample_enroll_env (1000 * GoTime.Second)) foreign_db
                    "user-1" unverified_factor) in
  (exists db2 c,
      VerifyFactor (sample_env (1200 * GoTime.Second)) db1 "user-1" unverified_factor
                   (inr (mkVerifyFactorParams "challenge-7" "123456")) = (db2, None)
      /\ challenges db2 !! "challenge-7" = Some c
      /\ c_VerifiedAt c = Some (1200 * GoTime.Second))
  /\ (exists e,
        VerifyFactor (sample_env (1400 * GoTime.Second)) db1 "user-1" unverified_factor
                     (inr (mkVerifyFactorParams "challenge-7" "123456"))
        = (without_challenge db1 "challenge-7", Some e)
        /\ status_of e = Some StatusBadRequest
        /\ challenges (without_challenge db1 "challenge-7") !! "challenge-7" = None).
Proof.
  cbv zeta. split.
  - apply (ChallengeFactor_then_VerifyFactor (sample_enroll_env (1000 * GoTime.Second))
             (sample_env (1200 * GoTime.Second)) foreign_db _ "user-1" unverified_factor
             (mkChallengeFactorResponse "challenge-7" 1300) "123456").
    + vm_compute. reflexivity.
    + apply sample_env_faultless.
    + reflexivity.
    + reflexivity.
    + vm_compute. reflexivity.
  - apply (ChallengeFactor_then_VerifyFactor (sample_enroll_env (1000 * GoTime.Second))
             (sample_env (1400 * GoTime.Second)) foreign_db _ "user-1" unverified_factor
             (mkChallengeFactorResponse "challenge-7" 1300) "123456").
    + vm_compute. reflexivity.
    + apply sample_env_faultless.
    + reflexivity.
    + reflexivity.
    + vm_compute. reflexivity.
Defined.

(** ** [adminUserDeleteFactor] *)

(** X12. [adminUserDeleteFactor] asks for no code.  When it succeeds, the
    factor row and the challenges of the factor are gone and the audit log
    has one more entry; the sessions table is as it was, also the sessions
    tied to the factor.  When it fails (the response writer apart) the
    tables are as they were. *)
Theorem adminUserDeleteFactor_effects
    (env : Env) (db : DB) (user : UUID) (factor : Factor) :
  let r := adminUserDeleteFactor env db user factor in
  sessions (fst r) = sessions db
  /\ (snd r = None ->
      factors (fst r) = delete (f_ID factor) (factors db)
      /\ (forall k c, challenges (fst r) !! k = Some c -> c_FactorID c <> f_ID factor)
      /\ audit_log (fst r)
         = (audit_log db ++ [mkAuditLogEntry user DeleteFactorAction
                               [("user_id", user); ("factor_id", f_ID factor)]])%list)
  /\ (sendJSONErr env = None -> snd r <> None -> fst r = db).
Proof.
  unfold adminUserDeleteFactor, Transaction, NewAuditLogEntry, DestroyFactor. cbv zeta.
  destruct (auditLogErr env); [cbn; repeat split; congruence|].
  destruct (destroyFactorErr env); [cbn; repeat split; congruence|].
  cbn [fst snd sessions factors challenges audit_log].
  split; [reflexivity|]. split.
  - intros _. repeat split.
    intros k c Hc. apply map_lookup_filter_Some in Hc. exact (proj2 Hc).
  - intros Hsend. rewrite Hsend. congruence.
Qed.

End MFAEnrollProps.

(** ** The HTTP dispatcher: every run *)

Section HTTPHookRun.

Import Http Hooks HookDispatch.

Lemma attempt_step_shape i a : step_shape i (attempt_step i a).
Proof.
  destruct (attempt_step i a) as [t|b e t|] eqn:E; cbn;
    [| | exact (attempt_step_not_stuck _ _ E)];
    revert E; unfold attempt_step;
    repeat match goal with
           | |- context [if ?b then _ else _] => destruct b
           | |- context [match ?x with _ => _ end] => destruct x
           end; intros [= <-] || intros [= _ _ <-] || discriminate; auto.
Qed.

Lemma posts_app t u : posts (t ++ u) = (posts t ++ posts u)%list.
Proof. unfold posts. apply flat_map_app. Qed.

Lemma sleeps_app t u : sleeps (t ++ u) = (sleeps t ++ sleeps u)%list.
Proof. unfold sleeps. apply flat_map_app. Qed.

(** The loop, from any index: the attempts are posted in order, one per
    iteration, and there is at most one pause per attempt. *)
Lemma retry_loop_trace n : forall i env trace run,
  retry_loop n i env trace = Some run ->
  exists k t,
    0 <= k <= Z.of_nat n
    /\ hr_trace run = (trace ++ t)%list
    /\ posts t = seqZ i k
    /\ Z.of_nat (length (sleeps t)) <= k
    /\ Forall (fun d => d = HTTPHookBackoffDuration) (sleeps t).
Proof.
  induction n as [|n IH]; intros i env trace run.
  - cbn. intros [= <-]. exists 0, []. cbn. rewrite app_nil_r.
    repeat split; try lia. constructor.
  - cbn [retry_loop]. pose proof (attempt_step_shape i (env i)) as Hs.
    destruct (attempt_step i (env i)) as [t|b e t|]; cbn in Hs; [| |contradiction].
    + intros Hrun. apply IH in Hrun.
      destruct Hrun as (k & t' & Hk & Ht & Hp & Hsl & Hall).
      exists (k + 1), (t ++ t')%list. rewrite posts_app, sleeps_app, Hp.
      rewrite (seqZ_cons i (k + 1)) by lia.
      replace (Z.pred (k + 1)) with k by lia. replace (Z.succ i) with (i + 1) by lia.
      split; [lia|]. split; [now rewrite Ht, app_assoc|].
      destruct Hs as [-> | ->]; cbn; (split; [reflexivity|]); split; try lia.
      * exact Hall.
      * constructor; [reflexivity | exact Hall].
    + intros [= <-]. cbn [hr_trace].
      destruct Hs as [-> | ->].
      * exists 0, []. cbn. repeat split; try lia. constructor.
      * exists 1, [Posted i]. cbn. repeat split; try lia. constructor.
Qed.

(** X17. Whatever the endpoint does, [runHTTPHook] returns, after at most
    three posts, numbered 0, 1, 2 in this order; it pauses at most once per
    post, for two seconds each time. *)
Theorem runHTTPHook_bounded (payload : Http.error + list Z) (env : Z -> Attempt) :
  exists run k,
    runHTTPHook payload env = Some run
    /\ 0 <= k <= DefaultHTTPHookRetries
    /\ posts (hr_trace run) = seqZ 0 k
    /\ Z.of_nat (length (sleeps (hr_trace run))) <= k
    /\ Forall (fun d => d = HTTPHookBackoffDuration) (sleeps (hr_trace run)).
Proof.
  destruct (runHTTPHook_total payload env) as [run Hrun]. exists run.
  revert Hrun. unfold runHTTPHook. destruct payload as [err|p].
  - intros [= <-]. exists 0. cbn.
    repeat split; try (unfold DefaultHTTPHookRetries; lia); auto.
  - intros Hrun. pose proof Hrun as Hrun'. apply retry_loop_trace in Hrun'.
    destruct Hrun' as (k & t & Hk & Ht & Hp & Hsl & Hall).
    exists k. rewrite Ht. cbn [app]. split; [exact Hrun|].
    split; [unfold DefaultHTTPHookRetries in *; lia|]. auto.
Qed.

(** A body [readBodyWithLimit] accepts is a prefix of the stream, within
    the limit. *)
Lemma readBodyWithLimit_accepted r b :
  readBodyWithLimit r = Some (Some b, None) ->
  b = firstn (Z.to_nat limit) (IO.pending r) /\ Z.of_nat (length b) <= limit.
Proof.
  destruct r as [d eager fin]. rewrite readBodyWithLimit_spec. cbn [IO.pending].
  assert (Hlim : limit = 20480) by reflexivity.
  assert (Hwhole : Z.of_nat (length d) <= limit ->
                   Some (Some d, @None Http.error) = Some (Some b, None) ->
                   b = firstn (Z.to_nat limit) d /\ Z.of_nat (length b) <= limit).
  { intros Hle [= <-]. rewrite firstn_all2 by lia. split; [reflexivity | exact Hle]. }
  destruct (Z.ltb_spec (Z.of_nat (length d)) limit) as [Hlt|Hge].
  { destruct fin; cbn; [apply Hwhole; lia | discriminate]. }
  destruct (Z.eqb_spec (Z.of_nat (length d)) limit) as [Heq|Hne].
  { destruct eager; [|apply Hwhole; lia].
    destruct fin; cbn; [apply Hwhole; lia | discriminate]. }
  destruct (Z.eqb_spec (Z.of_nat (length d)) (limit + 1)) as [Heq1|Hne1];
    cbn [andb]; [destruct eager|]; try discriminate.
  intros [= <-]. split; [reflexivity|]. rewrite length_firstn. lia.
Qed.





(** X19. A response that is neither a success nor a retryable one ends the
    run at once: a status other than 200, 202, 204, and a 429 or 503
    without a retry-after header, are not retried.  The error is
    BadRequest for 400, Unauthorized for 401 and an internal server error
    for every other status. *)
Theorem runHTTPHook_hard_status_not_retried
    (payload : list Z) (env : Z -> Attempt) (rsp : Response) :
  guardFires 0 (env 0) = false ->
  sent (env 0) (DoResponse rsp) ->
  ~ is_success_status (StatusCode rsp) ->
  ((StatusCode rsp <> StatusTooManyRequests /\ StatusCode rsp <> StatusServiceUnavailable)
   \/ RetryAfter rsp = EmptyString) ->
  exists run e,
    runHTTPHook (inr payload) env = Some run
    /\ hr_err run = Some e
    /\ hr_trace run = [Posted 0]
    /\ status_of e
       = Some (if (StatusCode rsp =? StatusTooManyRequests)
                  || (StatusCode rsp =? StatusServiceUnavailable)
               then StatusInternalServerError
               else if StatusCode rsp =? StatusBadRequest then StatusBadRequest
               else if StatusCode rsp =? StatusUnauthorized then StatusUnauthorized
               else StatusInternalServerError).
Proof.
  intros Hg ([sigs Hs] & Hn & Hd) Hns Hhard.
  unfold runHTTPHook. change (Z.to_nat DefaultHTTPHookRetries) with 3%nat.
  cbn [retry_loop]. unfold attempt_step. unfold guardFires in Hg.
  rewrite Hg, Hs, Hn, Hd. unfold is_success_status in Hns.
  destruct (Z.eqb_spec (StatusCode rsp) StatusOK); [tauto|].
  destruct (Z.eqb_spec (StatusCode rsp) StatusNoContent); [tauto|].
  destruct (Z.eqb_spec (StatusCode rsp) StatusAccepted); [tauto|]. cbn [orb].
  destruct ((StatusCode rsp =? StatusTooManyRequests)
            || (StatusCode rsp =? StatusServiceUnavailable)) eqn:Hretry.
  - destruct Hhard as [[H1 H2] | Hra].
    + apply Z.eqb_neq in H1, H2. rewrite H1, H2 in Hretry. discriminate.
    + rewrite Hra. cbn. eexists _, _. repeat split.
  - destruct (StatusCode rsp =? StatusBadRequest);
      [|destruct (StatusCode rsp =? StatusUnauthorized)];
      cbn; eexists _, _; repeat split.
Qed.

Lemma runHTTPHook_hard_status_not_retried_witness :
  exists run e,
    runHTTPHook (inr [123; 125]) (answering StatusUnauthorized) = Some run
    /\ hr_err run = Some e
    /\ hr_trace run = [Posted 0]
    /\ status_of e = Some StatusUnauthorized.
Proof.
  apply (runHTTPHook_hard_status_not_retried [123; 125] (answering StatusUnauthorized)
           (mkResponse StatusUnauthorized EmptyString None)).
  - reflexivity.
  - split; [eexists; reflexivity | split; reflexivity].
  - intros [H | [H | H]]; discriminate H.
  - right. reflexivity.
Defined.

(** X20. Failures of the transport, the elapsed-time guard not firing.
    When the endpoint cannot be connected to (the transport fails without
    a timeout before a connection is made, on each attempt),
    [runHTTPHook] posts three times, pauses two seconds after the first
    and after the second failure, and returns a gateway timeout.  When
    every attempt times out, it posts three times, pauses two seconds after
    each attempt, also after the last one, and returns the error of the end
    of the loop: an internal server error, not a gateway timeout. *)
Theorem runHTTPHook_transport_failures (payload : list Z) (env : Z -> Attempt) :
  ((forall i, 0 <= i < DefaultHTTPHookRetries ->
              guardFires i (env i) = false
              /\ exists err, sent (env i) (DoError err false false)) ->
   exists run e,
     runHTTPHook (inr payload) env = Some run
     /\ hr_err run = Some e
     /\ status_of e = Some StatusGatewayTimeout
     /\ hr_body run = None
     /\ hr_trace run = [Posted 0; Slept HTTPHookBackoffDuration;
                        Posted 1; Slept HTTPHookBackoffDuration; Posted 2])
  /\ ((forall i, 0 <= i < DefaultHTTPHookRetries ->
                 guardFires i (env i) = false
                 /\ exists err gotConn, sent (env i) (DoError err true gotConn)) ->
      exists run e,
        runHTTPHook (inr payload) env = Some run
        /\ hr_err run = Some e
        /\ status_of e = Some StatusInternalServerError
        /\ posts (hr_trace run) = [0; 1; 2]
        /\ sleeps (hr_trace run)
           = [HTTPHookBackoffDuration; HTTPHookBackoffDuration; HTTPHookBackoffDuration]).
Proof.
  split; intros H.
  - assert (Hstep : forall i, 0 <= i < DefaultHTTPHookRetries ->
              attempt_step i (env i)
              = if i <? DefaultHTTPHookRetries - 1
                then Continue [Posted i; Slept HTTPHookBackoffDuration]
                else Done None (Some (gatewayTimeoutError ErrorHookTimeout
                                        "Failed to reach hook within allotted interval"))
                          [Posted i]).
    { intros i Hi. destruct (H i Hi) as (Hg & err & [sigs Hs] & Hn & Hd).
      unfold attempt_step. unfold guardFires in Hg. rewrite Hg, Hs, Hn, Hd. cbn [negb andb].
      destruct (Z.ltb_spec i (DefaultHTTPHookRetries - 1)); [reflexivity|].
      assert (Hi2 : (i =? DefaultHTTPHookRetries - 1) = true) by (apply Z.eqb_eq; lia).
      now rewrite Hi2. }
    unfold runHTTPHook. change (Z.to_nat DefaultHTTPHookRetries) with 3%nat.
    cbn [retry_loop]. change (0 + 1) with 1. change (1 + 1) with 2.
    rewrite (Hstep 0), (Hstep 1), (Hstep 2) by (unfold DefaultHTTPHookRetries; lia).
    cbn. eexists _, _. repeat split.
  - assert (Hstep : forall i, 0 <= i < DefaultHTTPHookRetries ->
              attempt_step i (env i) = Continue [Posted i; Slept HTTPHookBackoffDuration]).
    { intros i Hi. destruct (H i Hi) as (Hg & err & gc & [sigs Hs] & Hn & Hd).
      unfold attempt_step. unfold guardFires in Hg. now rewrite Hg, Hs, Hn, Hd. }
    unfold runHTTPHook. change (Z.to_nat DefaultHTTPHookRetries) with 3%nat.
    cbn [retry_loop]. change (0 + 1) with 1. change (1 + 1) with 2.
    rewrite (Hstep 0), (Hstep 1), (Hstep 2) by (unfold DefaultHTTPHookRetries; lia).
    cbn. eexists _, _. repeat split.
Qed.

Lemma runHTTPHook_transport_failures_witness :
  (exists run e,
      runHTTPHook (inr [123; 125]) unreachable = Some run
      /\ hr_err run = Some e
      /\ status_of e = Some StatusGatewayTimeout
      /\ hr_body run = None
      /\ hr_trace run = [Posted 0; Slept HTTPHookBackoffDuration;
                         Posted 1; Slept HTTPHookBackoffDuration; Posted 2])
  /\ (exists run e,
        runHTTPHook (inr [123; 125]) hanging = Some run
        /\ hr_err run = Some e
        /\ status_of e = Some StatusInternalServerError
        /\ posts (hr_trace run) = [0; 1; 2]
        /\ sleeps (hr_trace run)
           = [HTTPHookBackoffDuration; HTTPHookBackoffDuration; HTTPHookBackoffDuration]).
Proof.
  split.
  - apply (runHTTPHook_transport_failures [123; 125] unreachable).
    intros i Hi. split.
    + unfold guardFires, unreachable, DefaultHTTPHookRetries, DefaultHTTPHookTimeout,
        HTTPHookBackoffDuration, GoTime.Second in *. cbn [sinceStart]. apply Z.ltb_ge. lia.
    + eexists. split; [eexists; reflexivity | split; reflexivity].
  - apply (runHTTPHook_transport_failures [123; 125] hanging).
    intros i Hi. split.
    + unfold guardFires, hanging, DefaultHTTPHookRetries, DefaultHTTPHookTimeout,
        HTTPHookBackoffDuration, GoTime.Second in *. cbn [sinceStart]. apply Z.ltb_ge. lia.
    + eexists _, _. split; [eexists; reflexivity | split; reflexivity].
Defined.

(** ** [invokeHTTPHook] *)

(** What [runHTTPHook] returns for a success without content at the
    first attempt. *)
Lemma runHTTPHook_empty_success payload env rsp :
  guardFires 0 (env 0) = false ->
  sent (env 0) (DoResponse rsp) ->
  is_success_status (StatusCode rsp) ->
  (Body rsp = None \/ exists eager, Body rsp = Some (IO.mkReader [] eager IO.EOF)) ->
  exists b, runHTTPHook (inr payload) env = Some (mkHookRun b None [Posted 0])
            /\ match b with Some x => x | None => [] end = [].
Proof.
  intros Hg ([sigs Hs] & Hn & Hd) Hst Hbody.
  unfold runHTTPHook. change (Z.to_nat DefaultHTTPHookRetries) with 3%nat.
  cbn [retry_loop]. unfold attempt_step. unfold guardFires in Hg.
  rewrite Hg, Hs, Hn, Hd.
  assert (Hok : (StatusCode rsp =? StatusOK) || (StatusCode rsp =? StatusNoContent)
                || (StatusCode rsp =? StatusAccepted) = true).
  { destruct Hst as [-> | [-> | ->]]; reflexivity. }
  rewrite Hok. destruct Hbody as [-> | [eager ->]].
  - exists None. split; reflexivity.
  - rewrite readBodyWithLimit_spec. exists (Some []). cbn. now destruct eager.
Qed.

(** X21. [invokeHTTPHook] always returns or panics, and every error it
    returns is an internal server error that wraps its cause: the
    BadRequest, Unauthorized and gateway-timeout errors of [runHTTPHook]
    reach the caller with status 500.  A success without content is such
    an error too: when the decoder refuses the empty input, as
    [json.Unmarshal] does, and the first attempt is answered 200, 202 or
    204 with no body or an empty one, the decoding fails. *)
Theorem invokeHTTPHook_errors_are_internal
    {T : Type} (unmarshal : list Z -> T -> option Http.error * T)
    (payload : Http.error + list Z) (env : Z -> Attempt)
    (input : HTTPHookInvoke.HTTPHookInput) (output : HTTPHookInvoke.HTTPHookOutputRef T) :
  (exists r,
      HTTPHookInvoke.invokeHTTPHook unmarshal payload env input output = Some r
      /\ forall e out, r = Return (Some e, out) ->
           status_of e = Some StatusInternalServerError
           /\ exists msg cause, e = HTTPError StatusInternalServerError EmptyString msg
                                          (Some cause))
  /\ forall p rsp o,
       payload = inr p ->
       (forall o, fst (unmarshal [] o) <> None) ->
       guardFires 0 (env 0) = false ->
       sent (env 0) (DoResponse rsp) ->
       is_success_status (StatusCode rsp) ->
       (Body rsp = None \/ exists eager, Body rsp = Some (IO.mkReader [] eager IO.EOF)) ->
       exists e out,
         HTTPHookInvoke.invokeHTTPHook unmarshal payload env
           HTTPHookInvoke.InCustomSMSProvider (HTTPHookInvoke.OutCustomSMSProvider o)
         = Some (Return (Some e, out))
         /\ message_of e = "Error unmarshaling custom SMS provider hook output.".
Proof.
  split.
  - unfold HTTPHookInvoke.invokeHTTPHook.
    destruct input; [|eexists; split; [reflexivity | discriminate]].
    destruct output as [o|n]; [|eexists; split; [reflexivity | discriminate]].
    destruct (runHTTPHook_total payload env) as [run ->].
    destruct (hr_err run) as [err|].
    + eexists. split; [reflexivity|]. intros e out [= <- _].
      split; [reflexivity | eauto].
    + destruct (unmarshal _ o) as [[err|] o'].
      * eexists. split; [reflexivity|]. intros e out [= <- _].
        split; [reflexivity | eauto].
      * eexists. split; [reflexivity|]. discriminate.
  - intros p rsp o -> Hdec Hg Hsent Hst Hbody.
    destruct (runHTTPHook_empty_success p env rsp Hg Hsent Hst Hbody) as (b & Hrun & Hb).
    unfold HTTPHookInvoke.invokeHTTPHook. rewrite Hrun. cbn [hr_err hr_body]. rewrite Hb.
    specialize (Hdec o). destruct (unmarshal [] o) as [[err|] o']; [|now contradiction Hdec].
    eexists _, _. repeat split.
Qed.

Lemma invokeHTTPHook_errors_are_internal_witness :
  exists e out,
    HTTPHookInvoke.invokeHTTPHook first_byte_decoder (inr [123; 125])
      (answering StatusNoContent)
      HTTPHookInvoke.InCustomSMSProvider (HTTPHookInvoke.OutCustomSMSProvider 0)
    = Some (Return (Some e, out))
    /\ message_of e = "Error unmarshaling custom SMS provider hook output.".
Proof.
  destruct (invokeHTTPHook_errors_are_internal first_byte_decoder (inr [123; 125])
              (answering StatusNoContent) HTTPHookInvoke.InCustomSMSProvider
              (HTTPHookInvoke.OutCustomSMSProvider 0)) as [_ H].
  apply (H [123; 125] (mkResponse StatusNoContent EmptyString None) 0).
  - reflexivity.
  - intros o. discriminate.
  - reflexivity.
  - split; [eexists; reflexivity | split; reflexivity].
  - right. left. reflexivity.
  - left. reflexivity.
Defined.

End HTTPHookRun.

(** ** Reading a response body: every stream *)

Section ReadersMore.

Import Http IO HookDispatch.

(** X22. [readBodyWithLimit] never returns more than 20 KiB: a body it
    accepts is the first bytes of the stream, at most [limit] of them, and
    the stream holds at most one byte more than the limit. *)
Theorem readBodyWithLimit_accepts_prefix (r : Reader) (b : list Z) :
  readBodyWithLimit r = Some (Some b, None) ->
  b = firstn (Z.to_nat limit) (pending r)
  /\ Z.of_nat (length b) <= limit
  /\ Z.of_nat (length (pending r)) <= limit + 1.
Proof.
  intros H. destruct (readBodyWithLimit_accepted r b H) as [Hb Hlen].
  split; [exact Hb|]. split; [exact Hlen|].
  destruct (Z.le_gt_cases (Z.of_nat (length (pending r))) (limit + 1)) as [|Hlong];
    [assumption|exfalso].
  destruct r as [d eager fin]. cbn [pending] in Hlong.
  rewrite (readBodyWithLimit_over_limit d eager fin) in H by lia.
  discriminate H.
Qed.

Lemma readBodyWithLimit_accepts_prefix_witness :
  [104; 105] = firstn (Z.to_nat limit) [104; 105]
  /\ Z.of_nat (length [104; 105]) <= limit
  /\ 2 <= limit + 1.
Proof.
  apply (readBodyWithLimit_accepts_prefix (mkReader [104; 105] false EOF) [104; 105]).
  vm_compute. reflexivity.
Defined.

(** X23. [readBodyWithLimit] by the length of the stream.  Below the limit
    the body is returned whole when the stream ends cleanly, and a failure
    of the transport is returned, with no body, however many bytes were
    read before.  A body of exactly 20 KiB is returned whole, however the
    reader reports the end.  A body of 20 KiB + 2 bytes or more is refused
    as too large, and so is one of 20 KiB + 1 bytes whose reader reports
    the end after the last byte. *)
Theorem readBodyWithLimit_by_length (d : list Z) (eager : bool) (fin : read_error) :
  (Z.of_nat (length d) < limit ->
     readBodyWithLimit (mkReader d eager fin)
     = Some (match fin with
             | EOF => (Some d, None)
             | ReadFailed e => (None, Some e)
             end))
  /\ (Z.of_nat (length d) = limit ->
      readBodyWithLimit (mkReader d eager EOF) = Some (Some d, None))
  /\ (limit + 2 <= Z.of_nat (length d)
      \/ (Z.of_nat (length d) = limit + 1 /\ eager = false) ->
      readBodyWithLimit (mkReader d eager fin) = Some tooLarge).
Proof.
  split; [|split].
  - intros H. rewrite readBodyWithLimit_spec.
    apply Z.ltb_lt in H. rewrite H. now destruct fin.
  - apply readBodyWithLimit_at_limit.
  - apply readBodyWithLimit_over_limit.
Qed.

Lemma readBodyWithLimit_by_length_witness :
  readBodyWithLimit (mkReader [104; 105] false (ReadFailed (PlainError "connection reset")))
  = Some (None, Some (PlainError "connection reset"))
  /\ readBodyWithLimit (mkReader (repeat 97 (Z.to_nat limit)) false EOF)
     = Some (Some (repeat 97 (Z.to_nat limit)), None)
  /\ readBodyWithLimit (mkReader (repeat 97 (Z.to_nat (limit + 2))) true EOF)
     = Some tooLarge.
Proof.
  split; [|split].
  - apply (readBodyWithLimit_by_length [104; 105] false
             (ReadFailed (PlainError "connection reset"))).
    vm_compute. reflexivity.
  - apply (readBodyWithLimit_by_length (repeat 97 (Z.to_nat limit)) false EOF).
    rewrite repeat_length. vm_compute. reflexivity.
  - apply (readBodyWithLimit_by_length (repeat 97 (Z.to_nat (limit + 2))) true EOF).
    left. rewrite repeat_length. vm_compute. discriminate.
Defined.

End ReadersMore.

(** ** The Postgres dispatcher: failures *)

Section PostgresRun.

Import Http Hooks HookDispatch.

Lemma runPostgresHook_ok {T} (unmarshal : list Z -> T -> option Http.error * T)
    env hasTx name request output r out :
  runPostgresHook unmarshal env hasTx name request output = Return (r, None, out) ->
  exists req response,
    request = inr req /\ r = Some response
    /\ procedureRan env hasTx name req response
    /\ unmarshal response output = (None, out).
Proof.
  unfold runPostgresHook, invokeHookFunc, procedureRan.
  destruct request as [e|req]; [discriminate|].
  destruct (setTimeoutErr env); [discriminate|].
  destruct (selectResult env name req) as [e|response] eqn:Hsel; [discriminate|].
  destruct (resetTimeoutErr env); [discriminate|].
  destruct hasTx.
  - destruct (unmarshal response output) as [[e|] o] eqn:Hu; [discriminate|].
    intros [= <- <-]. exists req, response. repeat split; auto. discriminate.
  - destruct (commitErr env); [discriminate|].
    destruct (unmarshal response output) as [[e|] o] eqn:Hu; [discriminate|].
    intros [= <- <-]. exists req, response. repeat split; auto.
Qed.

(** X24. [invokePostgresHook] lets a request through only when everything
    went well: it returns nil only if the input was encoded, the three
    statements (and the commit of a transaction of its own) succeeded, the
    value of the procedure was decoded into the output, the output carries
    no error message and, for the access-token hook, the claims are valid. *)
Theorem invokePostgresHook_allows_only_clean_output
    (codec : Codec) (config : HookConfig) (env : PgEnv) (hasConn : bool)
    (input : HookInput) (output out : HookOutputRef) :
  invokePostgresHook codec config env hasConn input output = Return (None, out) ->
  exists name req response,
    hookNameOf config input = Some name
    /\ marshal codec input = inr req
    /\ procedureRan env hasConn name req response
    /\ hookCall codec config env hasConn input output
       = Some (Return (Some response, None, out))
    /\ IsErrorOf out = false
    /\ match out with
       | OutCustomAccessToken o => validateTokenClaims codec (ca_Claims o) = None
       | _ => True
       end.
Proof.
  unfold invokePostgresHook, hookCall.
  destruct input as [i|i|i|n], output as [o|o|o|n']; try discriminate.
  - destruct (runPostgresHook _ _ _ _ _ _) as [msg|[[r [e|]] o']] eqn:Hrun; try discriminate.
    destruct (IsError o') eqn:Herr; [discriminate|]. intros [= <-].
    apply runPostgresHook_ok in Hrun. destruct Hrun as (req & response & Hm & -> & Hp & _).
    exists (MFAVerificationAttempt_HookName config), req, response. cbn. auto 7.
  - destruct (runPostgresHook _ _ _ _ _ _) as [msg|[[r [e|]] o']] eqn:Hrun; try discriminate.
    destruct (IsError o') eqn:Herr; [discriminate|]. intros [= <-].
    apply runPostgresHook_ok in Hrun. destruct Hrun as (req & response & Hm & -> & Hp & _).
    exists (PasswordVerificationAttempt_HookName config), req, response. cbn. auto 7.
  - destruct (runPostgresHook _ _ _ _ _ _) as [msg|[[r [e|]] o']] eqn:Hrun; try discriminate.
    destruct (IsError o') eqn:Herr; [discriminate|].
    destruct (validateTokenClaims codec (ca_Claims o')) eqn:Hval; [discriminate|].
    intros [= <-].
    apply runPostgresHook_ok in Hrun. destruct Hrun as (req & response & Hm & -> & Hp & _).
    exists (CustomAccessToken_HookName config), req, response. cbn. auto 7.
Qed.

Lemma invokePostgresHook_allows_only_clean_output_witness :
  exists name req response,
    hookNameOf sample_config sample_mfa_input = Some name
    /\ marshal sample_codec sample_mfa_input = inr req
    /\ procedureRan (sample_pg [403]) true name req response
    /\ hookCall sample_codec sample_config (sample_pg [403]) true sample_mfa_input
         (sample_mfa_output (mkAuthHookError 0 EmptyString))
       = Some (Return (Some response, None,
                       sample_mfa_output (mkAuthHookError 403 EmptyString)))
    /\ IsErrorOf (sample_mfa_output (mkAuthHookError 403 EmptyString)) = false
    /\ True.
Proof.
  apply (invokePostgresHook_allows_only_clean_output sample_codec sample_config
           (sample_pg [403]) true sample_mfa_input
           (sample_mfa_output (mkAuthHookError 0 EmptyString))
           (sample_mfa_output (mkAuthHookError 403 EmptyString))).
  reflexivity.
Defined.

(** X25. A failure of the database is never mistaken for a decision of the
    hook: when one of the statements fails, or the commit of the
    transaction [runPostgresHook] opened itself, [invokePostgresHook]
    returns an internal server error that wraps the failure and leaves the
    output as it was. *)
Theorem invokePostgresHook_database_failure
    (codec : Codec) (config : HookConfig) (env : PgEnv) (hasConn : bool)
    (input : HookInput) (output : HookOutputRef) (name : string) (req : list Z)
    (err : Http.error) :
  matching input output = true ->
  hookNameOf config input = Some name ->
  marshal codec input = inr req ->
  invokeHookFunc env name req = inl err
  \/ (hasConn = false /\ commitErr env = Some err
      /\ exists response, invokeHookFunc env name req = inr response) ->
  exists e,
    invokePostgresHook codec config env hasConn input output = Return (Some e, output)
    /\ status_of e = Some StatusInternalServerError
    /\ cause_of e = Some err.
Proof.
  intros Hmatch Hname Hreq Hfail.
  assert (Hrun : forall T (unmarshal : list Z -> T -> option Http.error * T) (o : T),
             runPostgresHook unmarshal env hasConn name (inr req) o
             = Return (None, Some err, o)).
  { intros T unmarshal o. unfold runPostgresHook.
    destruct Hfail as [-> | (-> & Hc & response & ->)]; [reflexivity|].
    now rewrite Hc. }
  unfold invokePostgresHook.
  destruct input as [i|i|i|n], output as [o|o|o|n']; try discriminate;
    cbn in Hname; injection Hname as <-; rewrite Hreq, Hrun;
    eexists; repeat split.
Qed.

Lemma invokePostgresHook_database_failure_witness :
  exists e,
    invokePostgresHook sample_codec sample_config (reset_fails [403]) true
      sample_mfa_input (sample_mfa_output (mkAuthHookError 0 EmptyString))
    = Return (Some e, sample_mfa_output (mkAuthHookError 0 EmptyString))
    /\ status_of e = Some StatusInternalServerError
    /\ cause_of e = Some (PlainError "connection lost").
Proof.
  apply (invokePostgresHook_database_failure sample_codec sample_config
           (reset_fails [403]) true sample_mfa_input
           (sample_mfa_output (mkAuthHookError 0 EmptyString))
           "hook_mfa_verification_attempt" []).
  - reflexivity.
  - reflexivity.
  - reflexivity.
  - left. reflexivity.
Defined.

(** Once the input is encoded, [runPostgresHook] returns. *)
Lemma runPostgresHook_returns {T} (unmarshal : list Z -> T -> option Http.error * T)
    env hasTx name req output :
  exists r, runPostgresHook unmarshal env hasTx name (inr req) output = Return r.
Proof.
  unfold runPostgresHook.
  destruct (invokeHookFunc env name req) as [e|response]; [eauto|].
  destruct hasTx; [|destruct (commitErr env); [eauto|]];
    destruct (unmarshal response output); eauto.
Qed.

(** [invokePostgresHook] panics exactly when the input is of no known
    hook type, when the output is not of the type that goes with the
    input, or when the input cannot be encoded; in every other case it
    returns. *)
Lemma invokePostgresHook_panics_iff
    (codec : Codec) (config : HookConfig) (env : PgEnv) (hasConn : bool)
    (input : HookInput) (output : HookOutputRef) :
  (exists msg, invokePostgresHook codec config env hasConn input output = Panic msg)
  <-> matching input output = false \/ exists e, marshal codec input = inl e.
Proof.
  unfold invokePostgresHook.
  destruct input as [i|i|i|n], output as [o|o|o|n']; cbn [matching];
    try (split; [intros _; left; reflexivity | intros _; eexists; reflexivity]).
  all: match goal with
       | |- context [marshal ?c ?x] => destruct (marshal c x) as [e|req] eqn:Hm
       end.
  all: try (split; [intros _; right; eexists; reflexivity
                   | intros _; eexists; reflexivity]).
  all: split; [|intros [H | [e H]]; discriminate].
  all: intros [msg H]; exfalso; revert H.
  all: match goal with
       | |- context [runPostgresHook ?u ?e ?h ?n (inr ?q) ?o] =>
           destruct (runPostgresHook_returns u e h n q o) as [[[r err] out] ->]
       end.
  all: destruct err; try discriminate; destruct (IsError out); try discriminate.
  destruct (validateTokenClaims codec (ca_Claims out)); discriminate.
Qed.

End PostgresRun.

(** ** Flow states: parsing the method *)

Section FlowStateParseProps.

Import Http FlowStateModel FlowStateParse.

(** X26. Parsing inverts [String]: the name of a method, or of a flow type,
    parses to that method, or flow type; and the name of whatever a
    spelling in ASCII parses to is that spelling in lower case. *)
Theorem Parse_String_round_trip (unicodeToLower : string -> string) :
  (forall m, ParseCodeChallengeMethod unicodeToLower (CodeChallengeMethod_String m) = inr m)
  /\ (forall t, ParseFlowType unicodeToLower (FlowType_String t) = inr t)
  /\ (forall s m, all_ascii s = true ->
                  ParseCodeChallengeMethod unicodeToLower s = inr m ->
                  CodeChallengeMethod_String m = map_bytes lower_byte s)
  /\ (forall s t, all_ascii s = true ->
                  ParseFlowType unicodeToLower s = inr t ->
                  FlowType_String t = map_bytes lower_byte s).
Proof.
  split; [|split; [|split]].
  - intros []; reflexivity.
  - intros []; reflexivity.
  - intros s m Ha. unfold ParseCodeChallengeMethod, ToLower. rewrite Ha. cbv zeta.
    destruct (String.eqb_spec (map_bytes lower_byte s) "s256") as [->|_];
      [now intros [= <-]|].
    destruct (String.eqb_spec (map_bytes lower_byte s) "plain") as [->|_];
      [now intros [= <-] | discriminate].
  - intros s t Ha. unfold ParseFlowType, ToLower. rewrite Ha. cbv zeta.
    destruct (String.eqb_spec (map_bytes lower_byte s) "pkce") as [->|_];
      [now intros [= <-]|].
    destruct (String.eqb_spec (map_bytes lower_byte s) "implicit") as [->|_];
      [now intros [= <-] | discriminate].
Qed.

Lemma VerifyPKCE_unsupported_iff f v :
  VerifyPKCE f v = unsupported
  <-> CodeChallengeMethod f <> "s256" /\ CodeChallengeMethod f <> "plain".
Proof.
  unfold VerifyPKCE, unsupported. cbn [CodeChallengeMethod_String].
  destruct (String.eqb_spec (CodeChallengeMethod f) "s256") as [E1|E1].
  { split; [|tauto]. destruct (negb _); discriminate. }
  destruct (String.eqb_spec (CodeChallengeMethod f) "plain") as [E2|E2].
  { split; [|tauto]. destruct (negb _); discriminate. }
  tauto.
Qed.

(** X27. [ParseCodeChallengeMethod] accepts a method in any case, [VerifyPKCE]
    only in lower case: a flow state made by [NewFlowState] from the parsed
    method is never refused as unsupported, while a flow state that stores
    an accepted spelling itself is refused as unsupported, for every
    verifier, unless the spelling is the lower-case name. *)
Theorem VerifyPKCE_method_case_sensitive
    (unicodeToLower : string -> string) (s : string) (m : CodeChallengeMethodT)
    (f : FlowState) (v : string) :
  ParseCodeChallengeMethod unicodeToLower s = inr m ->
  CodeChallengeMethod f = s ->
  (VerifyPKCE f v = unsupported <-> s <> CodeChallengeMethod_String m)
  /\ forall id authCode providerType codeChallenge authenticationMethod zero,
       VerifyPKCE (NewFlowState id authCode providerType codeChallenge m
                                authenticationMethod zero) v <> unsupported.
Proof.
  intros Hparse Hf. split.
  - rewrite VerifyPKCE_unsupported_iff, Hf. split.
    + intros [H1 H2] Hs. destruct m; cbn in Hs; congruence.
    + intros Hne. split; intros ->.
      * cbn in Hparse. injection Hparse as <-. now apply Hne.
      * cbn in Hparse. injection Hparse as <-. now apply Hne.
  - intros id authCode providerType codeChallenge authenticationMethod zero.
    rewrite VerifyPKCE_unsupported_iff. cbn [NewFlowState CodeChallengeMethod].
    destruct m; cbn; tauto.
Qed.

Lemma VerifyPKCE_method_case_sensitive_witness :
  VerifyPKCE (flow_with_method "S256") "any verifier" = unsupported
  /\ ParseCodeChallengeMethod (fun s => s) "S256" = inr SHA256.
Proof.
  split; [|reflexivity].
  apply (VerifyPKCE_method_case_sensitive (fun s => s) "S256" SHA256
           (flow_with_method "S256") "any verifier").
  - reflexivity.
  - reflexivity.
  - discriminate.
Defined.

End FlowStateParseProps.

(** ** Phone numbers *)

Section PhoneProps.

Import Http Phone.

Lemma is_digit_not_space c : is_digit c = true -> c <> " "%char /\ c <> "+"%char.
Proof.
  unfold is_digit. intros H. split; intros ->; discriminate H.
Qed.

Lemma remove_spaces_digits s : all_digits s = true -> remove_spaces s = s.
Proof.
  induction s as [|c s IH]; [reflexivity|]. cbn [all_digits].
  intros H. apply andb_true_iff in H. destruct H as [Hc Hs].
  destruct (is_digit_not_space c Hc) as [Hsp _].
  cbn [remove_spaces]. rewrite (IH Hs).
  destruct c as [[] [] [] [] [] [] [] []]; try reflexivity. now contradiction Hsp.
Qed.

Lemma validateE164Format_digits s :
  validateE164Format s = true ->
  all_digits s = true /\ (2 <= String.length s <= 15)%nat
  /\ exists c rest, s = String c rest /\ is_nonzero_digit c = true.
Proof.
  destruct s as [|c rest]; [discriminate|]. cbn [validateE164Format].
  rewrite !andb_true_iff, !Nat.leb_le. intros [[[Hc Hr] H1] H14].
  split; [|split; [cbn [String.length]; lia | eauto]].
  cbn [all_digits]. rewrite Hr, andb_true_r.
  unfold is_nonzero_digit in Hc. unfold is_digit.
  apply andb_true_iff in Hc. destruct Hc as [H49 H57]. apply Nat.leb_le in H49.
  rewrite H57, andb_true_r. apply Nat.leb_le. lia.
Qed.

(** X28. What [validatePhone] returns is in normal form: between 2 and 15
    digits, the first of them not 0, and no other character; validating
    it again returns it unchanged. *)
Theorem validatePhone_normal_form (phone q : string) :
  validatePhone phone = inr q ->
  all_digits q = true
  /\ (2 <= String.length q <= 15)%nat
  /\ formatPhoneNumber q = q
  /\ validatePhone q = inr q.
Proof.
  unfold validatePhone. cbv zeta.
  destruct (validateE164Format (formatPhoneNumber phone)) eqn:Hv; [|discriminate].
  cbn [negb]. intros [= <-].
  destruct (validateE164Format_digits _ Hv) as (Hd & Hlen & c & rest & Hq & Hc).
  assert (Hfix : formatPhoneNumber (formatPhoneNumber phone) = formatPhoneNumber phone).
  { unfold formatPhoneNumber at 1. rewrite Hq.
    assert (Hplus : TrimPrefix_plus (String c rest) = String c rest).
    { destruct c as [[] [] [] [] [] [] [] []]; try reflexivity; discriminate Hc. }
    rewrite Hplus, <- Hq. now apply remove_spaces_digits. }
  split; [exact Hd|]. split; [exact Hlen|]. split; [exact Hfix|].
  now rewrite Hfix, Hv.
Qed.

Lemma validatePhone_normal_form_witness :
  all_digits "4915112345678" = true
  /\ (2 <= String.length "4915112345678" <= 15)%nat
  /\ formatPhoneNumber "4915112345678" = "4915112345678"
  /\ validatePhone "4915112345678" = inr "4915112345678".
Proof.
  apply (validatePhone_normal_form "+49 151 1234 5678" "4915112345678").
  reflexivity.
Defined.

Lemma append_String c a b : String c a ++ b = String c (a ++ b).
Proof. reflexivity. Qed.

Lemma remove_spaces_app a b :
  remove_spaces (a ++ b) = remove_spaces a ++ remove_spaces b.
Proof.
  induction a as [|c a IH]; [reflexivity|].
  rewrite append_String.
  destruct c as [[] [] [] [] [] [] [] []]; cbn [remove_spaces];
    rewrite ?append_String, IH; reflexivity.
Qed.

(** Spaces count only in front: a space after the first character of
    the input changes nothing, whereas the plus sign is removed only when
    it is the very first character, so that a number with a space before
    the plus sign is refused. *)
Lemma validatePhone_spaces (a b : string) :
  a <> EmptyString ->
  validatePhone (a ++ " " ++ b) = validatePhone (a ++ b)
  /\ exists e, validatePhone (" +" ++ b) = inl e
               /\ status_of e = Some StatusUnprocessableEntity.
Proof.
  intros Ha. split.
  - unfold validatePhone, formatPhoneNumber.
    assert (H : remove_spaces (TrimPrefix_plus (a ++ " " ++ b))
                = remove_spaces (TrimPrefix_plus (a ++ b))).
    { destruct a as [|c a]; [now contradiction Ha|].
      assert (Htrim : forall t, TrimPrefix_plus (String c a ++ t)
                                = TrimPrefix_plus (String c a) ++ t).
      { intros t. rewrite append_String.
        destruct c as [[] [] [] [] [] [] [] []]; reflexivity. }
      rewrite !Htrim, !remove_spaces_app. reflexivity. }
    now rewrite H.
  - unfold validatePhone, formatPhoneNumber. cbn. eexists. split; reflexivity.
Qed.

End PhoneProps.

(** ** The Twilio Verify provider *)

Section TwilioVerifyProps.

Import Http HookDispatch TwilioVerify.

(** X29. [VerifyOTP] accepts a code only on the word of the service: it
    returns nil only when Verify is enabled, the check was posted to the
    VerificationCheck path of the service with the phone number and the
    code, the answer has status 200 or 201 and decodes to a check whose
    status is approved and which is valid. *)
Theorem VerifyOTP_success_sound
    (env : Env) (t : TwilioVerifyProvider) (phone code : string) :
  VerifyOTP env t phone code = Return None ->
  VerifyEnabled (Config t) = true
  /\ exists st body resp,
      do env (mkRequest (verifyServiceApiBase ++ MessageServiceSid (Config t)
                           ++ "/VerificationCheck")
                        [("To", phone); ("Code", code)]
                        (AccountSid (Config t), AuthToken (Config t)))
      = mkDoReturn (Some (st, body)) None
      /\ (st = StatusOK \/ st = StatusCreated)
      /\ decodeCheckResponse env body = inr resp
      /\ Status resp = "approved"
      /\ Valid resp = true.
Proof.
  unfold VerifyOTP. destruct (VerifyEnabled (Config t)); [|discriminate]. cbn [negb].
  cbv zeta. destruct (newRequestErr env); [discriminate|].
  destruct (do env _) as [[[st body]|] [e|]] eqn:Hdo; try discriminate.
  destruct (negb (st =? StatusOK) && negb (st =? StatusCreated)) eqn:Hst.
  { destruct (decodeErrResponse env body); discriminate. }
  destruct (decodeCheckResponse env body) as [e|resp] eqn:Hdec; [discriminate|].
  destruct (String.eqb_spec (Status resp) "approved") as [Happ|]; [|discriminate].
  destruct (Valid resp) eqn:Hvalid; [|discriminate].
  intros _. split; [reflexivity|]. exists st, body, resp.
  split; [first [exact Hdo | reflexivity]|]. split; [|auto].
  destruct (Z.eqb_spec st StatusOK); [now left|].
  destruct (Z.eqb_spec st StatusCreated); [now right | discriminate].
Qed.

Lemma VerifyOTP_success_sound_witness :
  VerifyEnabled (Config sample_twilio) = true
  /\ exists st body resp,
      do (sample_twilio_env (mkDoReturn (Some (200, [1])) None))
         (mkRequest (verifyServiceApiBase ++ MessageServiceSid (Config sample_twilio)
                       ++ "/VerificationCheck")
                    [("To", "+4915112345678"); ("Code", "123456")]
                    (AccountSid (Config sample_twilio), AuthToken (Config sample_twilio)))
      = mkDoReturn (Some (st, body)) None
      /\ (st = StatusOK \/ st = StatusCreated)
      /\ decodeCheckResponse (sample_twilio_env (mkDoReturn (Some (200, [1])) None)) body
         = inr resp
      /\ Status resp = "approved"
      /\ Valid resp = true.
Proof.
  apply (VerifyOTP_success_sound (sample_twilio_env (mkDoReturn (Some (200, [1])) None))
           sample_twilio "+4915112345678" "123456").
  reflexivity.
Defined.

(** X30. A failure of the transport is not returned as an error: when
    [client.Do] fails and returns no response, [SendSms] and [VerifyOTP]
    (Verify being enabled) panic on the deferred close of the body. *)
Theorem Twilio_transport_failure_panics
    (env : Env) (t : TwilioVerifyProvider) (phone message channel code : string)
    (e : Http.error) :
  newRequestErr env = None ->
  (forall r, do env r = mkDoReturn None (Some e)) ->
  SendSms env t phone message channel = Panic nilDereference
  /\ (VerifyEnabled (Config t) = true ->
      VerifyOTP env t phone code = Panic nilDereference).
Proof.
  intros Hreq Hdo. split.
  - unfold SendSms. cbv zeta. now rewrite Hreq, Hdo.
  - intros Hen. unfold VerifyOTP. cbv zeta. now rewrite Hen, Hreq, Hdo.
Qed.

Lemma Twilio_transport_failure_panics_witness :
  SendSms (sample_twilio_env (mkDoReturn None (Some (PlainError "dial tcp: timeout"))))
          sample_twilio "+4915112345678" "Your code is 123456" "sms"
  = Panic nilDereference
  /\ VerifyOTP (sample_twilio_env (mkDoReturn None (Some (PlainError "dial tcp: timeout"))))
               sample_twilio "+4915112345678" "123456"
     = Panic nilDereference.
Proof.
  destruct (Twilio_transport_failure_panics
              (sample_twilio_env (mkDoReturn None (Some (PlainError "dial tcp: timeout"))))
              sample_twilio "+4915112345678" "Your code is 123456" "sms" "123456"
              (PlainError "dial tcp: timeout")) as (Hsend & Hverify).
  - reflexivity.
  - intros r. reflexivity.
  - split; [exact Hsend | apply Hverify; reflexivity].
Defined.

End TwilioVerifyProps.
